(** * server.js of the industry-intelligence backend

    A shallow embedding of the request handlers of [server.js] and of the
    SQL statements they send, with the properties its specification
    states about them.

    Conventions of the model.
    - A JavaScript number is an IEEE 754 binary64 value, with the
      arithmetic of the Standard Library's [SpecFloat]: every operation
      rounds to the nearest value, ties to even.
    - A SQL [NUMERIC] value is an exact rational ([Q]), and so is its
      [AVG].  The driver hands a [NUMERIC] column to the handlers as a
      string, the text the database prints for it.
    - SQL [NULL] and JavaScript [null] are [None], or [js_null] where a
      value can also be a number or a string.
    - A table is the list of its rows, in storage order.
    - A handler runs in a world made of the database and the console; a
      rejected promise or a thrown exception is a value of [js_error]. *)

From Stdlib Require Import ZArith NArith QArith Qround Qabs Qpower Lqa.
From Stdlib Require Import List String Ascii Bool Lia Permutation Sorted.
From Stdlib Require Import SpecFloat.
Import ListNotations.

Local Open Scope Z_scope.
Local Open Scope Q_scope.
Local Open Scope list_scope.

(* ====================================================================== *)
(** * JavaScript built-ins used by the handlers *)
(* ====================================================================== *)

(** An exception value: the name of the error class and its message. *)
Inductive js_error : Type :=
| TypeError (msg : string)
| DatabaseError (msg : string).

(** ** Numbers *)

Definition prec : Z := 53%Z.
Definition emax : Z := 1024%Z.

Definition number : Type := spec_float.

Definition zero : number := S754_zero false.

(** The number of an integer: the integer itself up to 2^53, the nearest
    number beyond. *)
Definition of_Z (z : Z) : number := binary_normalize prec emax z 0 false.

Definition num_add : number -> number -> number := SFadd prec emax.
Definition num_sub : number -> number -> number := SFsub prec emax.
Definition num_div : number -> number -> number := SFdiv prec emax.

(** [x < y]; false when either is NaN. *)
Definition num_lt (x y : number) : bool := SFltb x y.

(** The number of the decimal literal [digits / 10^places], for an
    integer and a power of ten that are numbers themselves: their
    quotient, rounded once. *)
Definition decimal_literal (digits places : Z) : number :=
  num_div (of_Z digits) (of_Z (10 ^ places)).

(** A number that is neither NaN nor infinite. *)
Definition is_finite (x : number) : bool :=
  match x with
  | S754_zero _ => true
  | S754_finite _ m e => bounded prec emax m e
  | _ => false
  end.

(** The rational a finite number stands for. *)
Definition exact (x : number) : Q :=
  match x with
  | S754_finite s m e => inject_Z (cond_Zopp s (Zpos m)) * (2 # 1) ^ e
  | _ => 0
  end.

(** ** Array.prototype.sort

    The sort is stable (ECMAScript 2019): with a comparator [cmp], an
    element [a] that precedes [b] in the input stays before it unless
    [cmp a b > 0].  For a comparator that orders by a key every stable
    sort returns the same array; here rows are inserted from the right,
    each one in front of the first row it does not have to follow. *)
Section Sort.
Context {A : Type}.
Variable cmp : A -> A -> Q.

Fixpoint insert (x : A) (l : list A) : list A :=
  match l with
  | [] => [x]
  | y :: l' => if Qle_bool (cmp x y) 0 then x :: y :: l' else y :: insert x l'
  end.

Definition sort (l : list A) : list A := fold_right insert [] l.
End Sort.

(** What the sort reads of the number a comparator returns: its sign,
    with NaN taken as zero. *)
Definition sign (v : number) : Q :=
  if num_lt zero v then 1 else if num_lt v zero then -1 else 0.

Definition Array_sort {A : Type} (comparefn : A -> A -> number) (l : list A) : list A :=
  sort (fun a b => sign (comparefn a b)) l.

(** ** Decimal digits of a natural number *)

Definition digit (d : N) : string :=
  String (ascii_of_N (48 + d)) EmptyString.

Fixpoint digits_fuel (fuel : nat) (n : N) : string :=
  match fuel with
  | O => EmptyString
  | S fuel' =>
      if (n <? 10)%N then digit n
      else (digits_fuel fuel' (n / 10) ++ digit (n mod 10))%string
  end.

(** The digits of [n], without leading zeroes ("0" for zero).  A number
    has no more decimal digits than binary ones. *)
Definition decimal (n : N) : string :=
  digits_fuel (S (N.to_nat (N.log2 n))) n.

Fixpoint zeroes (k : nat) : string :=
  match k with
  | O => EmptyString
  | S k' => String "0" (zeroes k')
  end.

(** ** Number.prototype.toFixed *)
Section ToFixed.
(** [Number::toString], which [toFixed] falls back on from 10^21 on; the
    digits it prints stay abstract. *)
Variable NumberToString : number -> string.

(** The integer [n] for which [n / 10^f - x] is closest to zero, the
    larger one when there are two ([x] is not negative). *)
Definition nearest_scaled (f : nat) (x : Q) : N :=
  Z.to_N (Qfloor (x * inject_Z (10 ^ Z.of_nat f) + (1 # 2))).

(** The digits of [x], which is not negative, with [f] of them after the
    point. *)
Definition fixed_digits (f : nat) (x : Q) : string :=
  let n := nearest_scaled f x in
  let m := decimal n in
  match f with
  | O => m
  | _ =>
      let k := String.length m in
      let m := if (k <=? f)%nat then (zeroes (f + 1 - k) ++ m)%string else m in
      let k := String.length m in
      let a := substring 0 (k - f) m in
      let b := substring (k - f) f m in
      (a ++ "." ++ b)%string
  end.

Definition toFixed (f : nat) (x : number) : string :=
  match x with
  | S754_nan => "NaN"
  | S754_infinity s => if s then "-Infinity" else "Infinity"
  | _ =>
      let r := exact x in
      let s := if Qle_bool 0 r then EmptyString else "-"%string in
      let r := Qabs r in
      let m :=
        if Qle_bool (inject_Z (10 ^ 21)) r then NumberToString (SFabs x)
        else fixed_digits f r in
      (s ++ m)%string
  end.
End ToFixed.

(** ** Values

    What a column of a row holds once the driver has built the row:
    [null], a number or a string. *)
Inductive js_value : Type :=
| js_null
| js_number (x : number)
| js_string (s : string).

Section Conversions.
(** [StringToNumber] and [Number::toString], the conversions between
    numbers and their texts. *)
Variable StringToNumber : string -> number.
Variable NumberToString : number -> string.

Definition ToNumber (v : js_value) : number :=
  match v with
  | js_null => zero
  | js_number x => x
  | js_string s => StringToNumber s
  end.

Definition ToString (v : js_value) : string :=
  match v with
  | js_null => "null"
  | js_number x => NumberToString x
  | js_string s => s
  end.

(** [ToBoolean]: [null], the zeroes, NaN and the empty string are the
    falsy values. *)
Definition ToBoolean (v : js_value) : bool :=
  match v with
  | js_null => false
  | js_number (S754_zero _) => false
  | js_number S754_nan => false
  | js_number _ => true
  | js_string s => negb (String.eqb s "")
  end.

(** [v || 0]. *)
Definition or_zero (v : js_value) : js_value :=
  if ToBoolean v then v else js_number zero.

(** [a + b]: the concatenation of the two texts when one of them is a
    string, the sum of the two numbers otherwise. *)
Definition plus (a b : js_value) : js_value :=
  match a, b with
  | js_string _, _ | _, js_string _ => js_string (ToString a ++ ToString b)
  | _, _ => js_number (num_add (ToNumber a) (ToNumber b))
  end.
End Conversions.

(* ====================================================================== *)
(** * The comparison insight generator *)
(* ====================================================================== *)

(** A row of the comparison query as the handler receives it: the
    grouping columns of [companies] and the three averages.  The id is a
    BIGINT and arrives as its decimal text, the name is a VARCHAR that is
    not NULL, and the other columns may be NULL. *)
Record company_row : Type := {
  row_id : string;
  row_name : string;
  row_ticker_symbol : option string;
  row_market_cap : js_value;
  row_revenue : js_value;
  row_growth_rate : js_value;
  row_avg_sentiment : js_value
}.

Section Insights.
Variable StringToNumber : string -> number.
Variable NumberToString : number -> string.

Definition by_market_cap (a b : company_row) : number :=
  num_sub (ToNumber StringToNumber (row_market_cap b))
          (ToNumber StringToNumber (row_market_cap a)).

Definition by_growth (a b : company_row) : number :=
  num_sub (ToNumber StringToNumber (row_growth_rate b))
          (ToNumber StringToNumber (row_growth_rate a)).

Definition not_a_function : js_error :=
  TypeError "sortedByGrowth[0].growth_rate?.toFixed is not a function".

(** [growth_rate?.toFixed(1)] inside a template literal: the optional
    call yields [undefined] on [null], and throws on a string, which has
    no method of that name. *)
Definition growth_text (g : js_value) : js_error + string :=
  match g with
  | js_null => inr "undefined"%string
  | js_number x => inr (toFixed NumberToString 1 x)
  | js_string _ => inl not_a_function
  end.

Definition sentiment_label (avgSentiment : number) : string :=
  if num_lt (decimal_literal 6 1) avgSentiment then "positive"
  else if num_lt (decimal_literal 4 1) avgSentiment then "neutral"
  else "negative".

Definition undefined_name : js_error :=
  TypeError "Cannot read properties of undefined (reading 'name')".

Definition generateComparisonInsights (companies : list company_row)
  : js_error + list string :=
  let insights := [] in
  let sortedByMarketCap := Array_sort by_market_cap companies in
  let sortedByGrowth := Array_sort by_growth companies in
  match nth_error sortedByMarketCap 0 with
  | None => inl undefined_name
  | Some cap0 =>
      let insights := insights ++
        [(row_name cap0 ++ " leads in market capitalization with $"
          ++ toFixed NumberToString 1
               (num_div (ToNumber StringToNumber (row_market_cap cap0))
                        (of_Z 1000000000))
          ++ "B")%string] in
      match nth_error sortedByGrowth 0 with
      | None => inl undefined_name
      | Some growth0 =>
          match growth_text (row_growth_rate growth0) with
          | inl error => inl error
          | inr rate =>
              let insights := insights ++
                [(row_name growth0 ++ " shows highest growth rate at "
                  ++ rate ++ "%")%string] in
              let avgSentiment :=
                num_div
                  (ToNumber StringToNumber
                     (fold_left
                        (fun sum c =>
                           plus StringToNumber NumberToString sum
                                (or_zero (row_avg_sentiment c)))
                        companies (js_number zero)))
                  (of_Z (Z.of_nat (List.length companies))) in
              let insights := insights ++
                [("Overall market sentiment is " ++ sentiment_label avgSentiment)%string] in
              inr insights
          end
      end
  end.
End Insights.

(* ====================================================================== *)
(** * The database *)
(* ====================================================================== *)

(** Rows of the tables [createTables] declares; timestamps and dates are
    seconds on the server's clock. *)
Record user : Type := {
  user_id : Z;
  email : option string;
  stripe_customer_id : option string;
  subscription_id : option string;
  plan_id : option string;
  status : option string;
  user_created_at : option Z;
  user_updated_at : option Z
}.

Record company : Type := {
  company_id : Z;
  name : string;
  ticker_symbol : option string;
  industry_code : option string;
  naics_code : option string;
  sic_code : option string;
  market_cap : option Q;
  headquarters_country : option string;
  founded_date : option Z;
  employee_count : option Z;
  website : option string;
  description : option string;
  company_created_at : option Z;
  company_updated_at : option Z
}.

Record financial_metric : Type := {
  metric_id : Z;
  metric_company_id : option Z;
  metric_type : option string;
  metric_value : option Q;
  metric_unit : option string;
  period_type : option string;
  period_date : option Z;
  data_source : option string;
  metric_created_at : option Z
}.

(** Modelled from the spec: the table [news_sentiment], which the
    comparison query reads and [createTables] does not declare; a row
    belongs to one company and holds a sentiment score and a publish
    date. *)
Record news_sentiment_row : Type := {
  news_company_id : option Z;
  sentiment_score : option Q;
  published_date : option Z
}.

(** Modelled from the spec: the table [industries], which the industry
    analysis reads and [createTables] does not declare; the query uses
    its NAICS code and its title. *)
Record industry : Type := {
  industry_naics_code : option string;
  industry_title : option string
}.

Record database : Type := {
  users : list user;
  users_id_seq : Z;
  companies : list company;
  financial_metrics : list financial_metric;
  news_sentiment : list news_sentiment_row;
  industries : list industry
}.

Definition set_users (us : list user) (seq : Z) (d : database) : database :=
  {| users := us; users_id_seq := seq; companies := companies d;
     financial_metrics := financial_metrics d;
     news_sentiment := news_sentiment d; industries := industries d |}.

(** ** SQL operators *)

(** [a = b] is true only between two values that are not NULL. *)
Definition sql_eq {A : Type} (eqb : A -> A -> bool) (a b : option A) : bool :=
  match a, b with
  | Some x, Some y => eqb x y
  | _, _ => false
  end.

(** [a IS NOT DISTINCT FROM b], the comparison GROUP BY makes. *)
Definition same {A : Type} (eqb : A -> A -> bool) (a b : option A) : bool :=
  match a, b with
  | Some x, Some y => eqb x y
  | None, None => true
  | _, _ => false
  end.

(** The rows of [rs] that a left row [l] joins with: its matches, or one
    row of NULLs when it has none. *)
Definition matches {L R : Type} (on : L -> R -> bool) (l : L) (rs : list R)
  : list (option R) :=
  match filter (on l) rs with
  | [] => [None]
  | ms => map Some ms
  end.

(** [ls LEFT JOIN rs ON on]. *)
Definition left_join {L R : Type} (on : L -> R -> bool) (ls : list L) (rs : list R)
  : list (L * option R) :=
  flat_map (fun l => map (pair l) (matches on l rs)) ls.

Definition non_null {A : Type} (vs : list (option A)) : list A :=
  flat_map (fun v => match v with Some x => [x] | None => [] end) vs.

Definition total (xs : list Q) : Q := fold_right Qplus 0 xs.

(** The mean of a list of numbers, in lowest terms; none for no number. *)
Definition average (xs : list Q) : option Q :=
  match xs with
  | [] => None
  | _ => Some (Qred (total xs / inject_Z (Z.of_nat (List.length xs))))
  end.

(** [AVG(e)] over the rows of a group: the mean of the values that are
    not NULL, NULL when there is none. *)
Definition sql_avg (vs : list (option Q)) : option Q := average (non_null vs).

(** [COUNT(e)]: the number of rows where [e] is not NULL. *)
Definition sql_count {A : Type} (vs : list (option A)) : Z :=
  Z.of_nat (List.length (non_null vs)).

(** ** GROUP BY: one group per distinct key, in order of first occurrence *)
Section GroupBy.
Context {R K : Type}.
Variable key : R -> K.
Variable key_eqb : K -> K -> bool.

Fixpoint distinct (ks : list K) : list K :=
  match ks with
  | [] => []
  | k :: ks' => k :: filter (fun k' => negb (key_eqb k' k)) (distinct ks')
  end.

Definition group_by (rows : list R) : list (K * list R) :=
  map (fun k => (k, filter (fun r => key_eqb (key r) k) rows))
      (distinct (map key rows)).
End GroupBy.

(** ** The statements of the handlers

    A statement maps the database to its outcome, an error message or
    its result rows, and to the database it leaves.  A statement that
    fails leaves every table as it was; a value it drew from a sequence
    is not given back. *)

Definition statement (R : Type) : Type := database -> (string + R) * database.

(** *** Character columns

    A string holds the bytes of its UTF-8 text, and VARCHAR(n) counts
    characters: one starts at every byte that is not a continuation
    byte. *)
Definition continuation (b : ascii) : bool :=
  let n := N_of_ascii b in (128 <=? n)%N && (n <? 192)%N.

Fixpoint characters (s : string) : nat :=
  match s with
  | EmptyString => O
  | String b s' => if continuation b then characters s' else S (characters s')
  end.

(** The first [n] characters of [s], and what follows them. *)
Fixpoint split_at (n : nat) (s : string) : string * string :=
  match s with
  | EmptyString => (EmptyString, EmptyString)
  | String b s' =>
      if continuation b then
        let '(p, r) := split_at n s' in (String b p, r)
      else
        match n with
        | O => (EmptyString, s)
        | S n' => let '(p, r) := split_at n' s' in (String b p, r)
        end
  end.

Fixpoint blank (s : string) : bool :=
  match s with
  | EmptyString => true
  | String b s' => Ascii.eqb b " " && blank s'
  end.

(** The assignment of [v] to a VARCHAR([width]) column fails when [v]
    has more than [width] characters and those in excess are not all
    spaces; otherwise the column stores the first [width] characters. *)
Definition too_long (width : nat) (v : option string) : bool :=
  match v with
  | Some s => negb (blank (snd (split_at width s)))
  | None => false
  end.

Definition stored (width : nat) (v : option string) : option string :=
  option_map (fun s => fst (split_at width s)) v.

Definition has_customer (c : string) (u : user) : bool :=
  sql_eq String.eqb (stripe_customer_id u) (Some c).

(** The row an INSERT of the four columns makes: [id] from the sequence,
    the timestamps from the clock, no email. *)
Definition new_user (id now : Z) (p1 p2 p3 p4 : option string) : user :=
  {| user_id := id; email := None; stripe_customer_id := p1;
     subscription_id := p2; plan_id := p3; status := p4;
     user_created_at := Some now; user_updated_at := Some now |}.

(** [SET subscription_id = p2, plan_id = p3, status = p4] on a row. *)
Definition with_subscription (p2 p3 p4 : option string) (u : user) : user :=
  {| user_id := user_id u; email := email u;
     stripe_customer_id := stripe_customer_id u;
     subscription_id := p2; plan_id := p3; status := p4;
     user_created_at := user_created_at u;
     user_updated_at := user_updated_at u |}.

(** [SET status = p1] on a row. *)
Definition with_status (p1 : option string) (u : user) : user :=
  {| user_id := user_id u; email := email u;
     stripe_customer_id := stripe_customer_id u;
     subscription_id := subscription_id u; plan_id := plan_id u;
     status := p1;
     user_created_at := user_created_at u;
     user_updated_at := user_updated_at u |}.

(** [INSERT INTO users (stripe_customer_id, subscription_id, plan_id,
    status) VALUES ($1, $2, $3, $4) ON CONFLICT (stripe_customer_id) DO
    UPDATE SET subscription_id = $2, plan_id = $3, status = $4], run at
    time [now].

    [upsert_row] is the statement on the values of the four columns.  An
    [id] is drawn from the table's sequence, whatever becomes of the row:
    it conflicts and the old row is updated, it breaks the primary key
    and the statement fails, or it is inserted.  The key is unique among
    the ids and [stripe_customer_id] among the values that are not
    NULL. *)
Definition upsert_row (now : Z) (v1 v2 v3 v4 : option string) : statement unit :=
  fun d =>
    let id := users_id_seq d in
    let conflicting :=
      match v1 with
      | Some c => existsb (has_customer c) (users d)
      | None => false
      end in
    if conflicting then
      let update u :=
        if sql_eq String.eqb (stripe_customer_id u) v1
        then with_subscription v2 v3 v4 u else u in
      (inr tt, set_users (map update (users d)) (id + 1) d)
    else if existsb (fun u => (user_id u =? id)%Z) (users d) then
      (inl "duplicate key value violates unique constraint users_pkey"%string,
       set_users (users d) (id + 1) d)
    else
      (inr tt, set_users (users d ++ [new_user id now v1 v2 v3 v4]) (id + 1) d).

(** The columns are VARCHAR(255), VARCHAR(255), VARCHAR(50) and
    VARCHAR(50); the parameters are checked against them, and cut to
    them, before the statement runs. *)
Definition upsert_user (now : Z) (p1 p2 p3 p4 : option string) : statement unit :=
  fun d =>
    if too_long 255 p1 || too_long 255 p2 then
      (inl "value too long for type character varying(255)"%string, d)
    else if too_long 50 p3 || too_long 50 p4 then
      (inl "value too long for type character varying(50)"%string, d)
    else
      upsert_row now (stored 255 p1) (stored 255 p2) (stored 50 p3) (stored 50 p4) d.

(** [UPDATE users SET status = $1 WHERE subscription_id = $2]. *)
Definition cancel_subscription (p1 p2 : option string) : statement unit :=
  fun d =>
    if too_long 50 p1 then
      (inl "value too long for type character varying(50)"%string, d)
    else
      let update u :=
        if sql_eq String.eqb (subscription_id u) p2
        then with_status (stored 50 p1) u else u in
      (inr tt, set_users (map update (users d)) (users_id_seq d) d).

(** The aggregate row of the industry analysis. *)
Record analysis_row : Type := {
  analysis_industry_title : option string;
  company_count : Z;
  avg_market_cap : option Q;
  avg_growth_rate : option Q
}.

Definition opt {A B : Type} (f : A -> option B) (r : option A) : option B :=
  match r with
  | Some x => f x
  | None => None
  end.

(** The industry analysis statement:
    [SELECT i.industry_title, COUNT(c.id), AVG(c.market_cap),
    AVG(fm.metric_value) FROM industries i LEFT JOIN companies c ON
    i.naics_code = c.naics_code LEFT JOIN financial_metrics fm ON c.id =
    fm.company_id AND fm.metric_type = 'revenue_growth' WHERE i.naics_code
    = $1 GROUP BY i.industry_title]. *)
Definition industry_rows (code : string) (d : database)
  : list (industry * option company * option financial_metric) :=
  let with_companies :=
    left_join (fun i c => sql_eq String.eqb (industry_naics_code i) (naics_code c))
              (industries d) (companies d) in
  let with_metrics :=
    left_join (fun (ic : industry * option company) fm =>
                 sql_eq Z.eqb (opt (fun c => Some (company_id c)) (snd ic))
                        (metric_company_id fm)
                 && sql_eq String.eqb (metric_type fm) (Some "revenue_growth"%string))
              with_companies (financial_metrics d) in
  filter (fun r => sql_eq String.eqb (industry_naics_code (fst (fst r))) (Some code))
         with_metrics.

Definition industryQuery (code : string) : statement (list analysis_row) :=
  fun d =>
    let groups :=
      group_by (fun r : industry * option company * option financial_metric =>
                  industry_title (fst (fst r)))
               (same String.eqb) (industry_rows code d) in
    (inr (map (fun g : option string * list (industry * option company * option financial_metric) =>
                {| analysis_industry_title := fst g;
                   company_count :=
                     sql_count (map (fun r => opt (fun c => Some (company_id c)) (snd (fst r))) (snd g));
                   avg_market_cap :=
                     sql_avg (map (fun r => opt market_cap (snd (fst r))) (snd g));
                   avg_growth_rate :=
                     sql_avg (map (fun r => opt metric_value (snd r)) (snd g)) |})
             groups), d).

(** The comparison statement, run at time [now] with the ids as
    parameters:
    [SELECT c.id, c.name, c.ticker_symbol, c.market_cap, AVG(CASE WHEN
    fm.metric_type = 'revenue' THEN fm.metric_value END) as revenue,
    AVG(CASE WHEN fm.metric_type = 'revenue_growth' THEN fm.metric_value
    END) as growth_rate, AVG(ns.sentiment_score) as avg_sentiment FROM
    companies c LEFT JOIN financial_metrics fm ON c.id = fm.company_id LEFT
    JOIN news_sentiment ns ON c.id = ns.company_id AND ns.published_date >
    NOW() - INTERVAL '30 days' WHERE c.id IN (...) GROUP BY c.id, c.name,
    c.ticker_symbol, c.market_cap]. *)
Definition thirty_days : Z := 30 * 24 * 60 * 60.

Definition recent (now : Z) (ns : news_sentiment_row) : bool :=
  match published_date ns with
  | Some t => (now - thirty_days <? t)%Z
  | None => false
  end.

Definition joined : Type := company * option financial_metric * option news_sentiment_row.

Definition compare_joined (now : Z) (companyIds : list Z) (d : database) : list joined :=
  let with_metrics :=
    left_join (fun c fm => sql_eq Z.eqb (Some (company_id c)) (metric_company_id fm))
              (companies d) (financial_metrics d) in
  let with_news :=
    left_join (fun (cf : company * option financial_metric) ns =>
                 sql_eq Z.eqb (Some (company_id (fst cf))) (news_company_id ns)
                 && recent now ns)
              with_metrics (news_sentiment d) in
  filter (fun r : joined => existsb (Z.eqb (company_id (fst (fst r)))) companyIds)
         with_news.

(** [CASE WHEN fm.metric_type = t THEN fm.metric_value END]. *)
Definition value_of_type (t : string) (fm : option financial_metric) : option Q :=
  match fm with
  | Some m => if sql_eq String.eqb (metric_type m) (Some t) then metric_value m else None
  | None => None
  end.

Definition group_key : Type := Z * string * option string * option Q.

Definition compare_key (r : joined) : group_key :=
  let c := fst (fst r) in
  (company_id c, name c, ticker_symbol c, market_cap c).

Definition group_key_eqb (k1 k2 : group_key) : bool :=
  let '(i1, n1, t1, m1) := k1 in
  let '(i2, n2, t2, m2) := k2 in
  (i1 =? i2)%Z && String.eqb n1 n2 && same String.eqb t1 t2 && same Qeq_bool m1 m2.

(** A row of the comparison statement, in the database. *)
Record compared : Type := {
  compared_id : Z;
  compared_name : string;
  compared_ticker_symbol : option string;
  compared_market_cap : option Q;
  compared_revenue : option Q;
  compared_growth_rate : option Q;
  compared_avg_sentiment : option Q
}.

Definition compare_select (g : group_key * list joined) : compared :=
  let '(i, n, t, m) := fst g in
  {| compared_id := i; compared_name := n; compared_ticker_symbol := t;
     compared_market_cap := m;
     compared_revenue :=
       sql_avg (map (fun r : joined => value_of_type "revenue" (snd (fst r))) (snd g));
     compared_growth_rate :=
       sql_avg (map (fun r : joined => value_of_type "revenue_growth" (snd (fst r))) (snd g));
     compared_avg_sentiment :=
       sql_avg (map (fun r : joined => opt sentiment_score (snd r)) (snd g)) |}.

Definition compareQuery (now : Z) (companyIds : list Z) : statement (list compared) :=
  fun d =>
    (inr (map compare_select
               (group_by compare_key group_key_eqb (compare_joined now companyIds d))), d).

(** ** The rows the driver builds

    The driver parses no NUMERIC and no BIGINT column: each arrives as
    the text the database prints for it. *)
Section Driver.
(** The text of a NUMERIC value; its digits after the point are those of
    the scale the database gives the value. *)
Variable numeric_out : Q -> string.

Definition int8out (z : Z) : string :=
  ((if (z <? 0)%Z then "-" else "") ++ decimal (Z.to_N (Z.abs z)))%string.

Definition numeric (v : option Q) : js_value :=
  match v with
  | Some q => js_string (numeric_out q)
  | None => js_null
  end.

Definition row_of (r : compared) : company_row :=
  {| row_id := int8out (compared_id r);
     row_name := compared_name r;
     row_ticker_symbol := compared_ticker_symbol r;
     row_market_cap := numeric (compared_market_cap r);
     row_revenue := numeric (compared_revenue r);
     row_growth_rate := numeric (compared_growth_rate r);
     row_avg_sentiment := numeric (compared_avg_sentiment r) |}.
End Driver.

(* ====================================================================== *)
(** * Handlers *)
(* ====================================================================== *)

Inductive console_entry : Type :=
| console_log (args : list string)
| console_error (label : string) (e : js_error).

Record world : Type := {
  db : database;
  console : list console_entry
}.

(** A computation of a handler: it ends with a value or with a thrown
    error, and leaves a world either way. *)
Definition handler (A : Type) : Type := world -> (js_error + A) * world.

Definition ret {A : Type} (x : A) : handler A := fun w => (inr x, w).

Definition bind {A B : Type} (c : handler A) (k : A -> handler B) : handler B :=
  fun w =>
    match c w with
    | (inr x, w') => k x w'
    | (inl e, w') => (inl e, w')
    end.

Definition throw {A : Type} (e : js_error) : handler A := fun w => (inl e, w).

(** [try { c } catch (error) { h error }]. *)
Definition try_catch {A : Type} (c : handler A) (h : js_error -> handler A) : handler A :=
  fun w =>
    match c w with
    | (inr x, w') => (inr x, w')
    | (inl e, w') => h e w'
    end.

Definition print (entry : console_entry) : handler unit :=
  fun w => (inr tt, {| db := db w; console := console w ++ [entry] |}).

Declare Scope handler_scope.
Delimit Scope handler_scope with handler.
Notation "x <- c ;; k" := (bind c (fun x => k))
  (at level 61, c at next level, right associativity) : handler_scope.
Notation "c ;; k" := (bind c (fun _ => k))
  (at level 61, right associativity) : handler_scope.

(** [await pool.query(...)]: the statement runs on the database, unless
    the pool fails first ([fault], the error the driver then rejects
    with); the promise is rejected with the error of a statement that
    fails. *)
Definition pool_query {R : Type} (fault : option string) (stmt : statement R) : handler R :=
  fun w =>
    match fault with
    | Some e => (inl (DatabaseError e), w)
    | None =>
        match stmt (db w) with
        | (inl e, d) => (inl (DatabaseError e), {| db := d; console := console w |})
        | (inr r, d) => (inr r, {| db := d; console := console w |})
        end
    end.

(** What a handler sends back. *)
Inductive response_body : Type :=
| text (s : string)
| json_received (received : bool)
| json_error (error : string)
| json_analysis (row : option analysis_row)
| json_comparison (companies : list company_row) (insights : list string).

Record response : Type := {
  status_code : Z;
  body : response_body
}.

Definition acknowledged : response :=
  {| status_code := 200; body := json_received true |}.

Definition send (code : Z) (b : response_body) : handler response :=
  ret {| status_code := code; body := b |}.

(** A thrown error of a synchronous call, or its value. *)
Definition lift {A : Type} (r : js_error + A) : handler A :=
  match r with
  | inl e => throw e
  | inr x => ret x
  end.

(** A call of an async function whose promise is dropped: its effects
    take place, its outcome is not looked at. *)
Definition detach (c : handler unit) : handler unit :=
  fun w => (inr tt, snd (c w)).

(** ** The body parsers

    [app.use(express.json())] runs on every request, before the route;
    the webhook route then runs [express.raw({type: 'application/json'})]
    and its handler. *)

(** What [JSON.parse] returns in strict mode: an array or an object; the
    items and the values of the members are kept as their texts. *)
Inductive json : Type :=
| json_array (items : list string)
| json_object (members : list (string * string)).

(** What [req.body] holds: nothing yet, the bytes of the body in a
    Buffer, or a value. *)
Inductive body_value : Type :=
| unset
| buffer (bytes : string)
| parsed (value : json).

(** A request as it comes in: its headers, and the bytes of its body
    when it has one. *)
Record http_request : Type := {
  http_headers : list (string * string);
  http_body : option string
}.

(** The request a middleware passes on: [req.body], and [req._body],
    which a parser sets when it has read the body. *)
Record parsing : Type := {
  incoming : http_request;
  body_of : body_value;
  body_read : bool
}.

Inductive parser_outcome : Type :=
| next (r : parsing)
| failed (status : Z).

Section BodyParsers.
(** The tests and the reader the two parsers share: whether the request
    announces a body, whether its Content-Type is [application/json], and
    the bytes of the body, inflated and within the size limit, or the
    status of the error. *)
Variable has_body : http_request -> bool.
Variable is_json : http_request -> bool.
Variable read_body : http_request -> Z + string.
(** [JSON.parse] in strict mode: an object or an array. *)
Variable JSON_parse : string -> option json.

(** [req.body = req.body || {}]. *)
Definition or_empty (b : body_value) : body_value :=
  match b with
  | unset => parsed (json_object [])
  | _ => b
  end.

(** A parser of the body-parser family: it passes on a request that
    another parser has read, that has no body or that is of another
    type; otherwise it reads the body and stores what [parse] makes of
    it. *)
Definition body_parser (parse : string -> Z + body_value) (r : parsing)
  : parser_outcome :=
  if body_read r then next r
  else
    let r := {| incoming := incoming r; body_of := or_empty (body_of r);
                body_read := body_read r |} in
    if negb (has_body (incoming r)) then next r
    else if negb (is_json (incoming r)) then next r
    else
      match read_body (incoming r) with
      | inl status => failed status
      | inr bytes =>
          match parse bytes with
          | inl status => failed status
          | inr b => next {| incoming := incoming r; body_of := b; body_read := true |}
          end
      end.

Definition express_json : parsing -> parser_outcome :=
  body_parser (fun bytes =>
    if String.eqb bytes "" then inr (parsed (json_object []))
    else
      match JSON_parse bytes with
      | Some v => inr (parsed v)
      | None => inl 400%Z
      end).

Definition express_raw : parsing -> parser_outcome :=
  body_parser (fun bytes => inr (buffer bytes)).
End BodyParsers.

(** ** The Stripe webhook *)

(** A property of an object that may be missing: [undefined], [null] or
    its value. *)
Inductive optional (A : Type) : Type :=
| absent
| null
| present (x : A).
Arguments absent {A}.
Arguments null {A}.
Arguments present {A} x.

(** The object an event carries: a checkout session or a subscription.
    The driver sends a parameter that is [undefined] as NULL, like one
    that is [null]. *)
Record stripe_object : Type := {
  object_id : option string;
  customer : option string;
  subscription : option string;
  metadata : optional (list (string * string))
}.

Record event : Type := {
  event_type : string;
  data_object : stripe_object
}.

(** A request as the handler of the webhook route sees it: its headers
    and [req.body]. *)
Record request : Type := {
  headers : list (string * string);
  req_body : body_value
}.

Fixpoint property (k : string) (o : list (string * string)) : option string :=
  match o with
  | [] => None
  | (k', v) :: o' => if String.eqb k' k then Some v else property k o'
  end.

Definition handleSuccessfulPayment (fault : option string) (now : Z)
  (session : stripe_object) : handler unit :=
  try_catch
    (m <- match metadata session with
          | present m => ret m
          | null =>
              throw (TypeError "Cannot read properties of null (reading 'planId')")
          | absent =>
              throw (TypeError "Cannot read properties of undefined (reading 'planId')")
          end ;;
     pool_query fault
       (upsert_user now (customer session) (subscription session)
                    (property "planId" m) (Some "active"%string)) ;;
     print (console_log ["User subscription saved successfully"%string]))%handler
    (fun error => print (console_error "Error saving user subscription:" error)).

Definition handleSubscriptionCancellation (fault : option string)
  (subscription : stripe_object) : handler unit :=
  try_catch
    (pool_query fault
       (cancel_subscription (Some "cancelled"%string) (object_id subscription)) ;;
     print (console_log ["Subscription cancellation handled"%string]))%handler
    (fun error => print (console_error "Error handling subscription cancellation:" error)).

Section Webhook.
(** [stripe.webhooks.constructEvent(payload, header, secret)].  On the
    bytes of the body, [verify] is the verdict of Stripe's verifier: the
    event when the signature in the header is that of the bytes under the
    secret, the message of the error otherwise.  The verifier signs the
    text of its payload and parses it as JSON; the text of a payload that
    is neither a string nor a Buffer is "[object Object]", which is no
    JSON, so that such a payload is rejected whatever the header:
    [rejection] is the message of that error. *)
Variable verify : string -> option string -> option string -> string + event.
Variable rejection : body_value -> option string -> option string -> string.
Variable STRIPE_WEBHOOK_SECRET : option string.

Definition constructEvent (payload : body_value) (header secret : option string)
  : string + event :=
  match payload with
  | buffer bytes => verify bytes header secret
  | _ => inl (rejection payload header secret)
  end.

Definition stripe_webhook (fault : option string) (now : Z) (req : request)
  : handler response :=
  let sig := property "stripe-signature" (headers req) in
  match constructEvent (req_body req) sig STRIPE_WEBHOOK_SECRET with
  | inl message =>
      (print (console_log ["Webhook signature verification failed."%string; message]) ;;
       send 400 (text ("Webhook Error: " ++ message)))%handler
  | inr event =>
      ((if String.eqb (event_type event) "checkout.session.completed" then
          detach (handleSuccessfulPayment fault now (data_object event))
        else if String.eqb (event_type event) "customer.subscription.deleted" then
          detach (handleSubscriptionCancellation fault (data_object event))
        else
          print (console_log [("Unhandled event type " ++ event_type event)%string])) ;;
       send 200 (json_received true))%handler
  end.

(** The route: the two parsers, then the handler.  When a parser fails,
    the error handler of Express answers with the status of the error
    and a page that names it, and the handler does not run. *)
Variable has_body : http_request -> bool.
Variable is_json : http_request -> bool.
Variable read_body : http_request -> Z + string.
Variable JSON_parse : string -> option json.
Variable error_page : Z -> string.

Definition webhook_route (fault : option string) (now : Z) (r : http_request)
  : handler response :=
  match express_json has_body is_json read_body JSON_parse
          {| incoming := r; body_of := unset; body_read := false |} with
  | failed status => send status (text (error_page status))
  | next r1 =>
      match express_raw has_body is_json read_body r1 with
      | failed status => send status (text (error_page status))
      | next r2 =>
          stripe_webhook fault now
            {| headers := http_headers r; req_body := body_of r2 |}
      end
  end.
End Webhook.

(** ** Industry analysis *)

Definition industry_analysis (fault : option string) (code : string) : handler response :=
  try_catch
    (result <- pool_query fault (industryQuery code) ;;
     send 200 (json_analysis (nth_error result 0)))%handler
    (fun error =>
       (print (console_error "Error fetching industry analysis:" error) ;;
        send 500 (json_error "Failed to fetch industry analysis"))%handler).

(** ** Comparison *)

Record compare_request : Type := {
  companyIds : option (list Z);
  metrics : option (list string)
}.

Section Compare.
Variable numeric_out : Q -> string.
Variable StringToNumber : string -> number.
Variable NumberToString : number -> string.

Definition compare (fault : option string) (now : Z) (req : compare_request)
  : handler response :=
  try_catch
    (match companyIds req with
     | None => send 400 (json_error "At least 2 companies required for comparison")
     | Some ids =>
         if (List.length ids <? 2)%nat then
           send 400 (json_error "At least 2 companies required for comparison")
         else
           (result <- pool_query fault (compareQuery now ids) ;;
            let rows := map (row_of numeric_out) result in
            insights <- lift (generateComparisonInsights StringToNumber NumberToString
                                                         rows) ;;
            send 200 (json_comparison rows insights))%handler
     end)
    (fun error =>
       (print (console_error "Error comparing companies:" error) ;;
        send 500 (json_error "Failed to compare companies"))%handler).
End Compare.

(* ====================================================================== *)
(** * Notions the properties are stated with *)
(* ====================================================================== *)

(** ** Insights *)

Definition cap (StringToNumber : string -> number) (c : company_row) : number :=
  ToNumber StringToNumber (row_market_cap c).

Definition growth (StringToNumber : string -> number) (c : company_row) : number :=
  ToNumber StringToNumber (row_growth_rate c).

(** The comparator of a descending sort on [key]. *)
Definition descending {A : Type} (key : A -> Q) (a b : A) : Q := key b - key a.

(** The keys of the rows of [l] are finite numbers. *)
Definition finite_keys {A : Type} (key : A -> number) (l : list A) : Prop :=
  forall x, In x l -> is_finite (key x) = true.

(** [c] is the first of the rows of [l] that no row exceeds on [key]:
    the rows before it are below it. *)
Definition first_highest {A : Type} (key : A -> Q) (c : A) (l : list A) : Prop :=
  exists before after,
    l = before ++ c :: after /\
    (forall x, In x before -> key x < key c) /\
    (forall x, In x after -> key x <= key c).

(** [l] has one row that is ahead of every other on [key]. *)
Definition sole_top {A : Type} (key : A -> Q) (l : list A) : Prop :=
  exists m, In m l /\ forall x, In x l -> x = m \/ key x < key m.

(** [n] tenths, written with one decimal place. *)
Definition tenths_text (negative : bool) (n : N) : string :=
  ((if negative then "-" else "") ++ decimal (n / 10) ++ "." ++ digit (n mod 10))%string.

(** [s] is [x] to one decimal place: the tenth nearest to [x], with the
    sign of [x]. *)
Definition one_decimal_place (x : Q) (s : string) : Prop :=
  exists n : N,
    s = tenths_text (negb (Qle_bool 0 x)) n /\
    Qabs (inject_Z (Z.of_N n) / 10 - Qabs x) <= 1 # 20.

(** A number that [toFixed] writes in digits: finite and below 10^21. *)
Definition plain (x : number) : Prop :=
  is_finite x = true /\ Qabs (exact x) < inject_Z (10 ^ 21).

(** The score of a row that the reduction adds: the sentiment when it is
    a number other than zero and NaN, zero when it is one of these or
    [null]; a sentiment that is a string has none. *)
Definition score (c : company_row) : option number :=
  match row_avg_sentiment c with
  | js_null => Some zero
  | js_number x => Some (if ToBoolean (js_number x) then x else zero)
  | js_string _ => None
  end.

(** The sum the reduction computes: from the left, each addition
    rounded. *)
Fixpoint running_sum (acc : number) (scores : list number) : number :=
  match scores with
  | [] => acc
  | s :: rest => running_sum (num_add acc s) rest
  end.

Definition computed_mean (scores : list number) : number :=
  num_div (running_sum zero scores) (of_Z (Z.of_nat (List.length scores))).

(** The mean of the scores, as a rational. *)
Definition mean_of (scores : list number) : Q :=
  fold_right Qplus 0 (map exact scores) / inject_Z (Z.of_nat (List.length scores)).

(** ** Comparison rows *)

Definition selected (companyIds : list Z) (d : database) : list company :=
  filter (fun c => existsb (Z.eqb (company_id c)) companyIds) (companies d).

(** The values, not NULL, of the metrics of type [t] of company [c]. *)
Definition metric_values (t : string) (c : company) (d : database) : list Q :=
  non_null (map metric_value
    (filter (fun fm => sql_eq Z.eqb (Some (company_id c)) (metric_company_id fm)
                       && sql_eq String.eqb (metric_type fm) (Some t))
            (financial_metrics d))).

(** The scores, not NULL, of the news of company [c] published within
    the thirty days before [now]. *)
Definition recent_scores (now : Z) (c : company) (d : database) : list Q :=
  non_null (map sentiment_score
    (filter (fun ns => sql_eq Z.eqb (Some (company_id c)) (news_company_id ns)
                       && recent now ns)
            (news_sentiment d))).

Definition summary (now : Z) (d : database) (c : company) : compared :=
  {| compared_id := company_id c; compared_name := name c;
     compared_ticker_symbol := ticker_symbol c; compared_market_cap := market_cap c;
     compared_revenue := average (metric_values "revenue" c d);
     compared_growth_rate := average (metric_values "revenue_growth" c d);
     compared_avg_sentiment := average (recent_scores now c d) |}.

(** The joined rows of one company: each of its metrics with each of its
    recent news. *)
Definition metrics_of (d : database) (c : company) : list (option financial_metric) :=
  matches (fun c fm => sql_eq Z.eqb (Some (company_id c)) (metric_company_id fm))
          c (financial_metrics d).

Definition news_of (now : Z) (d : database) (c : company) : list (option news_sentiment_row) :=
  matches (fun c ns => sql_eq Z.eqb (Some (company_id c)) (news_company_id ns)
                       && recent now ns)
          c (news_sentiment d).

Definition fan_out (now : Z) (d : database) (c : company) : list joined :=
  flat_map (fun f => map (fun n => (c, f, n)) (news_of now d c)) (metrics_of d c).

(** Two sources of rows whose keys do not group together. *)
Definition apart {C K : Type} (key_eqb : K -> K -> bool) (key_of : C -> K) (c c' : C)
  : Prop :=
  key_eqb (key_of c) (key_of c') = false /\ key_eqb (key_of c') (key_of c) = false.

(** ** Users *)

Definition rows_of_customer (c : string) (us : list user) : list user :=
  filter (has_customer c) us.

(** The constraints of the table [users] that the upsert relies on: ids
    are below the sequence, and no two rows share a customer id. *)
Definition users_consistent (d : database) : Prop :=
  (forall u, In u (users d) -> (user_id u < users_id_seq d)%Z) /\
  (forall c, (List.length (rows_of_customer c (users d)) <= 1)%nat).

(** A value of at most [width] characters. *)
Definition fits (width : nat) (v : option string) : Prop :=
  match v with
  | Some s => (characters s <= width)%nat
  | None => True
  end.

(** The values of a session fit the columns they go to. *)
Definition fits_columns (session : stripe_object) : Prop :=
  fits 255 (customer session) /\
  fits 255 (subscription session) /\
  match metadata session with
  | present m => fits 50 (property "planId" m)
  | _ => True
  end.

(** ** Sample data *)

Definition sample_row (n : string) (mc g s : js_value) : company_row :=
  {| row_id := "0"; row_name := n; row_ticker_symbol := None; row_market_cap := mc;
     row_revenue := js_null; row_growth_rate := g; row_avg_sentiment := s |}.

(** The number of an integer, and of a literal with two decimals. *)
Definition integer (z : Z) : js_value := js_number (of_Z z).
Definition hundredths (z : Z) : js_value := js_number (decimal_literal z 2).

Definition sample_company (i : Z) (n : string) (naics : option string) (mc : option Q)
  : company :=
  {| company_id := i; name := n; ticker_symbol := None; industry_code := None;
     naics_code := naics; sic_code := None; market_cap := mc;
     headquarters_country := None; founded_date := None; employee_count := None;
     website := None; description := None; company_created_at := None;
     company_updated_at := None |}.

Definition sample_metric (i c : Z) (t : string) (v : Q) : financial_metric :=
  {| metric_id := i; metric_company_id := Some c; metric_type := Some t;
     metric_value := Some v; metric_unit := None; period_type := None;
     period_date := None; data_source := None; metric_created_at := None |}.

Definition sample_news (c : Z) (s : Q) (t : Z) : news_sentiment_row :=
  {| news_company_id := Some c; sentiment_score := Some s; published_date := Some t |}.

Definition empty_database : database :=
  {| users := []; users_id_seq := 1; companies := []; financial_metrics := [];
     news_sentiment := []; industries := [] |}.

(** One industry with one company that has two growth metrics. *)
Definition software_database : database :=
  {| users := []; users_id_seq := 1;
     companies := [sample_company 1 "Alpha" (Some "5112"%string) (Some 5000000000)];
     financial_metrics :=
       [sample_metric 1 1 "revenue_growth" 10; sample_metric 2 1 "revenue_growth" 20];
     news_sentiment := [];
     industries := [{| industry_naics_code := Some "5112"%string;
                       industry_title := Some "Software"%string |}] |}.

(** Two companies with metrics and news. *)
Definition market_database : database :=
  {| users := []; users_id_seq := 1;
     companies := [sample_company 1 "Alpha" None (Some 5000000000);
                   sample_company 2 "Beta" None (Some 2000000000)];
     financial_metrics :=
       [sample_metric 1 1 "revenue_growth" 10; sample_metric 2 1 "revenue_growth" 20;
        sample_metric 3 1 "revenue" 100; sample_metric 4 2 "revenue" 50];
     news_sentiment := [sample_news 1 0.8 100; sample_news 1 0.4 90;
                        sample_news 1 0.1 (-2592000)];
     industries := [] |}.

Definition sample_session (c s p : string) : stripe_object :=
  {| object_id := None; customer := Some c; subscription := Some s;
     metadata := present [("planId"%string, p)] |}.

(** The texts of numbers for the examples: the digits of an integer
    below 10^21, and the names of NaN and of the infinities; the examples
    need the text of no other number. *)
Definition plain_digits (x : number) : string :=
  match x with
  | S754_nan => "NaN"
  | S754_infinity s => if s then "-Infinity" else "Infinity"
  | S754_zero _ => "0"
  | S754_finite s _ _ =>
      let q := Qred (Qabs (exact x)) in
      if Pos.eqb (Qden q) 1 && negb (Qle_bool (inject_Z (10 ^ 21)) q)
      then ((if s then "-" else "") ++ decimal (Z.to_N (Qnum q)))%string
      else "1e+21"
  end.

(** A text of a NUMERIC value for the examples: its integer part and two
    decimals. *)
Definition two_decimals (q : Q) : string :=
  let n := Qfloor (Qabs q * 100) in
  ((if Qle_bool 0 q then "" else "-") ++ decimal (Z.to_N (n / 100)) ++ "."
   ++ digit (Z.to_N ((n / 10) mod 10)) ++ digit (Z.to_N (n mod 10)))%string.

(* ====================================================================== *)
(** * Notions for the remaining properties *)
(* ====================================================================== *)

(** ** Users *)

(** The tables a webhook has no statement for. *)
Definition catalogue_data (d : database)
  : list company * list financial_metric * list news_sentiment_row * list industry :=
  (companies d, financial_metrics d, news_sentiment d, industries d).

(** [u'] is [u] after a cancellation of subscription [sid]: the status is
    'cancelled' if the row is of that subscription, and nothing else
    differs. *)
Definition cancelled_from (sid : string) (u u' : user) : Prop :=
  user_id u' = user_id u /\
  email u' = email u /\
  stripe_customer_id u' = stripe_customer_id u /\
  subscription_id u' = subscription_id u /\
  plan_id u' = plan_id u /\
  user_created_at u' = user_created_at u /\
  user_updated_at u' = user_updated_at u /\
  status u' = (if sql_eq String.eqb (subscription_id u) (Some sid)
               then Some "cancelled"%string else status u).

Definition checkout_completed (session : stripe_object) : event :=
  {| event_type := "checkout.session.completed"; data_object := session |}.

(** The subscription object of a deletion. *)
Definition deleted_subscription (sid : option string) : stripe_object :=
  {| object_id := sid; customer := None; subscription := None; metadata := absent |}.

(** A verifier for the examples: the signature of a body is the body
    itself after "v1=", and the event of a body that is signed is read
    off a table. *)
Definition example_verify (table : list (string * event))
  (bytes : string) (header secret : option string) : string + event :=
  let fix find (l : list (string * event)) : string + event :=
    match l with
    | [] => inl "Unexpected token"%string
    | (k, e) :: l' => if String.eqb k bytes then inr e else find l'
    end in
  match header with
  | Some h =>
      if String.eqb h ("v1=" ++ bytes) then find table
      else inl "No signatures found matching the expected signature for payload"%string
  | None => inl "No stripe-signature header value was provided."%string
  end.

Definition example_rejection (payload : body_value) (header secret : option string)
  : string :=
  "Webhook payload must be provided as a string or a Buffer".

(** Body parsers for the examples: a request with a body announces it,
    its type is that of its Content-Type header, the body is read as it
    is, and a text in braces is parsed to an object whose members are not
    read. *)
Definition example_has_body (r : http_request) : bool :=
  match http_body r with Some _ => true | None => false end.

Definition example_is_json (r : http_request) : bool :=
  match property "content-type" (http_headers r) with
  | Some t => String.eqb t "application/json"
  | None => false
  end.

Definition example_read_body (r : http_request) : Z + string :=
  match http_body r with
  | Some bytes => inr bytes
  | None => inl 400%Z
  end.

Definition example_JSON_parse (bytes : string) : option json :=
  match bytes with
  | String "{" _ => Some (json_object [])
  | _ => None
  end.

Definition example_error_page (status : Z) : string := "Bad Request".

Definition sample_user (i : Z) (c s : string) (st : string) : user :=
  {| user_id := i; email := None; stripe_customer_id := Some c;
     subscription_id := Some s; plan_id := Some "basic"%string; status := Some st;
     user_created_at := Some 0%Z; user_updated_at := Some 0%Z |}.

Definition subscribers_database : database :=
  {| users := [sample_user 1 "cus_1" "sub_1" "active";
               sample_user 2 "cus_2" "sub_2" "active"];
     users_id_seq := 3; companies := []; financial_metrics := [];
     news_sentiment := []; industries := [] |}.

(** The rows of the customers other than [c]. *)
Definition rows_of_others (c : string) (us : list user) : list user :=
  filter (fun u => negb (has_customer c u)) us.

(** ** Industry analysis *)

(** The companies of the industry with NAICS code [code], and the
    'revenue_growth' metrics of a company. *)
Definition industry_companies (code : string) (d : database) : list company :=
  filter (fun c => sql_eq String.eqb (Some code) (naics_code c)) (companies d).

Definition growth_metrics (d : database) (c : company) : list financial_metric :=
  filter (fun fm => sql_eq Z.eqb (Some (company_id c)) (metric_company_id fm)
                    && sql_eq String.eqb (metric_type fm) (Some "revenue_growth"%string))
         (financial_metrics d).

(** The joined rows of one company in the analysis: one per growth
    metric, and one when it has none. *)
Definition analysis_fan_out (d : database) (c : company) : nat :=
  Nat.max 1 (List.length (growth_metrics d c)).

(** The rows of [industries] with the code. *)
Definition industries_with (code : string) (d : database) : list industry :=
  filter (fun i => sql_eq String.eqb (industry_naics_code i) (Some code)) (industries d).

(** The joined rows of one industry. *)
Definition industry_fan_out (d : database) (i : industry)
  : list (industry * option company * option financial_metric) :=
  flat_map
    (fun oc : option company =>
       map (pair (i, oc))
           (matches (fun (ic : industry * option company) fm =>
                       sql_eq Z.eqb (opt (fun c => Some (company_id c)) (snd ic))
                              (metric_company_id fm)
                       && sql_eq String.eqb (metric_type fm) (Some "revenue_growth"%string))
                    (i, oc) (financial_metrics d)))
    (matches (fun i c => sql_eq String.eqb (industry_naics_code i) (naics_code c))
             i (companies d)).

(* ====================================================================== *)
(** * The remaining endpoints *)
(* ====================================================================== *)

(** Modelled from the spec: the table [market_data], which the company
    detail reads and [createTables] does not declare; a row belongs to one
    company and is dated, and the rows are read from the latest date. *)
Record market_data_row : Type := {
  market_company_id : option Z;
  measurement_date : option Z
}.

(** A row of the full-text search: five columns of the company and its
    rank. *)
Record search_row : Type := {
  found_id : Z;
  found_name : string;
  found_ticker_symbol : option string;
  found_industry_code : option string;
  found_market_cap : option Q;
  relevance : Q
}.

(** What the endpoints below send back. *)
Inductive answer_body : Type :=
| json_rows (rows : list company)
| json_detail (company : company) (financialMetrics : list financial_metric)
              (marketData : list market_data_row)
| json_found (rows : list search_row)
| json_session (sessionId : string)
| json_failure (error : string).

Record answer : Type := {
  answer_status : Z;
  answer_body_of : answer_body
}.

Definition reply (code : Z) (b : answer_body) : handler answer :=
  ret {| answer_status := code; answer_body_of := b |}.

(** ** More SQL operators *)

(** A parameter of a query: a JavaScript string or number; the driver
    sends both as text. *)
Inductive param : Type :=
| text_param (s : string)
| number_param (z : Z).

(** The comparator of [ORDER BY key DESC]: NULLs come first. *)
Definition desc_nulls_first {A : Type} (key : A -> option Q) (a b : A) : Q :=
  match key a, key b with
  | None, None => 0
  | None, Some _ => -1
  | Some _, None => 1
  | Some x, Some y => y - x
  end.

(** [a] may stand before [b] in [ORDER BY key DESC]. *)
Definition before_desc {A : Type} (key : A -> option Q) (a b : A) : Prop :=
  match key a, key b with
  | None, _ => True
  | Some _, None => False
  | Some x, Some y => y <= x
  end.

(** [LIMIT n OFFSET k] on the ordered rows. *)
Definition limit_offset {A : Type} (n k : Z) (rows : list A) : list A :=
  firstn (Z.to_nat n) (skipn (Z.to_nat k) rows).

(** *** LIKE patterns

    [%] stands for any string, [_] for any character, and a backslash
    makes the next character stand for itself; a pattern must not end
    with a lone backslash. *)
Inductive like_token : Type :=
| any_string
| any_char
| literal (c : ascii).

Fixpoint like_tokens (p : list ascii) : option (list like_token) :=
  match p with
  | [] => Some []
  | c :: p' =>
      if Ascii.eqb c "\" then
        match p' with
        | [] => None
        | c' :: p'' => option_map (cons (literal c')) (like_tokens p'')
        end
      else if Ascii.eqb c "%" then option_map (cons any_string) (like_tokens p')
      else if Ascii.eqb c "_" then option_map (cons any_char) (like_tokens p')
      else option_map (cons (literal c)) (like_tokens p')
  end.

Fixpoint like_match (ts : list like_token) : list ascii -> bool :=
  match ts with
  | [] => fun s => match s with [] => true | _ => false end
  | any_string :: ts' =>
      fix rest (s : list ascii) : bool :=
        like_match ts' s || match s with [] => false | _ :: s' => rest s' end
  | any_char :: ts' =>
      fun s => match s with [] => false | _ :: s' => like_match ts' s' end
  | literal c :: ts' =>
      fun s => match s with [] => false | x :: s' => Ascii.eqb x c && like_match ts' s' end
  end.

(** Lower case, for the letters of ASCII. *)
Definition to_lower (c : ascii) : ascii :=
  let n := N_of_ascii c in
  if (65 <=? n)%N && (n <=? 90)%N then ascii_of_N (n + 32) else c.

Definition lower (s : string) : list ascii := map to_lower (list_ascii_of_string s).

(** ** The list of companies *)

Record companies_request : Type := {
  q_industry : option string;
  q_search : option string;
  q_limit : option string;
  q_offset : option string
}.

(** [if (v)] on a query parameter: present and not the empty string. *)
Definition given (v : option string) : option string :=
  match v with
  | Some s => if String.eqb s "" then None else Some s
  | None => None
  end.

Definition placeholder (params : list param) (k : nat) : string :=
  decimal (N.of_nat (List.length params + k)).

(** The text and the parameters the handler builds. *)
Definition companies_query (req : companies_request) : string * list param :=
  let limit := match q_limit req with Some s => text_param s | None => number_param 50 end in
  let offset := match q_offset req with Some s => text_param s | None => number_param 0 end in
  let query := "SELECT * FROM companies WHERE 1=1"%string in
  let params := [] in
  let '(query, params) :=
    match given (q_industry req) with
    | Some industry =>
        ((query ++ " AND industry_code = $" ++ placeholder params 1)%string,
         params ++ [text_param industry])
    | None => (query, params)
    end in
  let '(query, params) :=
    match given (q_search req) with
    | Some search =>
        ((query ++ " AND (name ILIKE $" ++ placeholder params 1
                ++ " OR ticker_symbol ILIKE $" ++ placeholder params 2 ++ ")")%string,
         params ++ [text_param ("%" ++ search ++ "%"); text_param ("%" ++ search ++ "%")])
    | None => (query, params)
    end in
  ((query ++ " ORDER BY market_cap DESC LIMIT $" ++ placeholder params 1
          ++ " OFFSET $" ++ placeholder params 2)%string,
   params ++ [limit; offset]).

Section Companies.
(** The conversion of a text to [bigint] by the database; none when the
    text is not a number. *)
Variable int8in : string -> option Z.

Definition to_bigint (p : option param) : string + Z :=
  match p with
  | Some (number_param z) => inr z
  | Some (text_param s) =>
      match int8in s with
      | Some z => inr z
      | None => inl "invalid input syntax for type bigint"%string
      end
  | None => inl "there is no parameter"%string
  end.

Definition to_text (p : option param) : string + string :=
  match p with
  | Some (text_param s) => inr s
  | Some (number_param z) =>
      inr ((if (z <? 0)%Z then "-" else "") ++ decimal (Z.to_N (Z.abs z)))%string
  | None => inl "there is no parameter"%string
  end.

(** [SELECT * FROM companies WHERE 1=1 [AND industry_code = i] [AND (name
    ILIKE p1 OR ticker_symbol ILIKE p2)] ORDER BY market_cap DESC LIMIT l
    OFFSET o], on the values of its parameters. *)
Definition select_companies (industry : option string) (patterns : option (string * string))
  (limit offset : Z) (d : database) : string + list company :=
  if (limit <? 0)%Z then inl "LIMIT must not be negative"%string
  else if (offset <? 0)%Z then inl "OFFSET must not be negative"%string
  else
    let by_industry :=
      match industry with
      | Some i => filter (fun c => sql_eq String.eqb (industry_code c) (Some i)) (companies d)
      | None => companies d
      end in
    let searched :=
      match patterns with
      | None => inr by_industry
      | Some (p1, p2) =>
          match like_tokens (lower p1), like_tokens (lower p2) with
          | Some t1, Some t2 =>
              inr (filter (fun c =>
                             like_match t1 (lower (name c))
                             || match ticker_symbol c with
                                | Some t => like_match t2 (lower t)
                                | None => false
                                end)
                          by_industry)
          | _, _ => inl "LIKE pattern must not end with escape character"%string
          end
      end in
    match searched with
    | inl e => inl e
    | inr rows => inr (limit_offset limit offset (sort (desc_nulls_first market_cap) rows))
    end.

Definition text_00 : string :=
  "SELECT * FROM companies WHERE 1=1 ORDER BY market_cap DESC LIMIT $1 OFFSET $2".
Definition text_10 : string :=
  "SELECT * FROM companies WHERE 1=1 AND industry_code = $1 ORDER BY market_cap DESC LIMIT $2 OFFSET $3".
Definition text_01 : string :=
  "SELECT * FROM companies WHERE 1=1 AND (name ILIKE $1 OR ticker_symbol ILIKE $2) ORDER BY market_cap DESC LIMIT $3 OFFSET $4".
Definition text_11 : string :=
  "SELECT * FROM companies WHERE 1=1 AND industry_code = $1 AND (name ILIKE $2 OR ticker_symbol ILIKE $3) ORDER BY market_cap DESC LIMIT $4 OFFSET $5".

Definition both {A B : Type} (a : string + A) (b : string + B) : string + (A * B) :=
  match a, b with
  | inr x, inr y => inr (x, y)
  | inl e, _ => inl e
  | _, inl e => inl e
  end.

(** The statement a text of the handler stands for, its placeholders
    read from the parameters by position. *)
Definition companies_statement (query : string) (params : list param)
  : statement (list company) :=
  fun d =>
    let p k := nth_error params (k - 1) in
    let run (n : nat) (industry : string + option string)
            (patterns : string + option (string * string))
            (limit offset : string + Z) : string + list company :=
      if negb (List.length params =? n)%nat then
        inl "bind message supplies the wrong number of parameters"%string
      else
        match both (both industry patterns) (both limit offset) with
        | inl e => inl e
        | inr ((i, ps), (l, o)) => select_companies i ps l o d
        end in
    let some {A : Type} (r : string + A) : string + option A :=
      match r with inl e => inl e | inr x => inr (Some x) end in
    let rows :=
      if String.eqb query text_00 then
        run 2%nat (inr None) (inr None) (to_bigint (p 1%nat)) (to_bigint (p 2%nat))
      else if String.eqb query text_10 then
        run 3%nat (some (to_text (p 1%nat))) (inr None)
            (to_bigint (p 2%nat)) (to_bigint (p 3%nat))
      else if String.eqb query text_01 then
        run 4%nat (inr None) (some (both (to_text (p 1%nat)) (to_text (p 2%nat))))
            (to_bigint (p 3%nat)) (to_bigint (p 4%nat))
      else if String.eqb query text_11 then
        run 5%nat (some (to_text (p 1%nat)))
            (some (both (to_text (p 2%nat)) (to_text (p 3%nat))))
            (to_bigint (p 4%nat)) (to_bigint (p 5%nat))
      else inl "syntax error"%string in
    (rows, d).

Definition list_companies (fault : option string) (req : companies_request)
  : handler answer :=
  try_catch
    (let '(query, params) := companies_query req in
     result <- pool_query fault (companies_statement query params) ;;
     reply 200 (json_rows result))%handler
    (fun error =>
       (print (console_error "Error fetching companies:" error) ;;
        reply 500 (json_failure "Failed to fetch companies"))%handler).
End Companies.

(** A reader of decimal numbers, for the examples. *)
Definition digit_value (c : ascii) : option Z :=
  let n := N_of_ascii c in
  if (48 <=? n)%N && (n <=? 57)%N then Some (Z.of_N (n - 48)) else None.

Fixpoint read_digits (acc : Z) (s : list ascii) : option Z :=
  match s with
  | [] => Some acc
  | c :: s' =>
      match digit_value c with
      | Some v => read_digits (10 * acc + v) s'
      | None => None
      end
  end.

Definition read_number (s : string) : option Z :=
  match list_ascii_of_string s with
  | [] => None
  | "-"%char :: s' => match s' with [] => None | _ => option_map Z.opp (read_digits 0 s') end
  | s' => read_digits 0 s'
  end.

(** A reader of numerals for the examples: a minus sign or none, digits,
    and digits after a point or none.  For a numeral of at most fifteen
    digits the integer of its digits and the power of ten are numbers,
    and their quotient is the number of the numeral.  Another text is
    read as NaN. *)
Fixpoint before_point (s : list ascii) : list ascii * option (list ascii) :=
  match s with
  | [] => ([], None)
  | c :: s' =>
      if Ascii.eqb c "." then ([], Some s')
      else let '(whole, fraction) := before_point s' in (c :: whole, fraction)
  end.

Definition read_numeral (s : string) : number :=
  let cs := list_ascii_of_string s in
  let '(negative, cs) :=
    match cs with
    | "-"%char :: rest => (true, rest)
    | _ => (false, cs)
    end in
  let '(whole, fraction) := before_point cs in
  let fraction := match fraction with Some f => f | None => [] end in
  match whole with
  | [] => S754_nan
  | _ =>
      match read_digits 0 (whole ++ fraction) with
      | Some n =>
          let x := decimal_literal n (Z.of_nat (List.length fraction)) in
          if negative then SFopp x else x
      | None => S754_nan
      end
  end.

Definition listed_database : database :=
  {| users := []; users_id_seq := 1;
     companies :=
       [{| company_id := 1; name := "Acme Corp"; ticker_symbol := Some "ACM"%string;
           industry_code := Some "TECH"%string; naics_code := None; sic_code := None;
           market_cap := Some 2000000000; headquarters_country := None;
           founded_date := None; employee_count := None; website := None;
           description := Some "Makes everything"%string;
           company_created_at := None; company_updated_at := None |};
        {| company_id := 2; name := "Globex"; ticker_symbol := None;
           industry_code := Some "TECH"%string; naics_code := None; sic_code := None;
           market_cap := Some 5000000000; headquarters_country := None;
           founded_date := None; employee_count := None; website := None;
           description := None;
           company_created_at := None; company_updated_at := None |};
        {| company_id := 3; name := "Initech"; ticker_symbol := Some "INI"%string;
           industry_code := Some "FIN"%string; naics_code := None; sic_code := None;
           market_cap := None; headquarters_country := None;
           founded_date := None; employee_count := None; website := None;
           description := Some "Software for banks"%string;
           company_created_at := None; company_updated_at := None |}];
     financial_metrics := [sample_metric 1 1 "revenue" 100; sample_metric 2 1 "revenue" 120];
     news_sentiment := []; industries := [] |}.

(** ** Notions for the list of companies *)

(** The texts the handler can build, by the filters given. *)
Definition companies_text (industry search : option string) : string :=
  match industry, search with
  | None, None => text_00
  | Some _, None => text_10
  | None, Some _ => text_01
  | Some _, Some _ => text_11
  end.

Definition limit_param (req : companies_request) : param :=
  match q_limit req with Some s => text_param s | None => number_param 50 end.

Definition offset_param (req : companies_request) : param :=
  match q_offset req with Some s => text_param s | None => number_param 0 end.

(** The tokens of the pattern [%search%]. *)
Definition search_tokens (search : string) : option (list like_token) :=
  like_tokens (lower ("%" ++ search ++ "%")).

(** The condition of the WHERE clause on a company. *)
Definition company_matches (industry search : option string) (c : company) : bool :=
  match industry with
  | Some i => sql_eq String.eqb (industry_code c) (Some i)
  | None => true
  end
  && match search with
     | Some s =>
         match search_tokens s with
         | Some ts =>
             like_match ts (lower (name c))
             || match ticker_symbol c with
                | Some t => like_match ts (lower t)
                | None => false
                end
         | None => false
         end
     | None => true
     end.

(** [s] occurs in [t]. *)
Definition occurs_in (s t : list ascii) : Prop :=
  exists before after, t = before ++ s ++ after.

(** A character that stands for itself in a LIKE pattern. *)
Definition plain_char (c : ascii) : Prop :=
  c <> "%"%char /\ c <> "_"%char /\ c <> "\"%char.

(** The value a limit or offset parameter is read as. *)
Definition read_as (int8in : string -> option Z) (p : param) (z : Z) : Prop :=
  to_bigint int8in (Some p) = inr z.

(** ** The detail of a company *)

Definition date_key {A : Type} (date : A -> option Z) (r : A) : option Q :=
  option_map inject_Z (date r).

Section Detail.
Variable int8in : string -> option Z.

(** [SELECT * FROM companies WHERE id = $1]. *)
Definition companyQuery (id : string) : statement (list company) :=
  fun d =>
    (match to_bigint int8in (Some (text_param id)) with
     | inl e => inl e
     | inr z => inr (filter (fun c => (company_id c =? z)%Z) (companies d))
     end, d).

(** [SELECT * FROM financial_metrics WHERE company_id = $1 ORDER BY
    period_date DESC LIMIT 20]. *)
Definition metricsQuery (id : string) : statement (list financial_metric) :=
  fun d =>
    (match to_bigint int8in (Some (text_param id)) with
     | inl e => inl e
     | inr z =>
         inr (limit_offset 20 0
                (sort (desc_nulls_first (date_key period_date))
                      (filter (fun fm => sql_eq Z.eqb (metric_company_id fm) (Some z))
                              (financial_metrics d))))
     end, d).

(** [SELECT * FROM market_data WHERE company_id = $1 ORDER BY
    measurement_date DESC LIMIT 20], on the rows of that table. *)
Definition marketQuery (market_data : list market_data_row) (id : string)
  : statement (list market_data_row) :=
  fun d =>
    (match to_bigint int8in (Some (text_param id)) with
     | inl e => inl e
     | inr z =>
         inr (limit_offset 20 0
                (sort (desc_nulls_first (date_key measurement_date))
                      (filter (fun md => sql_eq Z.eqb (market_company_id md) (Some z))
                              market_data)))
     end, d).

(** [GET /api/companies/:id].  The three queries are sent together, each
    with its own fate in the pool; [Promise.all] rejects when one of them
    does (here with the error of the first in the array). *)
Definition company_detail (faults : option string * option string * option string)
  (market_data : list market_data_row) (id : string) : handler answer :=
  let '(fault1, fault2, fault3) := faults in
  try_catch
    (company <- pool_query fault1 (companyQuery id) ;;
     metrics <- pool_query fault2 (metricsQuery id) ;;
     market <- pool_query fault3 (marketQuery market_data id) ;;
     match nth_error company 0 with
     | None => reply 404 (json_failure "Company not found")
     | Some c => reply 200 (json_detail c metrics market)
     end)%handler
    (fun error =>
       (print (console_error "Error fetching company details:" error) ;;
        reply 500 (json_failure "Failed to fetch company details"))%handler).
End Detail.

(** ** The full-text search *)

Record search_request : Type := {
  search_query : option string;
  search_filters : option (list (string * string))
}.

Section Search.
(** The text search of the database: documents, queries, the match of a
    document with a query and its rank. *)
Variables tsvector tsquery : Type.
Variable to_tsvector : string -> tsvector.
Variable plainto_tsquery : string -> tsquery.
Variable ts_match : tsvector -> tsquery -> bool.
Variable ts_rank : tsvector -> tsquery -> Q.

(** [c.name || ' ' || c.description]: NULL when the description is. *)
Definition document (c : company) : option string :=
  match description c with
  | Some about => Some (name c ++ " " ++ about)%string
  | None => None
  end.

(** [ORDER BY relevance DESC, market_cap DESC]. *)
Definition by_relevance (a b : search_row) : Q :=
  let r := relevance b - relevance a in
  if Qeq_bool r 0 then desc_nulls_first found_market_cap a b else r.

(** [SELECT c.id, c.name, c.ticker_symbol, c.industry_code, c.market_cap,
    ts_rank(to_tsvector('english', c.name || ' ' || c.description),
    plainto_tsquery('english', $1)) as relevance FROM companies c WHERE
    to_tsvector(...) @@ plainto_tsquery('english', $1) ORDER BY relevance
    DESC, market_cap DESC LIMIT 20]. *)
Definition searchQuery (query : option string) : statement (list search_row) :=
  fun d =>
    let found :=
      flat_map (fun c =>
        match document c, query with
        | Some doc, Some q =>
            if ts_match (to_tsvector doc) (plainto_tsquery q) then
              [{| found_id := company_id c; found_name := name c;
                  found_ticker_symbol := ticker_symbol c;
                  found_industry_code := industry_code c;
                  found_market_cap := market_cap c;
                  relevance := ts_rank (to_tsvector doc) (plainto_tsquery q) |}]
            else []
        | _, _ => []
        end) (companies d) in
    (inr (limit_offset 20 0 (sort by_relevance found)), d).

Definition search (fault : option string) (req : search_request) : handler answer :=
  try_catch
    (result <- pool_query fault (searchQuery (search_query req)) ;;
     reply 200 (json_found result))%handler
    (fun error =>
       (print (console_error "Error in search:" error) ;;
        reply 500 (json_failure "Search failed"))%handler).
End Search.

(** ** The checkout session *)

Record line_item : Type := {
  price : option string;
  quantity : Z
}.

Record session_params : Type := {
  payment_method_types : list string;
  line_items : list line_item;
  mode : string;
  success_url : string;
  cancel_url : string;
  params_metadata : list (string * string)
}.

Record checkout_request : Type := {
  priceId : option string;
  planId : option string
}.

(** An environment variable in a template literal. *)
Definition interpolate (v : option string) : string :=
  match v with
  | Some s => s
  | None => "undefined"
  end.

Definition checkout_params (FRONTEND_URL : option string) (req : checkout_request)
  : session_params :=
  {| payment_method_types := ["card"%string];
     line_items := [{| price := priceId req; quantity := 1 |}];
     mode := "subscription";
     success_url :=
       (interpolate FRONTEND_URL ++ "/dashboard?session_id={CHECKOUT_SESSION_ID}")%string;
     cancel_url := (interpolate FRONTEND_URL ++ "/pricing")%string;
     params_metadata :=
       match planId req with
       | Some p => [("planId"%string, p)]
       | None => []
       end |}.

Section Checkout.
(** [stripe.checkout.sessions.create]: the id of the session, or the
    message of the error the call rejects with (logged below as the error
    of a rejected service call, like those of the pool). *)
Variable createSession : session_params -> string + string.
Variable FRONTEND_URL : option string.

Definition create_checkout_session (req : checkout_request) : handler answer :=
  try_catch
    (session_id <- lift (match createSession (checkout_params FRONTEND_URL req) with
                         | inl e => inl (DatabaseError e)
                         | inr id => inr id
                         end) ;;
     reply 200 (json_session session_id))%handler
    (fun error =>
       (print (console_error "Error creating checkout session:" error) ;;
        reply 500 (json_failure "Failed to create checkout session"))%handler).
End Checkout.

Definition sample_market (c t : Z) : market_data_row :=
  {| market_company_id := Some c; measurement_date := Some t |}.

(** The row the search makes of a company, its description and the
    query. *)
Definition found_row {tsvector tsquery : Type}
  (to_tsvector : string -> tsvector) (plainto_tsquery : string -> tsquery)
  (ts_rank : tsvector -> tsquery -> Q) (q : string) (c : company) (about : string)
  : search_row :=
  {| found_id := company_id c; found_name := name c;
     found_ticker_symbol := ticker_symbol c;
     found_industry_code := industry_code c;
     found_market_cap := market_cap c;
     relevance := ts_rank (to_tsvector (name c ++ " " ++ about)%string)
                          (plainto_tsquery q) |}.

(** A text search for the examples: a document matches a query that is
    one of its prefixes, and ranks by its length. *)
Definition prefix_match (doc q : string) : bool := String.prefix q doc.
Definition length_rank (doc q : string) : Q := inject_Z (Z.of_nat (String.length doc)).

(* ====================================================================== *)
(** * Properties of the built-ins *)
(* ====================================================================== *)

Section SortFacts.
Context {A : Type}.
Variable cmp : A -> A -> Q.

Lemma insert_In (x y : A) (l : list A) :
  In y (insert cmp x l) <-> y = x \/ In y l.
Proof.
  induction l as [|z l IH]; simpl.
  - intuition.
  - destruct (Qle_bool (cmp x z) 0); simpl; [intuition|].
    rewrite IH. intuition.
Qed.

Lemma sort_In (y : A) (l : list A) : In y (sort cmp l) <-> In y l.
Proof.
  induction l as [|x l IH]; simpl; [tauto|].
  rewrite insert_In, IH. intuition.
Qed.

Lemma insert_length (x : A) (l : list A) :
  List.length (insert cmp x l) = S (List.length l).
Proof.
  induction l as [|z l IH]; simpl; [reflexivity|].
  destruct (Qle_bool (cmp x z) 0); simpl; congruence.
Qed.

Lemma sort_length (l : list A) : List.length (sort cmp l) = List.length l.
Proof.
  induction l as [|x l IH]; simpl; [reflexivity|].
  now rewrite insert_length, IH.
Qed.

(** The first row of the sorted array, as a recursion on the input. *)
Lemma sort_first (x : A) (l : list A) :
  nth_error (sort cmp (x :: l)) 0 =
  match nth_error (sort cmp l) 0 with
  | None => Some x
  | Some m => if Qle_bool (cmp x m) 0 then Some x else Some m
  end.
Proof.
  simpl. destruct (sort cmp l) as [|m r]; simpl; [reflexivity|].
  destruct (Qle_bool (cmp x m) 0); reflexivity.
Qed.

Lemma sort_first_some (l : list A) :
  l <> [] -> exists m, nth_error (sort cmp l) 0 = Some m.
Proof.
  intros Hl. pose proof (sort_length l) as Hlen.
  destruct (sort cmp l) as [|m r]; [|now exists m].
  destruct l; [congruence|discriminate].
Qed.
End SortFacts.

Example sort_keeps_ties_in_order :
  sort (descending fst) [(1, "a"%string); (2, "b"%string); (2, "c"%string); (1, "d"%string)]
  = [(2, "b"%string); (2, "c"%string); (1, "a"%string); (1, "d"%string)].
Proof. reflexivity. Qed.

Section Descending.
Context {A : Type}.
Variable key : A -> Q.

Lemma descending_le (a b : A) :
  Qle_bool (descending key a b) 0 = true <-> key b <= key a.
Proof.
  unfold descending. rewrite Qle_bool_iff. split; intros H.
  - apply Qplus_le_l with (z := - key a). ring_simplify.
    setoid_replace (key b + (-1 # 1) * key a) with (key b - key a) by ring.
    exact H.
  - apply Qplus_le_l with (z := key a). ring_simplify. exact H.
Qed.

End Descending.

(** Two comparators that agree on which of two rows of [l] may stay in
    front sort [l] alike. *)
Lemma insert_agree {A : Type} (c1 c2 : A -> A -> Q) (x : A) (r : list A) :
  (forall y, In y r -> Qle_bool (c1 x y) 0 = Qle_bool (c2 x y) 0) ->
  insert c1 x r = insert c2 x r.
Proof.
  induction r as [|y r IH]; intros H; [reflexivity|]. simpl.
  rewrite (H y) by now left.
  destruct (Qle_bool (c2 x y) 0); [reflexivity|].
  f_equal. apply IH. intros z Hz. apply H. now right.
Qed.

Lemma sort_agree {A : Type} (c1 c2 : A -> A -> Q) (l : list A) :
  (forall x y, In x l -> In y l -> Qle_bool (c1 x y) 0 = Qle_bool (c2 x y) 0) ->
  sort c1 l = sort c2 l.
Proof.
  induction l as [|x l IH]; intros H; [reflexivity|]. simpl.
  rewrite IH by (intros a b Ha Hb; apply H; now right).
  apply insert_agree. intros y Hy. apply sort_In in Hy.
  apply H; [now left|now right].
Qed.

(** The first of the rows that no row exceeds comes first. *)
Lemma sort_first_of_highest {A : Type} (key : A -> Q) (l : list A) (c : A) :
  first_highest key c l -> nth_error (sort (descending key) l) 0 = Some c.
Proof.
  intros [before [after [-> [Hb Ha]]]].
  induction before as [|x before IH].
  - simpl app. rewrite sort_first.
    destruct (nth_error (sort (descending key) after) 0) as [m|] eqn:E; [|reflexivity].
    assert (Hm : In m after).
    { apply (sort_In (descending key)). eapply nth_error_In. exact E. }
    replace (Qle_bool (descending key c m) 0) with true; [reflexivity|].
    symmetry. apply descending_le. now apply Ha.
  - simpl app. rewrite sort_first, IH by (intros y Hy; apply Hb; now right).
    replace (Qle_bool (descending key x c) 0) with false; [reflexivity|].
    symmetry. apply not_true_is_false. intros H. apply descending_le in H.
    apply (Qlt_not_le _ _ (Hb x (or_introl eq_refl)) H).
Qed.

(** A row of a list that is not empty is the first highest one. *)
Lemma first_highest_exists {A : Type} (key : A -> Q) (l : list A) :
  l <> [] -> exists c, first_highest key c l.
Proof.
  induction l as [|x l IH]; [congruence|]. intros _.
  destruct l as [|y l].
  - exists x, [], []. repeat split; intros z [].
  - destruct IH as [c [before [after [E [Hb Ha]]]]]; [discriminate|].
    destruct (Qlt_le_dec (key x) (key c)) as [Hlt|Hle].
    + exists c, (x :: before), after. rewrite E. split; [reflexivity|]. split; [|exact Ha].
      intros z [<-|Hz]; [exact Hlt|now apply Hb].
    + exists x, [], (y :: l). split; [reflexivity|]. split; [intros z []|].
      intros z Hz. rewrite E in Hz. apply in_app_iff in Hz.
      destruct Hz as [Hz|[<-|Hz]].
      * apply Qlt_le_weak. eapply Qlt_le_trans; [apply Hb, Hz|exact Hle].
      * exact Hle.
      * eapply Qle_trans; [apply Ha, Hz|exact Hle].
Qed.

(** The row ahead of every other is the first highest one, wherever it
    stands. *)
Lemma sole_top_first_highest {A : Type} (key : A -> Q) (l : list A) (m : A) :
  In m l -> (forall x, In x l -> x = m \/ key x < key m) -> first_highest key m l.
Proof.
  intros Hin Htop.
  destruct (first_highest_exists key l) as [c [before [after [E [Hb Ha]]]]].
  { destruct l; [destruct Hin|discriminate]. }
  assert (Hc : In c l) by (rewrite E; apply in_elt).
  destruct (Htop c Hc) as [->|Hlt]; [now exists before, after|].
  exfalso. rewrite E in Hin. apply in_app_iff in Hin.
  destruct Hin as [Hm|[Hm|Hm]].
  - apply (Qlt_irrefl (key c)). eapply Qlt_trans; [exact Hlt|apply Hb, Hm].
  - subst m. apply (Qlt_irrefl _ Hlt).
  - apply (Qlt_not_le _ _ Hlt). apply Ha, Hm.
Qed.

(** ** Numbers *)

Lemma digits2_size (p : positive) : digits2_pos p = Pos.size p.
Proof. induction p; simpl; congruence. Qed.

Lemma digits2_le (p : positive) : (2 ^ (Zpos (digits2_pos p) - 1) <= Zpos p)%Z.
Proof.
  rewrite digits2_size.
  assert (H : Zpos (Pos.size p) = (Z.log2 (Zpos p) + 1)%Z).
  { destruct p; simpl; lia. }
  rewrite H. replace (Z.log2 (Zpos p) + 1 - 1)%Z with (Z.log2 (Zpos p)) by lia.
  apply Z.log2_spec. lia.
Qed.

Lemma shr_1_m (mrs : shr_record) :
  (0 <= shr_m mrs)%Z -> shr_m (shr_1 mrs) = Z.div2 (shr_m mrs).
Proof.
  destruct mrs as [m r s]. simpl. intros H.
  destruct m as [|p|p]; [reflexivity| |lia].
  destruct p; reflexivity.
Qed.

(** Shifting a mantissa to the right halves it at each step. *)
Lemma iter_shr_m (p : positive) (mrs : shr_record) :
  (0 <= shr_m mrs)%Z ->
  shr_m (iter_pos shr_1 p mrs) = Z.shiftr (shr_m mrs) (Zpos p).
Proof.
  revert mrs. induction p as [p IH|p IH|]; intros mrs H; simpl iter_pos.
  - assert (H1 : (0 <= shr_m (shr_1 mrs))%Z).
    { rewrite shr_1_m by assumption. apply Z.div2_nonneg. assumption. }
    assert (H2 : (0 <= shr_m (iter_pos shr_1 p (shr_1 mrs)))%Z).
    { rewrite IH by assumption. apply Z.shiftr_nonneg. assumption. }
    rewrite IH, IH, shr_1_m by assumption.
    rewrite Z.div2_spec, !Z.shiftr_shiftr by lia.
    f_equal. lia.
  - assert (H2 : (0 <= shr_m (iter_pos shr_1 p mrs))%Z).
    { rewrite IH by assumption. apply Z.shiftr_nonneg. assumption. }
    rewrite IH, IH by assumption.
    rewrite Z.shiftr_shiftr by lia. f_equal. lia.
  - rewrite shr_1_m by assumption. now rewrite Z.div2_spec.
Qed.

(** A mantissa that is positive, at an exponent that is not below the
    least one, is still positive once shifted to its precision. *)
Lemma shr_fexp_positive (m e : Z) (l : location) :
  (0 < m)%Z -> (emin prec emax <= e)%Z ->
  (0 < shr_m (fst (shr_fexp prec emax m e l)))%Z /\
  (emin prec emax <= snd (shr_fexp prec emax m e l))%Z.
Proof.
  intros Hm He. unfold shr_fexp, shr.
  assert (Hrec : shr_m (shr_record_of_loc m l) = m).
  { destruct l as [|[]]; reflexivity. }
  destruct (fexp prec emax (Zdigits2 m + e) - e)%Z as [|p|p] eqn:En; simpl fst; simpl snd.
  - rewrite Hrec. lia.
  - rewrite iter_shr_m by (rewrite Hrec; lia). rewrite Hrec.
    split; [|lia].
    rewrite Z.shiftr_div_pow2 by lia.
    destruct m as [|q|q]; try lia. simpl Zdigits2 in En.
    pose proof (digits2_le q) as Hd.
    unfold fexp, emin, prec, emax in En, He.
    assert (Hp : (Zpos p <= Zpos (digits2_pos q) - 1)%Z) by lia.
    apply Z.div_str_pos. split; [apply Z.pow_pos_nonneg; lia|].
    eapply Z.le_trans; [|exact Hd].
    apply Z.pow_le_mono_r; lia.
  - rewrite Hrec. lia.
Qed.

Lemma round_nearest_even_le (m : Z) (l : location) : (m <= round_nearest_even m l)%Z.
Proof.
  destruct l as [|[]]; simpl; try lia.
  destruct (Z.even m); lia.
Qed.

(** Rounding keeps the sign, and does not round to zero what is a
    multiple of the least positive number. *)
Lemma binary_round_aux_sign (s : bool) (m e : Z) (l : location) :
  (0 < m)%Z -> (emin prec emax <= e)%Z ->
  match binary_round_aux prec emax s m e l with
  | S754_finite s' _ _ | S754_infinity s' => s' = s
  | _ => False
  end.
Proof.
  intros Hm He. unfold binary_round_aux.
  destruct (shr_fexp_positive m e l Hm He) as [H1 H2].
  destruct (shr_fexp prec emax m e l) as [mrs' e']. simpl in H1, H2.
  pose proof (round_nearest_even_le (shr_m mrs') (loc_of_shr_record mrs')) as Hr.
  destruct (shr_fexp_positive (round_nearest_even (shr_m mrs') (loc_of_shr_record mrs'))
              e' loc_Exact) as [H3 H4]; [lia|assumption|].
  destruct (shr_fexp prec emax _ e' loc_Exact) as [mrs'' e'']. simpl in H3, H4.
  destruct (shr_m mrs'') as [|q|q]; try lia.
  destruct (e'' <=? emax - prec)%Z; reflexivity.
Qed.

Lemma shl_align_fst (m : positive) (e e' : Z) :
  (e' <= e)%Z -> Zpos (fst (shl_align m e e')) = (Zpos m * 2 ^ (e - e'))%Z.
Proof.
  intros H. unfold shl_align.
  destruct (e' - e)%Z as [|d|d] eqn:E; simpl fst.
  - replace (e - e')%Z with 0%Z by lia. lia.
  - lia.
  - replace (e - e')%Z with (Zpos d) by lia.
    change (Pos.iter xO m d) with (shift_pos d m).
    rewrite shift_pos_correct, Z.pow_pos_fold. lia.
Qed.

Lemma two_power_pos (e : Z) : 0 < (2 # 1) ^ e.
Proof. apply Qpower_0_lt. reflexivity. Qed.

Lemma cond_Zopp_mul (s : bool) (a b : Z) : cond_Zopp s (a * b) = (cond_Zopp s a * b)%Z.
Proof. destruct s; simpl; lia. Qed.

Lemma exact_aligned (s : bool) (m : positive) (e e' : Z) :
  (e' <= e)%Z ->
  exact (S754_finite s m e)
  == inject_Z (cond_Zopp s (Zpos (fst (shl_align m e e')))) * (2 # 1) ^ e'.
Proof.
  intros H. simpl. rewrite shl_align_fst, cond_Zopp_mul by assumption.
  rewrite inject_Z_mult, Zpower_Qpower by lia.
  change (inject_Z 2) with (2 # 1).
  rewrite <- Qmult_assoc, <- Qpower_plus by discriminate.
  now replace (e - e' + e')%Z with e by lia.
Qed.

Lemma bounded_emin (m : positive) (e : Z) :
  bounded prec emax m e = true -> (emin prec emax <= e)%Z.
Proof.
  unfold bounded, canonical_mantissa, fexp. intros H.
  apply andb_true_iff in H. destruct H as [H _]. apply Z.eqb_eq in H. lia.
Qed.

Lemma binary_normalize_positive (m e : Z) :
  (emin prec emax <= e)%Z ->
  num_lt zero (binary_normalize prec emax m e false) = true <-> (0 < m)%Z.
Proof.
  intros He. unfold binary_normalize, binary_round.
  destruct m as [|p|p].
  - split; [discriminate|lia].
  - split; [lia|intros _].
    destruct (shl_align p e _) as [mz ez] eqn:Ea.
    assert (Hez : (emin prec emax <= ez)%Z).
    { unfold shl_align in Ea.
      destruct (fexp prec emax (Zpos (digits2_pos p) + e) - e)%Z eqn:E;
        injection Ea as <- <-; try assumption.
      unfold fexp. lia. }
    pose proof (binary_round_aux_sign false (Zpos mz) ez loc_Exact eq_refl Hez) as Hs.
    destruct (binary_round_aux prec emax false (Zpos mz) ez loc_Exact);
      try contradiction; subst; reflexivity.
  - split; [|lia]. intros H. exfalso.
    destruct (shl_align p e _) as [mz ez] eqn:Ea.
    unfold binary_round_aux in H.
    destruct (shr_fexp prec emax (Zpos mz) ez loc_Exact) as [mrs' e'].
    destruct (shr_fexp prec emax _ e' loc_Exact) as [mrs'' e''].
    destruct (shr_m mrs''); try discriminate.
    destruct (e'' <=? emax - prec)%Z; discriminate.
Qed.

(** The difference of two finite numbers is positive exactly when the
    first stands for more than the second: a difference that is not zero
    does not round to zero. *)
Lemma sub_positive (x y : number) :
  is_finite x = true -> is_finite y = true ->
  num_lt zero (num_sub y x) = true <-> exact x < exact y.
Proof.
  intros Hx Hy.
  destruct x as [sx| | |sx mx ex]; try discriminate;
    destruct y as [sy| | |sy my ey]; try discriminate.
  - destruct sx, sy; simpl; split; try discriminate; intros H; inversion H.
  - cbn [num_sub SFsub exact].
    assert (P : 0 < inject_Z (Zpos my) * (2 # 1) ^ ey).
    { apply Qmult_lt_0_compat; [reflexivity|apply two_power_pos]. }
    destruct sy; simpl cond_Zopp.
    + split; [discriminate|]. intros H. exfalso.
      change (inject_Z (Zneg my)) with (- inject_Z (Zpos my)) in H. lra.
    + split; [intros _; exact P|reflexivity].
  - cbn [num_sub SFsub exact].
    assert (P : 0 < inject_Z (Zpos mx) * (2 # 1) ^ ex).
    { apply Qmult_lt_0_compat; [reflexivity|apply two_power_pos]. }
    destruct sx; simpl cond_Zopp; simpl negb.
    + split; [intros _|reflexivity].
      change (inject_Z (Zneg mx)) with (- inject_Z (Zpos mx)). lra.
    + split; [discriminate|]. intros H. exfalso. lra.
  - simpl in Hx, Hy. apply bounded_emin in Hx, Hy.
    cbn [num_sub SFsub].
    rewrite binary_normalize_positive by lia.
    rewrite (exact_aligned sx mx ex (Z.min ey ex)) by lia.
    rewrite (exact_aligned sy my ey (Z.min ey ex)) by lia.
    set (a := cond_Zopp sx (Zpos (fst (shl_align mx ex (Z.min ey ex))))).
    set (b := cond_Zopp sy (Zpos (fst (shl_align my ey (Z.min ey ex))))).
    pose proof (two_power_pos (Z.min ey ex)) as P.
    split; intros H.
    + apply Qmult_lt_compat_r; [exact P|]. rewrite <- Zlt_Qlt. lia.
    + apply Qmult_lt_r in H; [|exact P]. rewrite <- Zlt_Qlt in H. lia.
Qed.

Lemma sign_not_positive (v : number) :
  Qle_bool (sign v) 0 = negb (num_lt zero v).
Proof.
  unfold sign. destruct (num_lt zero v); [reflexivity|].
  destruct (num_lt v zero); reflexivity.
Qed.

(** A sort by the difference of two keys that are finite numbers is the
    descending sort on what the keys stand for. *)
Lemma Array_sort_descending {A : Type} (key : A -> number) (l : list A) :
  finite_keys key l ->
  Array_sort (fun a b => num_sub (key b) (key a)) l
  = sort (descending (fun x => exact (key x))) l.
Proof.
  intros Hfin. unfold Array_sort. apply sort_agree. intros x y Hx Hy.
  rewrite sign_not_positive.
  destruct (Qle_bool (descending (fun x => exact (key x)) x y) 0) eqn:E.
  - apply (descending_le (fun x => exact (key x)) x y) in E.
    apply negb_true_iff, not_true_is_false.
    intros H. apply sub_positive in H; auto. apply (Qlt_not_le _ _ H E).
  - apply negb_false_iff. apply sub_positive; auto.
    apply Qnot_le_lt. intros H.
    apply (descending_le (fun x => exact (key x)) x y) in H. congruence.
Qed.

(** ** Digits *)

Lemma log2_tenth (n : N) : (10 <= n)%N -> (N.log2 (n / 10) < N.log2 n)%N.
Proof.
  intros Hn. destruct (N.eq_dec (n / 10) 0) as [E|E].
  - rewrite E. simpl. apply N.log2_pos. lia.
  - assert (H2 : (2 * (n / 10) <= n)%N).
    { pose proof (N.Div0.mul_div_le n 10). lia. }
    apply N.log2_le_mono in H2.
    apply N.neq_0_lt_0 in E.
    rewrite (N.log2_double _ E) in H2.
    apply N.le_succ_l. exact H2.
Qed.

Lemma digits_fuel_enough (f1 f2 : nat) (n : N) :
  (N.to_nat (N.log2 n) < f1)%nat -> (N.to_nat (N.log2 n) < f2)%nat ->
  digits_fuel f1 n = digits_fuel f2 n.
Proof.
  revert f2 n. induction f1 as [|f1 IH]; intros f2 n H1 H2; [lia|].
  destruct f2 as [|f2]; [lia|]. simpl.
  destruct (n <? 10)%N eqn:E; [reflexivity|].
  apply N.ltb_ge in E. pose proof (log2_tenth n E).
  f_equal. apply IH; lia.
Qed.

Lemma decimal_small (n : N) : (n < 10)%N -> decimal n = digit n.
Proof.
  intros H. unfold decimal. simpl.
  apply N.ltb_lt in H. now rewrite H.
Qed.

Lemma decimal_step (n : N) :
  (10 <= n)%N -> decimal n = (decimal (n / 10) ++ digit (n mod 10))%string.
Proof.
  intros H. unfold decimal at 1. simpl.
  apply N.ltb_ge in H. rewrite H. apply N.ltb_ge in H.
  f_equal. pose proof (log2_tenth n H). apply digits_fuel_enough; lia.
Qed.

Lemma append_length (a b : string) :
  String.length (a ++ b) = (String.length a + String.length b)%nat.
Proof. induction a as [|c a IH]; simpl; congruence. Qed.

Lemma substring_prefix (a b : string) :
  substring 0 (String.length a) (a ++ b) = a.
Proof.
  induction a as [|c a IH]; simpl.
  - now destruct b.
  - now rewrite IH.
Qed.

Lemma substring_suffix (a b : string) :
  substring (String.length a) (String.length b) (a ++ b) = b.
Proof.
  induction a as [|c a IH]; simpl; [|exact IH].
  induction b as [|c b IH]; simpl; [reflexivity|now rewrite IH].
Qed.

Lemma decimal_length (n : N) : (1 <= String.length (decimal n))%nat.
Proof.
  destruct (N.lt_ge_cases n 10) as [H|H].
  - rewrite decimal_small by assumption. simpl. lia.
  - rewrite decimal_step, append_length by assumption. simpl. lia.
Qed.

(** The digits of [n] with the point before the last one. *)
Lemma point_before_last (n : N) :
  let m := decimal n in
  let k := String.length m in
  let m := if (k <=? 1)%nat then (zeroes (1 + 1 - k) ++ m)%string else m in
  let k := String.length m in
  (substring 0 (k - 1) m ++ "." ++ substring (k - 1) 1 m)%string
  = (decimal (n / 10) ++ "." ++ digit (n mod 10))%string.
Proof.
  destruct (N.lt_ge_cases n 10) as [H|H].
  - rewrite N.div_small, N.mod_small by assumption.
    rewrite (decimal_small n H), (decimal_small 0) by lia.
    reflexivity.
  - cbv zeta. rewrite (decimal_step n H).
    pose proof (decimal_length (n / 10)) as Hlen.
    rewrite append_length. cbn [String.length digit].
    replace (String.length (decimal (n / 10)) + 1 <=? 1)%nat with false
      by (symmetry; apply Nat.leb_gt; lia).
    rewrite append_length. cbn [String.length digit].
    replace (String.length (decimal (n / 10)) + 1 - 1)%nat
      with (String.length (decimal (n / 10))) by lia.
    rewrite substring_prefix.
    pose proof (substring_suffix (decimal (n / 10)) (digit (n mod 10))) as Hs.
    cbn [String.length digit] in Hs. now rewrite Hs.
Qed.

(** ** toFixed with one digit *)

Example toFixed_rounds_half_up :
  toFixed plain_digits 1 (decimal_literal 5 2) = "0.1"%string /\
  toFixed plain_digits 1 (decimal_literal (-1234) 2) = "-12.3"%string /\
  toFixed plain_digits 1 (decimal_literal (-1) 2) = "-0.0"%string /\
  toFixed plain_digits 1 (decimal_literal 145 2) = "1.4"%string /\
  toFixed plain_digits 0 (decimal_literal 25 1) = "3"%string /\
  toFixed plain_digits 1 (S754_zero true) = "0.0"%string.
Proof. repeat split; vm_compute; reflexivity. Qed.

Lemma nearest_tenth (x : Q) :
  0 <= x -> Qabs (inject_Z (Z.of_N (nearest_scaled 1 x)) / 10 - x) <= 1 # 20.
Proof.
  intros Hx. unfold nearest_scaled.
  change (inject_Z (10 ^ Z.of_nat 1)) with 10.
  set (y := x * 10 + (1 # 2)).
  assert (Hy : 0 <= y).
  { unfold y. lra. }
  assert (H0 : (0 <= Qfloor y)%Z).
  { rewrite <- (Qfloor_Z 0). apply Qfloor_resp_le. exact Hy. }
  rewrite Z2N.id by exact H0.
  pose proof (Qfloor_le y) as Hlo. pose proof (Qlt_floor y) as Hhi.
  rewrite inject_Z_plus in Hhi. change (inject_Z 1) with 1 in Hhi.
  set (z := inject_Z (Qfloor y)) in *.
  apply Qabs_Qle_condition. unfold y in *. clear Hy H0.
  clearbody z. clear y. unfold Qdiv. change (/ 10) with (1 # 10). split; lra.
Qed.

(** A finite number below 10^21 is written to its nearest tenth. *)
Lemma toFixed_one_decimal_place (NumberToString : number -> string) (x : number) :
  plain x -> one_decimal_place (exact x) (toFixed NumberToString 1 x).
Proof.
  intros [Hfin Hx]. exists (nearest_scaled 1 (Qabs (exact x))). split.
  - assert (E : toFixed NumberToString 1 x
                = ((if Qle_bool 0 (exact x) then EmptyString else "-"%string)
                   ++ fixed_digits 1 (Qabs (exact x)))%string).
    { unfold toFixed.
      replace (Qle_bool (inject_Z (10 ^ 21)) (Qabs (exact x))) with false.
      - destruct x; try discriminate; reflexivity.
      - symmetry. apply not_true_is_false. rewrite Qle_bool_iff.
        now apply Qlt_not_le. }
    rewrite E. unfold fixed_digits, tenths_text.
    rewrite (point_before_last (nearest_scaled 1 (Qabs (exact x)))).
    destruct (Qle_bool 0 (exact x)); reflexivity.
  - apply nearest_tenth, Qabs_nonneg.
Qed.

(* ====================================================================== *)
(** * The comparison insight generator *)
(* ====================================================================== *)

(** The first row of a sorted array, as a recursion on the input. *)
Lemma Array_sort_first {A : Type} (comparefn : A -> A -> number) (x : A) (l : list A) :
  nth_error (Array_sort comparefn (x :: l)) 0 =
  match nth_error (Array_sort comparefn l) 0 with
  | None => Some x
  | Some m => if num_lt zero (comparefn x m) then Some m else Some x
  end.
Proof.
  unfold Array_sort. rewrite sort_first.
  destruct (nth_error (sort _ l) 0) as [m|]; [|reflexivity].
  rewrite sign_not_positive. now destruct (num_lt zero (comparefn x m)).
Qed.

Lemma Array_sort_first_some {A : Type} (comparefn : A -> A -> number) (l : list A) :
  l <> [] -> exists m, nth_error (Array_sort comparefn l) 0 = Some m.
Proof. apply sort_first_some. Qed.

Lemma Array_sort_In {A : Type} (comparefn : A -> A -> number) (y : A) (l : list A) :
  In y (Array_sort comparefn l) <-> In y l.
Proof. apply sort_In. Qed.

Section InsightFacts.
Variable StringToNumber : string -> number.
Variable NumberToString : number -> string.

Let generate := generateComparisonInsights StringToNumber NumberToString.

(** The sentence about the market cap of row [c], the one about the
    growth rate of row [g], and the one about the sentiment of [cs]. *)
Let leader (c : company_row) : string :=
  (row_name c ++ " leads in market capitalization with $"
   ++ toFixed NumberToString 1 (num_div (cap StringToNumber c) (of_Z 1000000000))
   ++ "B")%string.

Let grower (g : company_row) (rate : string) : string :=
  (row_name g ++ " shows highest growth rate at " ++ rate ++ "%")%string.

Let mood (cs : list company_row) : string :=
  ("Overall market sentiment is "
   ++ sentiment_label
        (num_div
           (ToNumber StringToNumber
              (fold_left
                 (fun sum c => plus StringToNumber NumberToString sum
                                    (or_zero (row_avg_sentiment c)))
                 cs (js_number zero)))
           (of_Z (Z.of_nat (List.length cs)))))%string.

(** What the generator returns, from the two rows it selects. *)
Lemma insights_of_first_rows (cs : list company_row) (c g : company_row) :
  nth_error (Array_sort (by_market_cap StringToNumber) cs) 0 = Some c ->
  nth_error (Array_sort (by_growth StringToNumber) cs) 0 = Some g ->
  generate cs =
  match growth_text NumberToString (row_growth_rate g) with
  | inl error => inl error
  | inr rate => inr [leader c; grower g rate; mood cs]
  end.
Proof.
  intros Hc Hg. unfold generate, generateComparisonInsights. rewrite Hc, Hg.
  destruct (growth_text NumberToString (row_growth_rate g)); reflexivity.
Qed.


(** Whatever the generator returns is made of three strings. *)
Lemma three_insights (cs : list company_row) (out : list string) :
  generate cs = inr out -> exists s1 s2 s3, out = [s1; s2; s3].
Proof.
  destruct cs as [|x cs]; [discriminate|].
  destruct (Array_sort_first_some (by_market_cap StringToNumber) (x :: cs)) as [c Hc];
    [discriminate|].
  destruct (Array_sort_first_some (by_growth StringToNumber) (x :: cs)) as [g Hg];
    [discriminate|].
  rewrite (insights_of_first_rows _ c g Hc Hg).
  destruct (growth_text NumberToString (row_growth_rate g)); [discriminate|].
  intros [= <-]. eauto.
Qed.

(** The rows the generator selects, when the keys are finite numbers:
    the first of the rows with the highest market cap and the first of
    those with the highest growth rate. *)
Lemma first_by_market_cap (cs : list company_row) (c : company_row) :
  finite_keys (cap StringToNumber) cs ->
  first_highest (fun x => exact (cap StringToNumber x)) c cs ->
  nth_error (Array_sort (by_market_cap StringToNumber) cs) 0 = Some c.
Proof.
  intros Hfin Hc.
  change (by_market_cap StringToNumber)
    with (fun a b => num_sub (cap StringToNumber b) (cap StringToNumber a)).
  rewrite (Array_sort_descending (cap StringToNumber) cs Hfin).
  now apply sort_first_of_highest.
Qed.

Lemma first_by_growth (cs : list company_row) (g : company_row) :
  finite_keys (growth StringToNumber) cs ->
  first_highest (fun x => exact (growth StringToNumber x)) g cs ->
  nth_error (Array_sort (by_growth StringToNumber) cs) 0 = Some g.
Proof.
  intros Hfin Hg.
  change (by_growth StringToNumber)
    with (fun a b => num_sub (growth StringToNumber b) (growth StringToNumber a)).
  rewrite (Array_sort_descending (growth StringToNumber) cs Hfin).
  now apply sort_first_of_highest.
Qed.

(** The reduction over sentiments that are numbers or [null] is the
    running sum of the scores. *)
Lemma reduce_scores (cs : list company_row) (scores : list number) (acc : number) :
  map score cs = map Some scores ->
  fold_left (fun sum c => plus StringToNumber NumberToString sum
                               (or_zero (row_avg_sentiment c)))
            cs (js_number acc)
  = js_number (running_sum acc scores).
Proof.
  revert scores acc. induction cs as [|c cs IH]; intros [|s scores] acc H;
    try discriminate; [reflexivity|].
  cbn [map] in H. injection H as Hs Hrest. cbn [fold_left running_sum].
  unfold score in Hs. unfold or_zero.
  destruct (row_avg_sentiment c) as [|x|t]; [| |discriminate].
  - injection Hs as <-. cbn [ToBoolean plus ToNumber]. now apply IH.
  - cbv beta iota in Hs.
    destruct (ToBoolean (js_number x)); injection Hs as <-;
      cbn [plus ToNumber]; now apply IH.
Qed.

Lemma mood_of_scores (cs : list company_row) (scores : list number) :
  map score cs = map Some scores ->
  mood cs = ("Overall market sentiment is "
             ++ sentiment_label (computed_mean scores))%string.
Proof.
  intros H. unfold mood, computed_mean.
  rewrite (reduce_scores cs scores zero H). simpl ToNumber.
  assert (E : List.length cs = List.length scores).
  { rewrite <- (length_map score cs), H. apply length_map. }
  now rewrite E.
Qed.
End InsightFacts.

(** C6, as stated, fails in two ways.  Two rows with the same market cap
    are reported in the order of the input; and the sum of the
    sentiments is rounded at each addition, so that three rows with
    sentiments 0.26, 0.01 and 0.93 are "neutral" in this order and
    "negative" with the last two exchanged, each of the rows being alone
    at the top by market cap and by growth rate. *)
Lemma insights_depend_on_input_order :
  (let alpha := sample_row "Alpha" (integer 1000000000) (integer 1) (hundredths 50) in
   let beta := sample_row "Beta" (integer 1000000000) (integer 2) (hundredths 50) in
   Permutation [alpha; beta] [beta; alpha] /\
   generateComparisonInsights read_numeral plain_digits [alpha; beta]
   <> generateComparisonInsights read_numeral plain_digits [beta; alpha]) /\
  (let a := sample_row "A" (integer 3000000000) (integer 3) (hundredths 26) in
   let b := sample_row "B" (integer 2000000000) (integer 2) (hundredths 1) in
   let c := sample_row "C" (integer 1000000000) (integer 1) (hundredths 93) in
   Permutation [a; b; c] [a; c; b] /\
   generateComparisonInsights read_numeral plain_digits [a; b; c]
   = inr ["A leads in market capitalization with $3.0B";
          "A shows highest growth rate at 3.0%";
          "Overall market sentiment is neutral"]%string /\
   generateComparisonInsights read_numeral plain_digits [a; c; b]
   = inr ["A leads in market capitalization with $3.0B";
          "A shows highest growth rate at 3.0%";
          "Overall market sentiment is negative"]%string).
Proof.
  split.
  - split; [apply perm_swap|]. vm_compute. discriminate.
  - split; [apply perm_skip, perm_swap|]. split; vm_compute; reflexivity.
Qed.

(** C6, amended.  Whatever the generator returns is made of three
    strings.  On rows whose market caps and growth rates are finite
    numbers it reports the first row of the input among those with the
    highest market cap, and the first among those with the highest growth
    rate; hence, when one row is ahead of all others on market cap and
    one on growth rate, a permutation of the rows changes at most the
    third string. *)
Theorem insights_order_independent
  (StringToNumber : string -> number) (NumberToString : number -> string) :
  let generate := generateComparisonInsights StringToNumber NumberToString in
  let cap_of x := exact (cap StringToNumber x) in
  let growth_of x := exact (growth StringToNumber x) in
  (forall cs out, generate cs = inr out -> exists s1 s2 s3, out = [s1; s2; s3]) /\
  (forall cs c g rate,
     finite_keys (cap StringToNumber) cs -> finite_keys (growth StringToNumber) cs ->
     first_highest cap_of c cs -> first_highest growth_of g cs ->
     growth_text NumberToString (row_growth_rate g) = inr rate ->
     exists billions s3,
       generate cs =
       inr [(row_name c ++ " leads in market capitalization with $" ++ billions ++ "B")%string;
            (row_name g ++ " shows highest growth rate at " ++ rate ++ "%")%string;
            s3]) /\
  (forall cs cs' s1 s2 s3,
     finite_keys (cap StringToNumber) cs -> finite_keys (growth StringToNumber) cs ->
     sole_top cap_of cs -> sole_top growth_of cs -> Permutation cs cs' ->
     generate cs = inr [s1; s2; s3] ->
     exists s3', generate cs' = inr [s1; s2; s3']).
Proof.
  intros generate cap_of growth_of. split; [|split].
  - intros cs out. apply three_insights.
  - intros cs c g rate Hcap Hgrowth Hc Hg Hrate.
    unfold generate.
    rewrite (insights_of_first_rows StringToNumber NumberToString cs c g
               (first_by_market_cap StringToNumber cs c Hcap Hc)
               (first_by_growth StringToNumber cs g Hgrowth Hg)), Hrate.
    eauto.
  - intros cs cs' s1 s2 s3 Hcap Hgrowth [c [Hc Hctop]] [g [Hg Hgtop]] Hperm Hout.
    assert (Hin : forall x, In x cs' -> In x cs)
      by (intros x; apply Permutation_in; now symmetry).
    assert (Hcap' : finite_keys (cap StringToNumber) cs') by (intros x Hx; auto).
    assert (Hgrowth' : finite_keys (growth StringToNumber) cs') by (intros x Hx; auto).
    unfold generate in *.
    rewrite (insights_of_first_rows StringToNumber NumberToString cs c g) in Hout.
    + rewrite (insights_of_first_rows StringToNumber NumberToString cs' c g).
      * destruct (growth_text NumberToString (row_growth_rate g)); [discriminate|].
        injection Hout as <- <- _. eauto.
      * apply first_by_market_cap; [exact Hcap'|].
        apply sole_top_first_highest; [now apply (Permutation_in _ Hperm)|auto].
      * apply first_by_growth; [exact Hgrowth'|].
        apply sole_top_first_highest; [now apply (Permutation_in _ Hperm)|auto].
    + apply first_by_market_cap; [exact Hcap|]. now apply sole_top_first_highest.
    + apply first_by_growth; [exact Hgrowth|]. now apply sole_top_first_highest.
Qed.

Lemma insights_order_independent_witness :
  let alpha := sample_row "Alpha" (integer 5000000000) (integer 1) (hundredths 50) in
  let beta := sample_row "Beta" (integer 2000000000) js_null (hundredths 90) in
  exists s3',
    generateComparisonInsights read_numeral plain_digits [beta; alpha]
    = inr ["Alpha leads in market capitalization with $5.0B";
           "Alpha shows highest growth rate at 1.0%"; s3']%string.
Proof.
  intros alpha beta.
  apply (proj2 (proj2 (insights_order_independent read_numeral plain_digits))
           [alpha; beta] [beta; alpha] _ _ "Overall market sentiment is positive"%string).
  - intros x [<-|[<-|[]]]; reflexivity.
  - intros x [<-|[<-|[]]]; reflexivity.
  - exists alpha. split; [now left|].
    intros x [<-|[<-|[]]]; [now left|right; vm_compute; reflexivity].
  - exists alpha. split; [now left|].
    intros x [<-|[<-|[]]]; [now left|right; vm_compute; reflexivity].
  - apply perm_swap.
  - vm_compute. reflexivity.
Defined.

(** C7: the rows the driver builds hold their growth rate as a string:
    when the row sorted first by growth rate has one, the optional call
    of [toFixed] throws, and the generator produces no string at all,
    whatever the market caps. *)
Theorem first_insight_lost_on_growth_text
  (StringToNumber : string -> number) (NumberToString : number -> string)
  (cs : list company_row) (g : company_row) (rate : string) :
  nth_error (Array_sort (by_growth StringToNumber) cs) 0 = Some g ->
  row_growth_rate g = js_string rate ->
  generateComparisonInsights StringToNumber NumberToString cs = inl not_a_function.
Proof.
  intros Hg Hrate.
  destruct (Array_sort_first_some (by_market_cap StringToNumber) cs) as [c Hc].
  { intros ->. discriminate. }
  rewrite (insights_of_first_rows StringToNumber NumberToString cs c g Hc Hg), Hrate.
  reflexivity.
Qed.

Lemma first_insight_lost_on_growth_text_witness :
  let alpha := sample_row "Alpha" (js_string "5000000000.00") (js_string "10.00") js_null in
  let beta := sample_row "Beta" (js_string "2000000000.00") (js_string "10.00") js_null in
  generateComparisonInsights read_numeral plain_digits [alpha; beta] = inl not_a_function.
Proof.
  intros alpha beta.
  apply (first_insight_lost_on_growth_text read_numeral plain_digits [alpha; beta] alpha "10.00").
  - reflexivity.
  - reflexivity.
Defined.

(** C8, as stated, fails: the label is no function of the mean.  The
    three scores 0.26, 0.01 and 0.93 have one mean in every order, but
    the sum the generator computes is rounded at each addition, and the
    label is "neutral" in this order and "negative" when 0.93 is added
    before 0.01. *)
Lemma sentiment_label_depends_on_order :
  let s26 := decimal_literal 26 2 in
  let s01 := decimal_literal 1 2 in
  let s93 := decimal_literal 93 2 in
  let row (s : number) := sample_row "A" (integer 1) js_null (js_number s) in
  mean_of [s26; s01; s93] == mean_of [s26; s93; s01] /\
  generateComparisonInsights read_numeral plain_digits [row s26; row s01; row s93]
  = inr ["A leads in market capitalization with $0.0B";
         "A shows highest growth rate at undefined%";
         "Overall market sentiment is neutral"]%string /\
  generateComparisonInsights read_numeral plain_digits [row s26; row s93; row s01]
  = inr ["A leads in market capitalization with $0.0B";
         "A shows highest growth rate at undefined%";
         "Overall market sentiment is negative"]%string.
Proof.
  intros s26 s01 s93 row. split; [|split].
  - vm_compute. reflexivity.
  - vm_compute. reflexivity.
  - vm_compute. reflexivity.
Qed.

(** C8, amended: on rows whose sentiments are numbers or [null], when the
    row sorted first by growth rate does not hold its rate as a string,
    the generator returns, and its third string classifies the mean it
    computes, the scores added from the left and the sum divided by the
    number of rows, each operation rounded, a sentiment that is [null],
    zero or NaN counted as zero: "positive" when that number is greater
    than 0.6, "neutral" when it is greater than 0.4 and not than 0.6,
    "negative" otherwise, which is also the label of NaN. *)
Theorem third_insight_classifies_computed_mean
  (StringToNumber : string -> number) (NumberToString : number -> string)
  (cs : list company_row) (scores : list number) :
  cs <> [] ->
  map score cs = map Some scores ->
  (forall g rate, nth_error (Array_sort (by_growth StringToNumber) cs) 0 = Some g ->
                  row_growth_rate g <> js_string rate) ->
  exists s1 s2 label,
    generateComparisonInsights StringToNumber NumberToString cs =
    inr [s1; s2; ("Overall market sentiment is " ++ label)%string] /\
    let mean := computed_mean scores in
    (num_lt (decimal_literal 6 1) mean = true -> label = "positive"%string) /\
    (num_lt (decimal_literal 6 1) mean = false ->
     num_lt (decimal_literal 4 1) mean = true -> label = "neutral"%string) /\
    (num_lt (decimal_literal 6 1) mean = false ->
     num_lt (decimal_literal 4 1) mean = false -> label = "negative"%string).
Proof.
  intros Hne Hscores Hrate.
  destruct (Array_sort_first_some (by_market_cap StringToNumber) cs Hne) as [c Hc].
  destruct (Array_sort_first_some (by_growth StringToNumber) cs Hne) as [g Hg].
  rewrite (insights_of_first_rows StringToNumber NumberToString cs c g Hc Hg).
  destruct (growth_text NumberToString (row_growth_rate g)) as [e|rate] eqn:E.
  { exfalso. destruct (row_growth_rate g) as [|x|t] eqn:R; try discriminate.
    exact (Hrate g t Hg R). }
  rewrite (mood_of_scores StringToNumber NumberToString cs scores Hscores).
  do 2 eexists. exists (sentiment_label (computed_mean scores)).
  split; [reflexivity|].
  cbv zeta. unfold sentiment_label.
  destruct (num_lt (decimal_literal 6 1) (computed_mean scores));
    [repeat split; intros; try reflexivity; discriminate|].
  destruct (num_lt (decimal_literal 4 1) (computed_mean scores));
    repeat split; intros; try reflexivity; discriminate.
Qed.

Lemma third_insight_classifies_computed_mean_witness :
  let cs := [sample_row "Alpha" (integer 5000000000) (integer 1) (hundredths 70);
             sample_row "Beta" (integer 2000000000) js_null js_null] in
  let scores := [decimal_literal 70 2; zero] in
  exists s1 s2 label,
    generateComparisonInsights read_numeral plain_digits cs =
    inr [s1; s2; ("Overall market sentiment is " ++ label)%string] /\
    let mean := computed_mean scores in
    (num_lt (decimal_literal 6 1) mean = true -> label = "positive"%string) /\
    (num_lt (decimal_literal 6 1) mean = false ->
     num_lt (decimal_literal 4 1) mean = true -> label = "neutral"%string) /\
    (num_lt (decimal_literal 6 1) mean = false ->
     num_lt (decimal_literal 4 1) mean = false -> label = "negative"%string).
Proof.
  intros cs scores.
  apply (third_insight_classifies_computed_mean read_numeral plain_digits cs scores).
  - discriminate.
  - reflexivity.
  - intros g rate Hg. vm_compute in Hg. injection Hg as <-. discriminate.
Defined.

(** C9: when the row sorted first by growth rate has no growth rate, the
    generator still returns its three strings; the second one shows
    "undefined" for the rate. *)
Theorem missing_growth_rate_returns
  (StringToNumber : string -> number) (NumberToString : number -> string)
  (cs : list company_row) (g : company_row) :
  cs <> [] ->
  nth_error (Array_sort (by_growth StringToNumber) cs) 0 = Some g ->
  row_growth_rate g = js_null ->
  exists s1 s3,
    generateComparisonInsights StringToNumber NumberToString cs =
    inr [s1; (row_name g ++ " shows highest growth rate at undefined%")%string; s3].
Proof.
  intros Hne Hg Hnone.
  destruct (Array_sort_first_some (by_market_cap StringToNumber) cs Hne) as [c Hc].
  rewrite (insights_of_first_rows StringToNumber NumberToString cs c g Hc Hg), Hnone.
  do 2 eexists. reflexivity.
Qed.

Lemma missing_growth_rate_returns_witness :
  let alpha := sample_row "Alpha" (js_string "5000000000.00") (js_string "-3.00")
                          (js_string "0.70") in
  let beta := sample_row "Beta" (js_string "2000000000.00") js_null js_null in
  exists s1 s3,
    generateComparisonInsights read_numeral plain_digits [alpha; beta] =
    inr [s1; (row_name beta ++ " shows highest growth rate at undefined%")%string; s3].
Proof.
  intros alpha beta.
  apply (missing_growth_rate_returns read_numeral plain_digits [alpha; beta] beta).
  - discriminate.
  - reflexivity.
  - reflexivity.
Defined.

(* ====================================================================== *)
(** * The SQL operators *)
(* ====================================================================== *)

Lemma flat_map_flat_map {A B C : Type} (f : A -> list B) (g : B -> list C) (l : list A) :
  flat_map g (flat_map f l) = flat_map (fun x => flat_map g (f x)) l.
Proof.
  induction l as [|x l IH]; simpl; [reflexivity|].
  now rewrite flat_map_app, IH.
Qed.

Lemma flat_map_map {A B C : Type} (f : A -> B) (g : B -> list C) (l : list A) :
  flat_map g (map f l) = flat_map (fun x => g (f x)) l.
Proof. induction l as [|x l IH]; simpl; [reflexivity|now rewrite IH]. Qed.

Lemma map_flat_map {A B C : Type} (f : A -> list B) (g : B -> C) (l : list A) :
  map g (flat_map f l) = flat_map (fun x => map g (f x)) l.
Proof.
  induction l as [|x l IH]; simpl; [reflexivity|].
  now rewrite map_app, IH.
Qed.

Lemma filter_none {A : Type} (p : A -> bool) (l : list A) :
  (forall x, In x l -> p x = false) -> filter p l = [].
Proof.
  induction l as [|x l IH]; intros H; simpl; [reflexivity|].
  rewrite (H x (or_introl eq_refl)). apply IH. intros y Hy. apply H. now right.
Qed.

Lemma filter_all {A : Type} (p : A -> bool) (l : list A) :
  (forall x, In x l -> p x = true) -> filter p l = l.
Proof.
  induction l as [|x l IH]; intros H; simpl; [reflexivity|].
  rewrite (H x (or_introl eq_refl)). f_equal. apply IH. intros y Hy. apply H. now right.
Qed.

Lemma filter_flat_map {A B : Type} (p : B -> bool) (q : A -> bool) (f : A -> list B)
  (l : list A) :
  (forall x y, In y (f x) -> p y = q x) ->
  filter p (flat_map f l) = flat_map f (filter q l).
Proof.
  intros H. induction l as [|x l IH]; simpl; [reflexivity|].
  rewrite filter_app, IH. destruct (q x) eqn:E; simpl.
  - f_equal. apply filter_all. intros y Hy. now rewrite (H x y Hy).
  - rewrite filter_none; [reflexivity|].
    intros y Hy. now rewrite (H x y Hy).
Qed.

Lemma filter_twice {A : Type} (p q : A -> bool) (l : list A) :
  filter q (filter p l) = filter (fun x => p x && q x) l.
Proof.
  induction l as [|x l IH]; simpl; [reflexivity|].
  destruct (p x); simpl; [destruct (q x)|]; now rewrite IH.
Qed.

(** ** Left joins *)

Lemma matches_not_empty {L R : Type} (on : L -> R -> bool) (l : L) (rs : list R) :
  matches on l rs <> [].
Proof. unfold matches. destruct (filter (on l) rs); discriminate. Qed.

(** A column of the right side, over the matches of a left row and over
    the right rows that satisfy the condition, has the same values. *)
Lemma matches_values {L R B : Type} (on : L -> R -> bool) (g : R -> option B)
  (l : L) (rs : list R) :
  non_null (map (opt g) (matches on l rs)) = non_null (map g (filter (on l) rs)).
Proof.
  unfold matches. destruct (filter (on l) rs) as [|r ms]; [reflexivity|].
  now rewrite map_map.
Qed.

Lemma non_null_when {R B : Type} (p : R -> bool) (v : R -> option B) (rs : list R) :
  non_null (map (fun r => if p r then v r else None) rs)
  = non_null (map v (filter p rs)).
Proof.
  induction rs as [|r rs IH]; simpl; [reflexivity|].
  destruct (p r); simpl; now rewrite IH.
Qed.

(** ** Averages *)

Lemma total_app (a b : list Q) : total (a ++ b) == total a + total b.
Proof.
  induction a as [|x a IH]; simpl; [ring|]. rewrite IH. ring.
Qed.

Lemma average_scaled (xs ys : list Q) (k : nat) :
  (0 < k)%nat ->
  List.length ys = (k * List.length xs)%nat ->
  total ys == inject_Z (Z.of_nat k) * total xs ->
  average ys = average xs.
Proof.
  intros Hk Hlen Htot. destruct xs as [|x xs].
  - destruct ys; [reflexivity|]. simpl in Hlen. lia.
  - destruct ys as [|y ys]; [simpl in Hlen; lia|].
    unfold average. f_equal. apply Qred_complete.
    rewrite Htot, Hlen, Nat2Z.inj_mul, inject_Z_mult.
    set (n := List.length (x :: xs)).
    assert (Hn : ~ inject_Z (Z.of_nat n) == 0).
    { unfold n. simpl List.length. intros H.
      apply (Qlt_irrefl 0). rewrite <- H at 2.
      rewrite <- (Zlt_Qlt 0). lia. }
    assert (Hk' : ~ inject_Z (Z.of_nat k) == 0).
    { intros H. apply (Qlt_irrefl 0). rewrite <- H at 2.
      rewrite <- (Zlt_Qlt 0). lia. }
    field. split; assumption.
Qed.

(** Every value copied once per row of [ns]. *)
Lemma average_fan_out {B : Type} (vs : list Q) (ns : list B) :
  ns <> [] -> average (flat_map (fun v => map (fun _ => v) ns) vs) = average vs.
Proof.
  intros Hne. apply average_scaled with (k := List.length ns).
  - destruct ns; [congruence|simpl; lia].
  - induction vs as [|v vs IH]; simpl; [lia|].
    rewrite length_app, length_map, IH. lia.
  - induction vs as [|v vs IH]; simpl; [ring|].
    rewrite total_app, IH.
    assert (E : total (map (fun _ => v) ns) == inject_Z (Z.of_nat (List.length ns)) * v).
    { clear. induction ns as [|n ns IH]; [simpl; ring|].
      cbn [map total fold_right List.length]. fold (total (map (fun _ : B => v) ns)).
      rewrite IH, Nat2Z.inj_succ. unfold Z.succ. rewrite inject_Z_plus. ring. }
    rewrite E. ring.
Qed.

(** The whole list copied once per row of [fs]. *)
Lemma average_copies {B : Type} (ys : list Q) (fs : list B) :
  fs <> [] -> average (flat_map (fun _ => ys) fs) = average ys.
Proof.
  intros Hne. apply average_scaled with (k := List.length fs).
  - destruct fs; [congruence|simpl; lia].
  - clear. induction fs as [|f fs IH]; simpl; [lia|].
    rewrite length_app, IH. lia.
  - clear. induction fs as [|f fs IH]; [simpl; ring|].
    cbn [flat_map List.length]. rewrite total_app, IH, Nat2Z.inj_succ.
    unfold Z.succ. rewrite inject_Z_plus. ring.
Qed.

(** ** Grouping *)

Section GroupByFacts.
Context {C R K : Type}.
Variable key : R -> K.
Variable key_eqb : K -> K -> bool.
Variable rows_of : C -> list R.
Variable key_of : C -> K.

Hypothesis key_eqb_refl : forall k, key_eqb k k = true.
Hypothesis rows_not_empty : forall c, rows_of c <> [].
Hypothesis rows_key : forall c r, In r (rows_of c) -> key r = key_of c.

Lemma distinct_same_key (rows : list R) (k : K) (ks : list K) :
  rows <> [] -> (forall r, In r rows -> key r = k) ->
  distinct key_eqb (map key rows ++ ks)
  = k :: filter (fun k' => negb (key_eqb k' k)) (distinct key_eqb ks).
Proof.
  induction rows as [|r rows IH]; intros Hne Hk; [congruence|].
  simpl. rewrite (Hk r (or_introl eq_refl)). f_equal.
  destruct rows as [|r' rows]; [reflexivity|].
  rewrite IH; [|discriminate|intros x Hx; apply Hk; now right].
  simpl. rewrite key_eqb_refl. simpl.
  rewrite filter_twice. apply filter_ext. intros k'.
  now destruct (key_eqb k' k).
Qed.

Lemma distinct_keys (l : list C) :
  ForallOrdPairs (apart key_eqb key_of) l ->
  distinct key_eqb (map key (flat_map rows_of l)) = map key_of l.
Proof.
  induction 1 as [|c l Hc Hl IH]; simpl; [reflexivity|].
  rewrite map_app, (distinct_same_key (rows_of c) (key_of c));
    [|apply rows_not_empty|apply rows_key].
  rewrite IH. f_equal. apply filter_all.
  intros k Hk. apply in_map_iff in Hk. destruct Hk as [c' [<- Hc']].
  rewrite Forall_forall in Hc. destruct (Hc c' Hc') as [_ E]. now rewrite E.
Qed.

Lemma group_rows (l : list C) (c : C) :
  ForallOrdPairs (apart key_eqb key_of) l -> In c l ->
  filter (fun r => key_eqb (key r) (key_of c)) (flat_map rows_of l) = rows_of c.
Proof.
  induction 1 as [|c0 l Hc Hl IH]; intros Hin; [destruct Hin|].
  simpl. rewrite filter_app. rewrite Forall_forall in Hc.
  destruct Hin as [->|Hin].
  - rewrite filter_all
      by (intros r Hr; rewrite (rows_key c r Hr); apply key_eqb_refl).
    rewrite filter_none; [apply app_nil_r|].
    intros r Hr. apply in_flat_map in Hr. destruct Hr as [c' [Hc' Hr]].
    rewrite (rows_key c' r Hr). apply (Hc c' Hc').
  - rewrite filter_none; [now rewrite IH|].
    intros r Hr. rewrite (rows_key c0 r Hr). apply (Hc c Hin).
Qed.

(** Rows that come source by source, with keys apart, are grouped
    source by source. *)
Lemma group_by_sources (l : list C) :
  ForallOrdPairs (apart key_eqb key_of) l ->
  group_by key key_eqb (flat_map rows_of l)
  = map (fun c => (key_of c, rows_of c)) l.
Proof.
  intros H. unfold group_by. rewrite (distinct_keys l H), map_map.
  apply map_ext_in. intros c Hc. now rewrite (group_rows l c H Hc).
Qed.
End GroupByFacts.

(* ====================================================================== *)
(** * The comparison statement *)
(* ====================================================================== *)

Lemma group_key_eqb_refl (k : group_key) : group_key_eqb k k = true.
Proof.
  destruct k as [[[i n] t] m]. simpl.
  rewrite Z.eqb_refl, String.eqb_refl. simpl.
  destruct t as [t|]; simpl; [rewrite String.eqb_refl|];
    destruct m as [m|]; simpl; try reflexivity; apply Qeq_bool_refl.
Qed.

(** The joined rows, company by company. *)
Lemma compare_joined_fan_out (now : Z) (companyIds : list Z) (d : database) :
  compare_joined now companyIds d = flat_map (fan_out now d) (selected companyIds d).
Proof.
  unfold compare_joined, left_join, selected.
  rewrite flat_map_flat_map.
  rewrite (filter_flat_map _ (fun c => existsb (Z.eqb (company_id c)) companyIds)).
  - apply flat_map_ext. intros c. now rewrite flat_map_map.
  - intros c r Hr. rewrite flat_map_map in Hr.
    apply in_flat_map in Hr. destruct Hr as [f [_ Hr]].
    apply in_map_iff in Hr. destruct Hr as [n [<- _]]. reflexivity.
Qed.

Lemma fan_out_not_empty (now : Z) (d : database) (c : company) : fan_out now d c <> [].
Proof.
  unfold fan_out.
  pose proof (matches_not_empty
    (fun c fm => sql_eq Z.eqb (Some (company_id c)) (metric_company_id fm))
    c (financial_metrics d)) as Hf.
  pose proof (matches_not_empty
    (fun c ns => sql_eq Z.eqb (Some (company_id c)) (news_company_id ns) && recent now ns)
    c (news_sentiment d)) as Hn.
  fold (metrics_of d c) in Hf. fold (news_of now d c) in Hn.
  destruct (metrics_of d c) as [|f fs]; [congruence|].
  destruct (news_of now d c) as [|n ns]; [congruence|]. discriminate.
Qed.

Lemma fan_out_key (now : Z) (d : database) (c : company) (r : joined) :
  In r (fan_out now d c) ->
  compare_key r = (company_id c, name c, ticker_symbol c, market_cap c).
Proof.
  intros Hr. apply in_flat_map in Hr. destruct Hr as [f [_ Hr]].
  apply in_map_iff in Hr. destruct Hr as [n [<- _]]. reflexivity.
Qed.

Lemma companies_apart (l : list company) :
  NoDup (map company_id l) ->
  ForallOrdPairs
    (apart group_key_eqb
           (fun c => (company_id c, name c, ticker_symbol c, market_cap c))) l.
Proof.
  induction l as [|c l IH]; intros H; [constructor|].
  inversion H as [|i ids Hnot Hnd]; subst. constructor; [|now apply IH].
  apply Forall_forall. intros c' Hc'.
  assert (Hneq : company_id c <> company_id c').
  { intros E. apply Hnot. rewrite E. now apply in_map. }
  unfold apart. simpl. split.
  - replace (company_id c =? company_id c')%Z with false; [reflexivity|].
    symmetry. now apply Z.eqb_neq.
  - replace (company_id c' =? company_id c)%Z with false; [reflexivity|].
    symmetry. apply Z.eqb_neq. congruence.
Qed.

Lemma selected_ids_distinct (companyIds : list Z) (d : database) :
  NoDup (map company_id (companies d)) ->
  NoDup (map company_id (selected companyIds d)).
Proof.
  unfold selected. generalize (companies d) as cs.
  induction cs as [|c cs IH]; intros Hkey; [constructor|].
  apply NoDup_cons_iff in Hkey. destruct Hkey as [Hfresh Hrest]. simpl.
  destruct (existsb (Z.eqb (company_id c)) companyIds); [|now apply IH].
  simpl. apply NoDup_cons_iff. split; [|now apply IH].
  intros Hin. apply Hfresh. apply in_map_iff in Hin.
  destruct Hin as [c' [E Hc']]. apply filter_In in Hc'.
  rewrite <- E. apply in_map. tauto.
Qed.

(** The averages over the joined rows of a company are the averages over
    its metrics and over its recent news. *)
Lemma metric_average (now : Z) (d : database) (c : company) (t : string) :
  sql_avg (map (fun r : joined => value_of_type t (snd (fst r))) (fan_out now d c))
  = average (metric_values t c d).
Proof.
  unfold sql_avg, fan_out. rewrite map_flat_map.
  assert (E : forall f : option financial_metric,
            map (fun r : joined => value_of_type t (snd (fst r)))
                (map (fun n => (c, f, n)) (news_of now d c))
            = map (fun _ => value_of_type t f) (news_of now d c))
    by (intros f; now rewrite map_map).
  rewrite (flat_map_ext _ _ E). clear E.
  assert (E : non_null (flat_map (fun f => map (fun _ => value_of_type t f) (news_of now d c))
                                 (metrics_of d c))
            = flat_map (fun v => map (fun _ => v) (news_of now d c))
                       (non_null (map (value_of_type t) (metrics_of d c)))).
  { induction (metrics_of d c) as [|f fs IH]; [reflexivity|].
    cbn [flat_map map]. unfold non_null at 1. rewrite flat_map_app.
    fold (non_null (flat_map (fun f0 => map (fun _ => value_of_type t f0) (news_of now d c)) fs)).
    rewrite IH. unfold non_null at 2. cbn [flat_map].
    rewrite flat_map_app. f_equal.
    destruct (value_of_type t f) as [v|]; simpl.
    - rewrite app_nil_r. clear IH.
      induction (news_of now d c) as [|n ns IHn]; simpl; congruence.
    - clear IH. induction (news_of now d c) as [|n ns IHn]; simpl; congruence. }
  rewrite E, average_fan_out by apply matches_not_empty.
  f_equal. unfold metrics_of, metric_values.
  rewrite <- filter_twice, <- non_null_when.
  rewrite <- (matches_values
    (fun c fm => sql_eq Z.eqb (Some (company_id c)) (metric_company_id fm))
    (fun m => if sql_eq String.eqb (metric_type m) (Some t) then metric_value m else None)).
  reflexivity.
Qed.

Lemma sentiment_average (now : Z) (d : database) (c : company) :
  sql_avg (map (fun r : joined => opt sentiment_score (snd r)) (fan_out now d c))
  = average (recent_scores now c d).
Proof.
  unfold sql_avg, fan_out. rewrite map_flat_map.
  assert (E : forall f : option financial_metric,
            map (fun r : joined => opt sentiment_score (snd r))
                (map (fun n => (c, f, n)) (news_of now d c))
            = map (opt sentiment_score) (news_of now d c))
    by (intros f; now rewrite map_map).
  rewrite (flat_map_ext _ _ E). clear E.
  assert (E : non_null (flat_map (fun _ => map (opt sentiment_score) (news_of now d c))
                                 (metrics_of d c))
            = flat_map (fun _ => non_null (map (opt sentiment_score) (news_of now d c)))
                       (metrics_of d c)).
  { induction (metrics_of d c) as [|f fs IH]; [reflexivity|].
    cbn [flat_map]. unfold non_null at 1. rewrite flat_map_app.
    fold (non_null (flat_map (fun _ => map (opt sentiment_score) (news_of now d c)) fs)).
    now rewrite IH. }
  rewrite E, average_copies by apply matches_not_empty.
  f_equal. apply matches_values.
Qed.

(** The rows the comparison statement returns: one per selected company,
    with the averages of that company. *)
Lemma compare_rows (now : Z) (companyIds : list Z) (d : database) :
  NoDup (map company_id (companies d)) ->
  compareQuery now companyIds d
  = (inr (map (summary now d) (selected companyIds d)), d).
Proof.
  intros Hkey. unfold compareQuery. f_equal. f_equal.
  rewrite compare_joined_fan_out.
  rewrite (group_by_sources compare_key group_key_eqb (fan_out now d)
             (fun c => (company_id c, name c, ticker_symbol c, market_cap c))).
  - rewrite map_map. apply map_ext. intros c.
    unfold compare_select, summary. cbn [fst snd].
    now rewrite !metric_average, sentiment_average.
  - apply group_key_eqb_refl.
  - apply fan_out_not_empty.
  - apply fan_out_key.
  - apply companies_apart. now apply selected_ids_distinct.
Qed.

(* ====================================================================== *)
(** * The comparison endpoint *)
(* ====================================================================== *)

Lemma world_eta (w : world) : {| db := db w; console := console w |} = w.
Proof. now destruct w. Qed.


(** The comparison with the pool up, once the ids have passed the
    check: the rows of the statement, and what the generator makes of
    them. *)
Lemma compare_runs
  (numeric_out : Q -> string) (StringToNumber : string -> number)
  (NumberToString : number -> string) (now : Z) (req : compare_request)
  (ids : list Z) (w : world) :
  NoDup (map company_id (companies (db w))) ->
  companyIds req = Some ids ->
  (2 <= List.length ids)%nat ->
  let rows := map (row_of numeric_out) (map (summary now (db w)) (selected ids (db w))) in
  compare numeric_out StringToNumber NumberToString None now req w =
  match generateComparisonInsights StringToNumber NumberToString rows with
  | inr insights =>
      (inr {| status_code := 200; body := json_comparison rows insights |}, w)
  | inl error =>
      (inr {| status_code := 500; body := json_error "Failed to compare companies" |},
       {| db := db w;
          console := console w ++ [console_error "Error comparing companies:" error] |})
  end.
Proof.
  intros Hkey Hids Hlen rows. unfold compare, try_catch. rewrite Hids.
  replace (List.length ids <? 2)%nat with false by (symmetry; apply Nat.ltb_ge; lia).
  unfold bind, pool_query. rewrite (compare_rows now ids (db w) Hkey).
  fold rows. rewrite world_eta.
  destruct (generateComparisonInsights StringToNumber NumberToString rows); reflexivity.
Qed.



(** C10: a request with at least two company ids, none of which is the id
    of a company, gets no row from the database; the generator throws on
    the empty array, the catch branch logs the error and answers 500. *)
Theorem compare_unknown_ids_fails
  (numeric_out : Q -> string) (StringToNumber : string -> number)
  (NumberToString : number -> string) (fault : option string) (now : Z)
  (req : compare_request) (ids : list Z) (w : world) :
  companyIds req = Some ids ->
  (2 <= List.length ids)%nat ->
  (forall c, In c (companies (db w)) -> ~ In (company_id c) ids) ->
  compareQuery now ids (db w) = (inr [], db w) /\
  exists error,
    compare numeric_out StringToNumber NumberToString fault now req w =
    (inr {| status_code := 500; body := json_error "Failed to compare companies" |},
     {| db := db w;
        console := console w ++ [console_error "Error comparing companies:" error] |}) /\
    (fault = None -> error = undefined_name).
Proof.
  intros Hids Hlen Hnone.
  assert (Hsel : selected ids (db w) = []).
  { unfold selected. apply filter_none. intros c Hc.
    apply not_true_is_false. intros E. apply existsb_exists in E.
    destruct E as [i [Hi E]]. apply Z.eqb_eq in E. subst i.
    exact (Hnone c Hc Hi). }
  assert (Hq : compareQuery now ids (db w) = (inr [], db w)).
  { unfold compareQuery. now rewrite compare_joined_fan_out, Hsel. }
  split; [exact Hq|].
  unfold compare, try_catch. rewrite Hids.
  replace (List.length ids <? 2)%nat with false by (symmetry; apply Nat.ltb_ge; lia).
  unfold bind, pool_query. destruct fault as [e|].
  - exists (DatabaseError e). split; [reflexivity|discriminate].
  - rewrite Hq. exists undefined_name. split; [reflexivity|reflexivity].
Qed.

Lemma compare_unknown_ids_fails_witness :
  let req := {| companyIds := Some [7%Z; 8%Z]; metrics := None |} in
  let w := {| db := market_database; console := [] |} in
  compareQuery 100 [7%Z; 8%Z] (db w) = (inr [], db w) /\
  exists error,
    compare two_decimals read_numeral plain_digits None 100 req w =
    (inr {| status_code := 500; body := json_error "Failed to compare companies" |},
     {| db := db w;
        console := console w ++ [console_error "Error comparing companies:" error] |}) /\
    (@None string = None -> error = undefined_name).
Proof.
  intros req w.
  apply (compare_unknown_ids_fails two_decimals read_numeral plain_digits None 100 req
           [7%Z; 8%Z] w).
  - reflexivity.
  - simpl. lia.
  - intros c [<-|[<-|[]]]; simpl; intuition discriminate.
Defined.

(* ====================================================================== *)
(** * The industry analysis *)
(* ====================================================================== *)

(** No industry with the code: the answer is the empty object. *)
Lemma industry_analysis_unknown_code (code : string) (w : world) :
  (forall i, In i (industries (db w)) ->
             sql_eq String.eqb (industry_naics_code i) (Some code) = false) ->
  industry_analysis None code w =
  (inr {| status_code := 200; body := json_analysis None |}, w).
Proof.
  intros Hnone.
  assert (Hrows : industry_rows code (db w) = []).
  { unfold industry_rows. apply filter_none. intros r Hr.
    unfold left_join in Hr. apply in_flat_map in Hr. destruct Hr as [ic [Hic Hr]].
    apply in_map_iff in Hr. destruct Hr as [f [<- _]].
    apply in_flat_map in Hic. destruct Hic as [i [Hi Hic]].
    apply in_map_iff in Hic. destruct Hic as [c [<- _]].
    simpl. now apply Hnone. }
  unfold industry_analysis, try_catch, bind, pool_query, industryQuery.
  rewrite Hrows. simpl. now rewrite world_eta.
Qed.

(** An industry without companies: a count of zero and no averages. *)
Example industry_analysis_no_company :
  let d := {| users := []; users_id_seq := 1; companies := [];
              financial_metrics := []; news_sentiment := [];
              industries := [{| industry_naics_code := Some "5112"%string;
                                industry_title := Some "Software"%string |}] |} in
  fst (industry_analysis None "5112" {| db := d; console := [] |}) =
  inr {| status_code := 200;
         body := json_analysis (Some {| analysis_industry_title := Some "Software"%string;
                                        company_count := 0;
                                        avg_market_cap := None;
                                        avg_growth_rate := None |}) |}.
Proof. reflexivity. Qed.

(** C4: [company_count] counts joined rows, not companies: one company
    with two 'revenue_growth' metrics is counted twice. *)
Theorem company_count_counts_metric_rows :
  let w := {| db := software_database; console := [] |} in
  List.length (filter (fun c => sql_eq String.eqb (naics_code c) (Some "5112"%string))
                      (companies software_database)) = 1%nat /\
  exists row,
    industry_analysis None "5112" w =
    (inr {| status_code := 200; body := json_analysis (Some row) |}, w) /\
    company_count row = 2%Z.
Proof.
  split; [reflexivity|].
  eexists. split; [vm_compute; reflexivity|reflexivity].
Qed.

(* ====================================================================== *)
(** * The Stripe webhook *)
(* ====================================================================== *)



(** ** The route *)

Section Route.
Variable has_body : http_request -> bool.
Variable is_json : http_request -> bool.
Variable read_body : http_request -> Z + string.
Variable JSON_parse : string -> option json.

(** The two parsers share their tests: what the first has not read, the
    second does not read either, and what the first has read is marked
    as read.  The handler never finds the bytes of the body. *)
Lemma parsers_leave_no_buffer (r : http_request) (r1 r2 : parsing) :
  express_json has_body is_json read_body JSON_parse
    {| incoming := r; body_of := unset; body_read := false |} = next r1 ->
  express_raw has_body is_json read_body r1 = next r2 ->
  exists value, body_of r2 = parsed value.
Proof.
  unfold express_json, express_raw, body_parser. cbn [body_read incoming body_of or_empty].
  destruct (has_body r) eqn:Hb; cbn [negb].
  - destruct (is_json r) eqn:Hj; cbn [negb].
    + destruct (read_body r) as [status|bytes]; [discriminate|].
      destruct (String.eqb bytes "").
      * intros [= <-]. cbn [body_read]. intros [= <-]. cbn [body_of]. eauto.
      * destruct (JSON_parse bytes) as [v|]; [|discriminate].
        intros [= <-]. cbn [body_read]. intros [= <-]. cbn [body_of]. eauto.
    + intros [= <-]. cbn [body_read incoming body_of or_empty]. rewrite Hb, Hj.
      cbn [negb]. intros [= <-]. cbn [body_of]. eauto.
  - intros [= <-]. cbn [body_read incoming body_of or_empty]. rewrite Hb.
    cbn [negb]. intros [= <-]. cbn [body_of]. eauto.
Qed.

Variable verify : string -> option string -> option string -> string + event.
Variable rejection : body_value -> option string -> option string -> string.
Variable STRIPE_WEBHOOK_SECRET : option string.
Variable error_page : Z -> string.

Let route :=
  webhook_route verify rejection STRIPE_WEBHOOK_SECRET
                has_body is_json read_body JSON_parse error_page.

(** What the route does with a request: a parser fails and the error
    handler answers, or the handler runs on an object, and the verifier
    rejects it. *)
Lemma webhook_route_outcome (fault : option string) (now : Z) (r : http_request)
  (w : world) :
  (exists status,
     route fault now r w =
     (inr {| status_code := status; body := text (error_page status) |}, w)) \/
  (exists value,
     let message := rejection (parsed value)
                              (property "stripe-signature" (http_headers r))
                              STRIPE_WEBHOOK_SECRET in
     route fault now r w =
     (inr {| status_code := 400; body := text ("Webhook Error: " ++ message) |},
      {| db := db w;
         console := console w
           ++ [console_log ["Webhook signature verification failed."%string; message]] |})).
Proof.
  unfold route, webhook_route.
  destruct (express_json has_body is_json read_body JSON_parse _) as [r1|status] eqn:E1;
    [|left; now exists status].
  destruct (express_raw has_body is_json read_body r1) as [r2|status] eqn:E2;
    [|left; now exists status].
  destruct (parsers_leave_no_buffer r r1 r2 E1 E2) as [value Hv].
  right. exists value. unfold stripe_webhook. cbn [headers req_body].
  rewrite Hv. reflexivity.
Qed.
End Route.

(** C2: the parser of every route has read the body when the webhook
    route runs its own, so that the handler receives an object, not the
    bytes, and the verifier rejects it.  A request whose signature is
    that of its body is answered 400, not 200 with [{received: true}],
    unless a parser has failed on it and answered before; no handler is
    called, and the database is as it was.  For a body of type JSON that
    parses, the answer is the 400 of the handler. *)
Theorem signed_webhook_rejected
  (verify : string -> option string -> option string -> string + event)
  (rejection : body_value -> option string -> option string -> string)
  (STRIPE_WEBHOOK_SECRET : option string)
  (has_body is_json : http_request -> bool) (read_body : http_request -> Z + string)
  (JSON_parse : string -> option json) (error_page : Z -> string)
  (fault : option string) (now : Z) (r : http_request) (w : world)
  (bytes : string) (ev : event) :
  let route :=
    webhook_route verify rejection STRIPE_WEBHOOK_SECRET
                  has_body is_json read_body JSON_parse error_page in
  read_body r = inr bytes ->
  verify bytes (property "stripe-signature" (http_headers r)) STRIPE_WEBHOOK_SECRET
  = inr ev ->
  (exists answer w',
     route fault now r w = (inr answer, w') /\
     answer <> acknowledged /\ db w' = db w) /\
  (forall value,
     has_body r = true -> is_json r = true ->
     bytes <> ""%string -> JSON_parse bytes = Some value ->
     exists message w',
       route fault now r w =
       (inr {| status_code := 400; body := text ("Webhook Error: " ++ message) |}, w') /\
       db w' = db w).
Proof.
  intros route Hread Hsigned. split.
  - destruct (webhook_route_outcome has_body is_json read_body JSON_parse
                verify rejection STRIPE_WEBHOOK_SECRET error_page fault now r w)
      as [[status H]|[value H]]; fold route in H; rewrite H.
    + do 2 eexists. split; [reflexivity|]. split; [discriminate|reflexivity].
    + do 2 eexists. split; [reflexivity|]. split; [discriminate|reflexivity].
  - intros value Hb Hj Hne Hparse.
    unfold route, webhook_route, express_json, express_raw, body_parser.
    cbn [body_read incoming body_of or_empty]. rewrite Hb, Hj, Hread. cbn [negb].
    apply String.eqb_neq in Hne. rewrite Hne, Hparse. cbn [body_read body_of].
    unfold stripe_webhook. cbn [headers req_body constructEvent].
    do 2 eexists. split; reflexivity.
Qed.

Lemma signed_webhook_rejected_witness :
  let bytes := "{}"%string in
  let r := {| http_headers := [("content-type"%string, "application/json"%string);
                               ("stripe-signature"%string, ("v1=" ++ bytes)%string)];
              http_body := Some bytes |} in
  let ev := checkout_completed (sample_session "cus_1" "sub_1" "pro") in
  let w := {| db := empty_database; console := [] |} in
  example_verify [(bytes, ev)] bytes (Some ("v1=" ++ bytes)%string) None = inr ev /\
  exists message w',
    webhook_route (example_verify [(bytes, ev)]) example_rejection None
                  example_has_body example_is_json example_read_body example_JSON_parse
                  example_error_page None 0 r w =
    (inr {| status_code := 400; body := text ("Webhook Error: " ++ message) |}, w') /\
    db w' = db w.
Proof.
  intros bytes r ev w. split; [reflexivity|].
  apply (proj2 (signed_webhook_rejected (example_verify [(bytes, ev)]) example_rejection None
                  example_has_body example_is_json example_read_body example_JSON_parse
                  example_error_page None 0 r w bytes ev eq_refl eq_refl)
               (json_object [])); try reflexivity.
  discriminate.
Defined.

(* ====================================================================== *)
(** * The upsert of a user *)
(* ====================================================================== *)

(** ** Values that fit their column *)

Lemma split_at_fits (n : nat) (s : string) :
  (characters s <= n)%nat -> split_at n s = (s, EmptyString).
Proof.
  revert n. induction s as [|b s IH]; intros n H; [reflexivity|].
  simpl in *. destruct (continuation b).
  - now rewrite (IH n H).
  - destruct n as [|n]; [lia|]. rewrite (IH n) by lia. reflexivity.
Qed.

Lemma fits_not_too_long (n : nat) (v : option string) : fits n v -> too_long n v = false.
Proof.
  destruct v as [s|]; [|reflexivity]. simpl. intros H.
  now rewrite (split_at_fits n s H).
Qed.

Lemma fits_stored (n : nat) (v : option string) : fits n v -> stored n v = v.
Proof.
  destruct v as [s|]; [|reflexivity]. simpl. intros H.
  now rewrite (split_at_fits n s H).
Qed.

(** With values that fit, the statement is the one on the values. *)
Lemma upsert_user_fits (now : Z) (p1 p2 p3 p4 : option string) (d : database) :
  fits 255 p1 -> fits 255 p2 -> fits 50 p3 -> fits 50 p4 ->
  upsert_user now p1 p2 p3 p4 d = upsert_row now p1 p2 p3 p4 d.
Proof.
  intros H1 H2 H3 H4. unfold upsert_user.
  rewrite !fits_not_too_long, !fits_stored by assumption. reflexivity.
Qed.

Lemma active_fits : fits 50 (Some "active"%string).
Proof. simpl. lia. Qed.

(** ** The rows of a customer *)


Lemma rows_of_customer_none (c : string) (us : list user) :
  rows_of_customer c us = [] -> existsb (has_customer c) us = false.
Proof.
  intros H. apply not_true_is_false. intros E.
  apply existsb_exists in E. destruct E as [u [Hu E]].
  assert (Hin : In u (rows_of_customer c us)) by (apply filter_In; tauto).
  rewrite H in Hin. destruct Hin.
Qed.

Lemma rows_of_customer_some (c : string) (us : list user) (u : user) :
  rows_of_customer c us = [u] -> existsb (has_customer c) us = true.
Proof.
  intros H. apply existsb_exists. exists u.
  assert (Hin : In u (rows_of_customer c us)) by (rewrite H; now left).
  apply filter_In in Hin. tauto.
Qed.

Lemma fresh_id (d : database) :
  (forall u, In u (users d) -> (user_id u < users_id_seq d)%Z) ->
  existsb (fun u => (user_id u =? users_id_seq d)%Z) (users d) = false.
Proof.
  intros Hseq. apply not_true_is_false. intros E.
  apply existsb_exists in E. destruct E as [u [Hu E]].
  apply Z.eqb_eq in E. specialize (Hseq u Hu). lia.
Qed.

(** A customer without a row gets one, at the end of the table. *)
Lemma upsert_row_inserts (now : Z) (c : string) (v2 v3 v4 : option string) (d : database) :
  (forall u, In u (users d) -> (user_id u < users_id_seq d)%Z) ->
  rows_of_customer c (users d) = [] ->
  upsert_row now (Some c) v2 v3 v4 d =
  (inr tt, set_users (users d ++ [new_user (users_id_seq d) now (Some c) v2 v3 v4])
                     (users_id_seq d + 1) d).
Proof.
  intros Hseq Hnone. unfold upsert_row.
  now rewrite (rows_of_customer_none c _ Hnone), (fresh_id d Hseq).
Qed.

(** A customer with a row has that row updated. *)
Lemma upsert_row_updates (now : Z) (c : string) (v2 v3 v4 : option string) (d : database)
  (u : user) :
  rows_of_customer c (users d) = [u] ->
  upsert_row now (Some c) v2 v3 v4 d =
  (inr tt, set_users
             (map (fun u => if has_customer c u then with_subscription v2 v3 v4 u else u)
                  (users d))
             (users_id_seq d + 1) d).
Proof.
  intros Hone. unfold upsert_row.
  now rewrite (rows_of_customer_some c _ u Hone).
Qed.


Lemma rows_of_customer_app (c : string) (us vs : list user) :
  rows_of_customer c (us ++ vs) = (rows_of_customer c us ++ rows_of_customer c vs)%list.
Proof. apply filter_app. Qed.

(** The handler, when nothing fails. *)
Lemma handleSuccessfulPayment_saves (now : Z) (session : stripe_object)
  (m : list (string * string)) (d : database) (w : world) :
  metadata session = present m ->
  upsert_user now (customer session) (subscription session) (property "planId" m)
              (Some "active"%string) (db w) = (inr tt, d) ->
  handleSuccessfulPayment None now session w =
  (inr tt, {| db := d;
              console := console w
                         ++ [console_log ["User subscription saved successfully"%string]] |}).
Proof.
  intros Hm Hq. unfold handleSuccessfulPayment, try_catch, bind, pool_query, ret, print.
  rewrite Hm, Hq. reflexivity.
Qed.

(** The handler on a session with metadata and values that fit. *)
Lemma handleSuccessfulPayment_fits (now : Z) (session : stripe_object)
  (m : list (string * string)) (d : database) (w : world) :
  metadata session = present m ->
  fits_columns session ->
  upsert_row now (customer session) (subscription session) (property "planId" m)
             (Some "active"%string) (db w) = (inr tt, d) ->
  handleSuccessfulPayment None now session w =
  (inr tt, {| db := d;
              console := console w
                         ++ [console_log ["User subscription saved successfully"%string]] |}).
Proof.
  intros Hm [F1 [F2 F3]] Hq. rewrite Hm in F3.
  apply (handleSuccessfulPayment_saves now session m d w Hm).
  now rewrite upsert_user_fits by (try assumption; apply active_fits).
Qed.




(* ====================================================================== *)
(** * More on the Stripe webhook *)
(* ====================================================================== *)

Lemma handleSubscriptionCancellation_saves (sub : stripe_object) (w : world) :
  handleSubscriptionCancellation None sub w =
  (inr tt,
   {| db := set_users
              (map (fun u => if sql_eq String.eqb (subscription_id u) (object_id sub)
                             then with_status (Some "cancelled"%string) u else u)
                   (users (db w)))
              (users_id_seq (db w)) (db w);
      console := console w
                 ++ [console_log ["Subscription cancellation handled"%string]] |}).
Proof. reflexivity. Qed.

(** X1: [handleSubscriptionCancellation], called with the pool up for
    the subscription [sid], leaves the users table with the same rows in
    the same order, each unchanged but for the status of the rows of that
    subscription, which is 'cancelled'; it logs one line. *)
Theorem subscription_deleted_cancels_rows
  (sub : stripe_object) (sid : string) (w : world) :
  object_id sub = Some sid ->
  exists w',
    handleSubscriptionCancellation None sub w = (inr tt, w') /\
    Forall2 (cancelled_from sid) (users (db w)) (users (db w')) /\
    console w' = console w ++ [console_log ["Subscription cancellation handled"%string]].
Proof.
  intros Hid. eexists. split; [apply handleSubscriptionCancellation_saves|].
  rewrite Hid. simpl. split; [|reflexivity].
  induction (users (db w)) as [|u us IH]; simpl; constructor; [|exact IH].
  unfold cancelled_from.
  destruct (sql_eq String.eqb (subscription_id u) (Some sid)); simpl; tauto.
Qed.

Lemma subscription_deleted_cancels_rows_witness :
  let sub := deleted_subscription (Some "sub_1"%string) in
  let w := {| db := subscribers_database; console := [] |} in
  exists w',
    handleSubscriptionCancellation None sub w = (inr tt, w') /\
    Forall2 (cancelled_from "sub_1") (users (db w)) (users (db w')) /\
    console w' = console w ++ [console_log ["Subscription cancellation handled"%string]].
Proof.
  intros sub w.
  apply (subscription_deleted_cancels_rows sub "sub_1" w). reflexivity.
Defined.

(** X2: [handleSubscriptionCancellation] for a subscription id that no
    row has (a subscription without id among them: NULL equals nothing)
    leaves the database as it was and reports no error. *)
Theorem subscription_deleted_unknown_id (sub : stripe_object) (w : world) :
  (forall u, In u (users (db w)) ->
             sql_eq String.eqb (subscription_id u) (object_id sub) = false) ->
  handleSubscriptionCancellation None sub w
  = (inr tt,
     {| db := db w;
        console := console w
                   ++ [console_log ["Subscription cancellation handled"%string]] |}).
Proof.
  intros Hnone. rewrite handleSubscriptionCancellation_saves. f_equal. f_equal.
  replace (map _ (users (db w))) with (users (db w)); [now destruct (db w)|].
  rewrite <- (map_id (users (db w))) at 1. apply map_ext_in. intros u Hu.
  now rewrite (Hnone u Hu).
Qed.

Lemma subscription_deleted_unknown_id_witness :
  let sub := deleted_subscription (Some "sub_9"%string) in
  let w := {| db := subscribers_database; console := [] |} in
  handleSubscriptionCancellation None sub w
  = (inr tt,
     {| db := db w;
        console := console w
                   ++ [console_log ["Subscription cancellation handled"%string]] |}).
Proof.
  intros sub w.
  apply (subscription_deleted_unknown_id sub w).
  intros u [<-|[<-|[]]]; reflexivity.
Defined.

(** X3: what the handler of the webhook route finds in [req.body], when
    both parsers pass the request on: never the bytes of the body, but
    the empty object, or the value the first parser has made of a body
    of type JSON. *)
Theorem webhook_body_is_parsed
  (has_body is_json : http_request -> bool) (read_body : http_request -> Z + string)
  (JSON_parse : string -> option json) (r : http_request) (r1 r2 : parsing) :
  express_json has_body is_json read_body JSON_parse
    {| incoming := r; body_of := unset; body_read := false |} = next r1 ->
  express_raw has_body is_json read_body r1 = next r2 ->
  body_of r2 = parsed (json_object []) \/
  exists bytes value,
    is_json r = true /\ read_body r = inr bytes /\
    JSON_parse bytes = Some value /\ body_of r2 = parsed value.
Proof.
  unfold express_json, express_raw, body_parser. cbn [body_read incoming body_of or_empty].
  destruct (has_body r) eqn:Hb; cbn [negb].
  - destruct (is_json r) eqn:Hj; cbn [negb].
    + destruct (read_body r) as [status|bytes]; [discriminate|].
      destruct (String.eqb bytes "").
      * intros [= <-]. cbn [body_read]. intros [= <-]. now left.
      * destruct (JSON_parse bytes) as [v|] eqn:Hp; [|discriminate].
        intros [= <-]. cbn [body_read]. intros [= <-]. right. now exists bytes, v.
    + intros [= <-]. cbn [body_read incoming body_of or_empty]. rewrite Hb, Hj.
      cbn [negb]. intros [= <-]. now left.
  - intros [= <-]. cbn [body_read incoming body_of or_empty]. rewrite Hb.
    cbn [negb]. intros [= <-]. now left.
Qed.

Lemma webhook_body_is_parsed_witness :
  let r := {| http_headers := [("content-type"%string, "application/json"%string)];
              http_body := Some "{}"%string |} in
  let r1 := {| incoming := r; body_of := parsed (json_object []); body_read := true |} in
  body_of r1 = parsed (json_object []) \/
  exists bytes value,
    example_is_json r = true /\ example_read_body r = inr bytes /\
    example_JSON_parse bytes = Some value /\ body_of r1 = parsed value.
Proof.
  intros r r1.
  apply (webhook_body_is_parsed example_has_body example_is_json example_read_body
           example_JSON_parse r r1 r1); reflexivity.
Defined.

(** ** What the statements keep *)

Lemma rows_of_customer_map (c : string) (f : user -> user) (us : list user) :
  (forall u, stripe_customer_id (f u) = stripe_customer_id u) ->
  List.length (rows_of_customer c (map f us)) = List.length (rows_of_customer c us).
Proof.
  intros Hf. unfold rows_of_customer.
  induction us as [|u us IH]; simpl; [reflexivity|].
  replace (has_customer c (f u)) with (has_customer c u)
    by (unfold has_customer; now rewrite Hf).
  destruct (has_customer c u); simpl; now rewrite IH.
Qed.

Lemma cancel_subscription_consistent (p1 p2 : option string) (d : database) :
  users_consistent d -> users_consistent (snd (cancel_subscription p1 p2 d)).
Proof.
  intros [Hseq Huniq]. unfold cancel_subscription.
  destruct (too_long 50 p1); [now split|]. split; simpl.
  - intros u Hu. apply in_map_iff in Hu. destruct Hu as [u0 [<- Hu0]].
    specialize (Hseq u0 Hu0).
    now destruct (sql_eq String.eqb (subscription_id u0) p2).
  - intros c. rewrite rows_of_customer_map; [apply Huniq|].
    intros u. now destruct (sql_eq String.eqb (subscription_id u) p2).
Qed.

Lemma upsert_row_consistent (now : Z) (v1 v2 v3 v4 : option string) (d : database) :
  users_consistent d -> users_consistent (snd (upsert_row now v1 v2 v3 v4 d)).
Proof.
  intros [Hseq Huniq]. unfold upsert_row.
  destruct (match v1 with Some c => existsb (has_customer c) (users d) | None => false end)
    eqn:Hconf.
  - split; simpl.
    + intros u Hu. apply in_map_iff in Hu. destruct Hu as [u0 [<- Hu0]].
      specialize (Hseq u0 Hu0).
      destruct (sql_eq String.eqb (stripe_customer_id u0) v1); simpl; lia.
    + intros c. rewrite rows_of_customer_map; [apply Huniq|].
      intros u. now destruct (sql_eq String.eqb (stripe_customer_id u) v1).
  - rewrite (fresh_id d Hseq). split; simpl.
    + intros u Hu. apply in_app_iff in Hu.
      destruct Hu as [Hu|[<-|[]]]; [specialize (Hseq u Hu); lia|simpl; lia].
    + intros c. rewrite rows_of_customer_app, length_app.
      unfold rows_of_customer at 2. simpl. unfold has_customer, sql_eq. simpl.
      destruct v1 as [c1|]; simpl; [|specialize (Huniq c); lia].
      destruct (String.eqb c1 c) eqn:E; simpl; [|specialize (Huniq c); lia].
      apply String.eqb_eq in E. subst c1.
      assert (Hnone : rows_of_customer c (users d) = []).
      { apply filter_none. intros u Hu.
        apply not_true_is_false. intros T.
        assert (X : existsb (has_customer c) (users d) = true)
          by (apply existsb_exists; eauto).
        congruence. }
      rewrite Hnone. simpl. lia.
Qed.

Lemma upsert_user_consistent (now : Z) (p1 p2 p3 p4 : option string) (d : database) :
  users_consistent d -> users_consistent (snd (upsert_user now p1 p2 p3 p4 d)).
Proof.
  intros H. unfold upsert_user.
  destruct (too_long 255 p1 || too_long 255 p2); [exact H|].
  destruct (too_long 50 p3 || too_long 50 p4); [exact H|].
  now apply upsert_row_consistent.
Qed.

Lemma upsert_user_catalogue (now : Z) (p1 p2 p3 p4 : option string) (d : database) :
  catalogue_data (snd (upsert_user now p1 p2 p3 p4 d)) = catalogue_data d.
Proof.
  unfold upsert_user, upsert_row.
  destruct (too_long 255 p1 || too_long 255 p2); [reflexivity|].
  destruct (too_long 50 p3 || too_long 50 p4); [reflexivity|].
  destruct (match stored 255 p1 with
            | Some c => existsb (has_customer c) (users d)
            | None => false
            end); [reflexivity|].
  destruct (existsb _ (users d)); reflexivity.
Qed.

Lemma cancel_subscription_catalogue (p1 p2 : option string) (d : database) :
  catalogue_data (snd (cancel_subscription p1 p2 d)) = catalogue_data d.
Proof. unfold cancel_subscription. destruct (too_long 50 p1); reflexivity. Qed.

(** The database a handler leaves is the one it found or the one its
    statement left. *)
Lemma pool_query_db {R : Type} (fault : option string) (stmt : statement R) (w : world) :
  db (snd (pool_query fault stmt w)) = db w \/
  db (snd (pool_query fault stmt w)) = snd (stmt (db w)).
Proof.
  unfold pool_query. destruct fault as [e|]; [now left|].
  destruct (stmt (db w)) as [[e|r] d]; now right.
Qed.

Lemma handleSuccessfulPayment_db (fault : option string) (now : Z)
  (session : stripe_object) (w : world) :
  db (snd (handleSuccessfulPayment fault now session w)) = db w \/
  exists p3,
    db (snd (handleSuccessfulPayment fault now session w))
    = snd (upsert_user now (customer session) (subscription session) p3
                       (Some "active"%string) (db w)).
Proof.
  unfold handleSuccessfulPayment, try_catch, bind, throw, ret, print.
  destruct (metadata session) as [| |m]; [now left|now left|].
  destruct (pool_query_db fault
              (upsert_user now (customer session) (subscription session)
                           (property "planId" m) (Some "active"%string)) w) as [H|H].
  - left. destruct (pool_query _ _ w) as [[e|[]] w']; exact H.
  - right. exists (property "planId" m).
    destruct (pool_query _ _ w) as [[e|[]] w']; exact H.
Qed.

Lemma handleSubscriptionCancellation_db (fault : option string)
  (sub : stripe_object) (w : world) :
  db (snd (handleSubscriptionCancellation fault sub w)) = db w \/
  db (snd (handleSubscriptionCancellation fault sub w))
  = snd (cancel_subscription (Some "cancelled"%string) (object_id sub) (db w)).
Proof.
  unfold handleSubscriptionCancellation, try_catch, bind, print.
  destruct (pool_query_db fault
              (cancel_subscription (Some "cancelled"%string) (object_id sub)) w) as [H|H].
  - left. destruct (pool_query _ _ w) as [[e|[]] w']; exact H.
  - right. destruct (pool_query _ _ w) as [[e|[]] w']; exact H.
Qed.

Lemma stripe_webhook_db
  (verify : string -> option string -> option string -> string + event)
  (rejection : body_value -> option string -> option string -> string)
  (secret : option string) (fault : option string) (now : Z) (req : request) (w : world) :
  let d' := db (snd (stripe_webhook verify rejection secret fault now req w)) in
  d' = db w \/
  (exists p1 p2 p3 p4, d' = snd (upsert_user now p1 p2 p3 p4 (db w))) \/
  (exists p1 p2, d' = snd (cancel_subscription p1 p2 (db w))).
Proof.
  unfold stripe_webhook.
  destruct (constructEvent _ _ _ _ _) as [message|ev]; [now left|].
  unfold bind, detach, send, ret.
  destruct (String.eqb (event_type ev) "checkout.session.completed").
  - simpl. destruct (handleSuccessfulPayment_db fault now (data_object ev) w)
      as [-> | [p3 ->]]; [now left|].
    right. left. eauto.
  - destruct (String.eqb (event_type ev) "customer.subscription.deleted").
    + simpl. destruct (handleSubscriptionCancellation_db fault (data_object ev) w)
        as [-> | ->]; [now left|].
      right. right. eauto.
    + now left.
Qed.

(** X4: whatever the request, the event and the state of the pool, the
    handler of the webhook keeps the constraints of the users table: ids
    stay below the sequence and no customer id is held by two rows. *)
Theorem webhook_keeps_users_consistent
  (verify : string -> option string -> option string -> string + event)
  (rejection : body_value -> option string -> option string -> string)
  (STRIPE_WEBHOOK_SECRET : option string) (fault : option string) (now : Z)
  (req : request) (w : world) :
  users_consistent (db w) ->
  users_consistent
    (db (snd (stripe_webhook verify rejection STRIPE_WEBHOOK_SECRET fault now req w))).
Proof.
  intros Hc.
  destruct (stripe_webhook_db verify rejection STRIPE_WEBHOOK_SECRET fault now req w)
    as [-> | [[p1 [p2 [p3 [p4 ->]]]] | [p1 [p2 ->]]]].
  - exact Hc.
  - now apply upsert_user_consistent.
  - now apply cancel_subscription_consistent.
Qed.

Lemma subscribers_consistent : users_consistent subscribers_database.
Proof.
  split.
  - intros u [<-|[<-|[]]]; simpl; lia.
  - intros c.
    destruct (string_dec c "cus_1") as [->|N1]; [vm_compute; lia|].
    destruct (string_dec c "cus_2") as [->|N2]; [vm_compute; lia|].
    unfold rows_of_customer. rewrite filter_none; [simpl; lia|].
    intros u [<-|[<-|[]]].
    + apply (proj2 (String.eqb_neq "cus_1" c)). congruence.
    + apply (proj2 (String.eqb_neq "cus_2" c)). congruence.
Qed.

Lemma webhook_keeps_users_consistent_witness :
  let bytes := "checkout"%string in
  let ev := checkout_completed (sample_session "cus_1" "sub_7" "pro") in
  let req := {| headers := [("stripe-signature"%string, ("v1=" ++ bytes)%string)];
                req_body := buffer bytes |} in
  let w := {| db := subscribers_database; console := [] |} in
  users_consistent
    (db (snd (stripe_webhook (example_verify [(bytes, ev)]) example_rejection None
                             None 5 req w))).
Proof.
  intros bytes ev req w.
  apply (webhook_keeps_users_consistent (example_verify [(bytes, ev)]) example_rejection
           None None 5 req w).
  apply subscribers_consistent.
Defined.

(** X5: the handler of the webhook never writes to the tables of
    companies, metrics, news and industries. *)
Theorem webhook_writes_users_only
  (verify : string -> option string -> option string -> string + event)
  (rejection : body_value -> option string -> option string -> string)
  (STRIPE_WEBHOOK_SECRET : option string) (fault : option string) (now : Z)
  (req : request) (w : world) :
  catalogue_data
    (db (snd (stripe_webhook verify rejection STRIPE_WEBHOOK_SECRET fault now req w)))
  = catalogue_data (db w).
Proof.
  destruct (stripe_webhook_db verify rejection STRIPE_WEBHOOK_SECRET fault now req w)
    as [-> | [[p1 [p2 [p3 [p4 ->]]]] | [p1 [p2 ->]]]]; [reflexivity| |].
  - apply upsert_user_catalogue.
  - apply cancel_subscription_catalogue.
Qed.

(** ** The upsert, from any table *)

Lemma filter_map_same {A : Type} (p : A -> bool) (f : A -> A) (l : list A) :
  (forall x, p (f x) = p x) -> filter p (map f l) = map f (filter p l).
Proof.
  intros H. induction l as [|x l IH]; simpl; [reflexivity|].
  rewrite H. destruct (p x); simpl; now rewrite IH.
Qed.

Lemma has_customer_with_subscription (c : string) (p1 p2 p3 p4 : option string) (u : user) :
  has_customer c (if sql_eq String.eqb (stripe_customer_id u) p1
                  then with_subscription p2 p3 p4 u else u)
  = has_customer c u.
Proof. now destruct (sql_eq String.eqb (stripe_customer_id u) p1). Qed.

(** What an upsert for customer [c] leaves: one row for [c], holding the
    three values, and the rows of the others as they were. *)
Lemma upsert_row_row (now : Z) (c : string) (v2 v3 v4 : option string) (d : database) :
  users_consistent d ->
  exists d' u,
    upsert_row now (Some c) v2 v3 v4 d = (inr tt, d') /\
    rows_of_customer c (users d') = [u] /\
    subscription_id u = v2 /\ plan_id u = v3 /\ status u = v4 /\
    rows_of_others c (users d') = rows_of_others c (users d).
Proof.
  intros [Hseq Huniq].
  destruct (rows_of_customer c (users d)) as [|u0 rest] eqn:Hrows.
  - rewrite (upsert_row_inserts now c v2 v3 v4 d Hseq Hrows).
    do 2 eexists. split; [reflexivity|]. simpl.
    assert (Hc : has_customer c (new_user (users_id_seq d) now (Some c) v2 v3 v4) = true)
      by (simpl; apply String.eqb_refl).
    rewrite rows_of_customer_app, Hrows. unfold rows_of_customer, rows_of_others.
    rewrite filter_app. simpl. rewrite Hc. simpl.
    repeat split; try reflexivity. apply app_nil_r.
  - assert (rest = []) as ->.
    { specialize (Huniq c). rewrite Hrows in Huniq. destruct rest; [reflexivity|].
      simpl in Huniq. lia. }
    rewrite (upsert_row_updates now c v2 v3 v4 d u0 Hrows).
    assert (Hu0 : has_customer c u0 = true).
    { assert (Hin : In u0 (rows_of_customer c (users d))) by (rewrite Hrows; now left).
      apply filter_In in Hin. tauto. }
    exists (set_users
              (map (fun u => if has_customer c u then with_subscription v2 v3 v4 u else u)
                   (users d))
              (users_id_seq d + 1) d),
           (with_subscription v2 v3 v4 u0).
    split; [reflexivity|]. simpl. split; [|repeat split].
    + unfold rows_of_customer. rewrite filter_map_same.
      * fold (rows_of_customer c (users d)). rewrite Hrows. simpl. now rewrite Hu0.
      * intros u. apply (has_customer_with_subscription c (Some c)).
    + unfold rows_of_others. rewrite filter_map_same.
      * rewrite <- (map_id (filter _ (users d))) at 2. apply map_ext_in.
        intros u Hu. apply filter_In in Hu. destruct Hu as [_ Hu].
        now destruct (has_customer c u).
      * intros u. f_equal. apply (has_customer_with_subscription c (Some c)).
Qed.

(** X6: on a table that satisfies its constraints,
    [handleSuccessfulPayment], called with the pool up for a session
    that has metadata and values that fit the columns, leaves exactly one
    row for the customer of the session, with status 'active' and the
    subscription and plan of the session, whether the customer had a row
    (in whatever status) or not; the rows of the other customers are as
    they were. *)
Theorem checkout_completed_activates_customer
  (now : Z) (session : stripe_object) (c : string) (m : list (string * string))
  (w : world) :
  customer session = Some c ->
  metadata session = present m ->
  fits_columns session ->
  users_consistent (db w) ->
  exists w' u,
    handleSuccessfulPayment None now session w = (inr tt, w') /\
    rows_of_customer c (users (db w')) = [u] /\
    status u = Some "active"%string /\
    subscription_id u = subscription session /\
    plan_id u = property "planId" m /\
    rows_of_others c (users (db w')) = rows_of_others c (users (db w)).
Proof.
  intros Hc Hm Hfits Hcons.
  destruct (upsert_row_row now c (subscription session) (property "planId" m)
              (Some "active"%string) (db w) Hcons)
    as [d' [u [Hq [Hrows [Hs [Hp [Hst Hothers]]]]]]].
  rewrite <- Hc in Hq.
  rewrite (handleSuccessfulPayment_fits now session m d' w Hm Hfits Hq).
  exists {| db := d';
            console := console w
              ++ [console_log ["User subscription saved successfully"%string]] |}, u.
  split; [reflexivity|]. simpl. repeat split; assumption.
Qed.

Lemma checkout_completed_activates_customer_witness :
  let session := sample_session "cus_1" "sub_7" "pro" in
  let w := {| db := set_users [sample_user 1 "cus_1" "sub_1" "cancelled"] 2 empty_database;
              console := [] |} in
  exists w' u,
    handleSuccessfulPayment None 5 session w = (inr tt, w') /\
    rows_of_customer "cus_1" (users (db w')) = [u] /\
    status u = Some "active"%string /\
    subscription_id u = subscription session /\
    plan_id u = property "planId" [("planId"%string, "pro"%string)] /\
    rows_of_others "cus_1" (users (db w')) = rows_of_others "cus_1" (users (db w)).
Proof.
  intros session w.
  apply (checkout_completed_activates_customer 5 session "cus_1"
           [("planId"%string, "pro"%string)] w); try reflexivity.
  - repeat split; simpl; lia.
  - split.
    + intros u [<-|[]]. simpl. lia.
    + intros c. unfold rows_of_customer. simpl.
      destruct (has_customer c (sample_user 1 "cus_1" "sub_1" "cancelled")); simpl; lia.
Defined.

(** ** Calls that repeat or fail *)

Lemma with_status_twice (sid : option string) (us : list user) :
  let cancel u := if sql_eq String.eqb (subscription_id u) sid
                  then with_status (Some "cancelled"%string) u else u in
  map cancel (map cancel us) = map cancel us.
Proof.
  intros cancel. rewrite map_map. apply map_ext. intros u. unfold cancel.
  destruct (sql_eq String.eqb (subscription_id u) sid) eqn:E; simpl; now rewrite E.
Qed.

(** On a table whose ids are below the sequence, an upsert does not
    fail; a second one for the same customer finds its row and leaves the
    table as the first did. *)
Lemma upsert_row_twice (now1 now2 : Z) (c : string) (v2 v3 v4 : option string)
  (d : database) :
  (forall u, In u (users d) -> (user_id u < users_id_seq d)%Z) ->
  let d1 := snd (upsert_row now1 (Some c) v2 v3 v4 d) in
  users (snd (upsert_row now2 (Some c) v2 v3 v4 d1)) = users d1.
Proof.
  intros Hseq. cbv zeta.
  assert (Hupd : forall us,
            existsb (has_customer c) us = true ->
            existsb (has_customer c)
              (map (fun u => if sql_eq String.eqb (stripe_customer_id u) (Some c)
                             then with_subscription v2 v3 v4 u else u) us) = true).
  { intros us H. apply existsb_exists in H. destruct H as [u [Hu Hc]].
    apply existsb_exists. eexists. split; [apply in_map, Hu|].
    now rewrite has_customer_with_subscription. }
  destruct (existsb (has_customer c) (users d)) eqn:Hconf.
  - assert (E1 : upsert_row now1 (Some c) v2 v3 v4 d
                 = (inr tt, set_users
                      (map (fun u => if sql_eq String.eqb (stripe_customer_id u) (Some c)
                                     then with_subscription v2 v3 v4 u else u) (users d))
                      (users_id_seq d + 1) d)).
    { unfold upsert_row. now rewrite Hconf. }
    rewrite E1. cbn [snd]. unfold upsert_row. cbn [users set_users users_id_seq].
    rewrite (Hupd _ Hconf). cbn [snd users set_users].
    rewrite map_map. apply map_ext. intros u.
    destruct (sql_eq String.eqb (stripe_customer_id u) (Some c)) eqn:E; simpl; now rewrite E.
  - assert (E1 : upsert_row now1 (Some c) v2 v3 v4 d
                 = (inr tt, set_users
                      (users d ++ [new_user (users_id_seq d) now1 (Some c) v2 v3 v4])
                      (users_id_seq d + 1) d)).
    { unfold upsert_row. now rewrite Hconf, (fresh_id d Hseq). }
    rewrite E1. cbn [snd]. unfold upsert_row. cbn [users set_users users_id_seq].
    rewrite existsb_app. cbn [existsb]. unfold has_customer at 2. cbn.
    rewrite String.eqb_refl, orb_true_r. cbn [snd users set_users].
    rewrite map_app. cbn. rewrite String.eqb_refl. f_equal.
    rewrite <- (map_id (users d)) at 2. apply map_ext_in. intros u Hu.
    destruct (sql_eq String.eqb (stripe_customer_id u) (Some c)) eqn:E; [|reflexivity].
    exfalso. assert (X : existsb (has_customer c) (users d) = true)
      by (apply existsb_exists; eauto).
    congruence.
Qed.

Lemma upsert_user_twice (now1 now2 : Z) (c : string) (p2 p3 p4 : option string)
  (d : database) :
  (forall u, In u (users d) -> (user_id u < users_id_seq d)%Z) ->
  let d1 := snd (upsert_user now1 (Some c) p2 p3 p4 d) in
  users (snd (upsert_user now2 (Some c) p2 p3 p4 d1)) = users d1.
Proof.
  intros Hseq. cbv zeta. unfold upsert_user.
  destruct (too_long 255 (Some c) || too_long 255 p2); [reflexivity|].
  destruct (too_long 50 p3 || too_long 50 p4); [reflexivity|].
  now apply upsert_row_twice.
Qed.

(** With the pool up and metadata in the session, the handler leaves
    the database its statement left. *)
Lemma handleSuccessfulPayment_statement (now : Z) (session : stripe_object)
  (m : list (string * string)) (w : world) :
  metadata session = present m ->
  db (snd (handleSuccessfulPayment None now session w))
  = snd (upsert_user now (customer session) (subscription session)
                     (property "planId" m) (Some "active"%string) (db w)).
Proof.
  intros Hm.
  unfold handleSuccessfulPayment, try_catch, bind, throw, ret, print, pool_query.
  rewrite Hm.
  now destruct (upsert_user _ _ _ _ _ (db w)) as [[e|[]] d1].
Qed.

(** X7: calling a handler a second time with the same object leaves the
    users table as the first call left it: [handleSubscriptionCancellation]
    on any table, and [handleSuccessfulPayment], for a session that names
    its customer, on a table whose ids are below the sequence. *)
Theorem handler_redelivery_idempotent
  (now1 now2 : Z) (session sub : stripe_object) (w : world) :
  ((forall u, In u (users (db w)) -> (user_id u < users_id_seq (db w))%Z) ->
   customer session <> None ->
   let w1 := snd (handleSuccessfulPayment None now1 session w) in
   let w2 := snd (handleSuccessfulPayment None now2 session w1) in
   users (db w2) = users (db w1)) /\
  (let w1 := snd (handleSubscriptionCancellation None sub w) in
   let w2 := snd (handleSubscriptionCancellation None sub w1) in
   users (db w2) = users (db w1)).
Proof.
  split.
  - intros Hseq Hcust w1 w2. unfold w2, w1.
    destruct (customer session) as [c|] eqn:Hc; [clear Hcust|congruence].
    destruct (metadata session) as [| |m] eqn:Hm.
    + unfold handleSuccessfulPayment, try_catch, bind, throw, ret, print.
      now rewrite Hm.
    + unfold handleSuccessfulPayment, try_catch, bind, throw, ret, print.
      now rewrite Hm.
    + rewrite !(handleSuccessfulPayment_statement _ session m _ Hm), Hc.
      now apply upsert_user_twice.
  - intros w1 w2. unfold w2, w1. rewrite !handleSubscriptionCancellation_saves.
    simpl. apply with_status_twice.
Qed.

Lemma handler_redelivery_idempotent_witness :
  let session := sample_session "cus_3" "sub_3" "pro" in
  let w := {| db := subscribers_database; console := [] |} in
  let w1 := snd (handleSuccessfulPayment None 5 session w) in
  let w2 := snd (handleSuccessfulPayment None 9 session w1) in
  users (db w2) = users (db w1).
Proof.
  intros session w.
  apply (proj1 (handler_redelivery_idempotent 5 9 session session w)).
  - apply subscribers_consistent.
  - discriminate.
Defined.

(** X8: [handleSuccessfulPayment] adds a row at every call for a session
    without customer id: a NULL customer id conflicts with no row, so two
    calls leave two more rows, with consecutive ids. *)
Theorem checkout_without_customer_duplicates
  (now1 now2 : Z) (session : stripe_object) (m : list (string * string)) (w : world) :
  customer session = None ->
  metadata session = present m ->
  fits_columns session ->
  users_consistent (db w) ->
  let w1 := snd (handleSuccessfulPayment None now1 session w) in
  let w2 := snd (handleSuccessfulPayment None now2 session w1) in
  exists r1 r2,
    users (db w2) = users (db w) ++ [r1; r2] /\
    stripe_customer_id r1 = None /\ stripe_customer_id r2 = None /\
    user_id r2 = (user_id r1 + 1)%Z /\
    status r1 = Some "active"%string /\ status r2 = Some "active"%string.
Proof.
  intros Hc Hm Hfits [Hseq _] w1 w2.
  set (p2 := subscription session) in *.
  set (p3 := property "planId" m) in *.
  assert (Hins : forall now d,
            (forall u, In u (users d) -> (user_id u < users_id_seq d)%Z) ->
            upsert_row now None p2 p3 (Some "active"%string) d
            = (inr tt, set_users
                         (users d ++ [new_user (users_id_seq d) now None p2 p3
                                               (Some "active"%string)])
                         (users_id_seq d + 1) d)).
  { intros now d Hd. unfold upsert_row. now rewrite (fresh_id d Hd). }
  assert (Hw1 : w1 = {| db := set_users
                                (users (db w) ++ [new_user (users_id_seq (db w)) now1 None p2 p3
                                                           (Some "active"%string)])
                                (users_id_seq (db w) + 1) (db w);
                        console := console w
                          ++ [console_log ["User subscription saved successfully"%string]] |}).
  { unfold w1.
    erewrite (handleSuccessfulPayment_fits now1 session m _ w Hm Hfits); [reflexivity|].
    rewrite Hc. now apply Hins. }
  exists (new_user (users_id_seq (db w)) now1 None p2 p3 (Some "active"%string)),
         (new_user (users_id_seq (db w) + 1) now2 None p2 p3 (Some "active"%string)).
  split; [|repeat split; reflexivity].
  assert (Hseq1 : forall u, In u (users (db w1)) -> (user_id u < users_id_seq (db w1))%Z).
  { rewrite Hw1. simpl. intros u Hu.
    apply in_app_iff in Hu. destruct Hu as [Hu|[<-|[]]]; [specialize (Hseq u Hu); lia|].
    simpl. lia. }
  pose proof (Hins now2 (db w1) Hseq1) as Hq2. rewrite <- Hc in Hq2.
  unfold w2.
  rewrite (handleSuccessfulPayment_fits now2 session m _ w1 Hm Hfits Hq2).
  rewrite Hw1, Hc. simpl. rewrite <- app_assoc. reflexivity.
Qed.

Lemma checkout_without_customer_duplicates_witness :
  let session := {| object_id := None; customer := None; subscription := Some "sub_5"%string;
                    metadata := present [("planId"%string, "pro"%string)] |} in
  let w := {| db := empty_database; console := [] |} in
  let w1 := snd (handleSuccessfulPayment None 5 session w) in
  let w2 := snd (handleSuccessfulPayment None 9 session w1) in
  exists r1 r2,
    users (db w2) = users (db w) ++ [r1; r2] /\
    stripe_customer_id r1 = None /\ stripe_customer_id r2 = None /\
    user_id r2 = (user_id r1 + 1)%Z /\
    status r1 = Some "active"%string /\ status r2 = Some "active"%string.
Proof.
  intros session w.
  apply (checkout_without_customer_duplicates 5 9 session
           [("planId"%string, "pro"%string)] w); try reflexivity.
  - repeat split; simpl; lia.
  - split; [intros u []|intros c; simpl; lia].
Defined.

(** A value is too long for its column when it has more characters than
    the column holds and one of those in excess is not a space. *)
Lemma too_long_characters (width : nat) (s : string) :
  too_long width (Some s) = true -> (width < characters s)%nat.
Proof.
  intros H. apply Nat.nle_gt. intros Hle.
  rewrite (fits_not_too_long width (Some s) Hle) in H. discriminate.
Qed.

(** X9: [handleSuccessfulPayment] on a session whose plan id is too long
    for the 50 characters of its column writes no row: the statement is
    rejected and the error goes to the console.  Such a plan id has more
    than 50 characters; bytes are not counted. *)
Theorem checkout_long_plan_id_not_saved
  (now : Z) (session : stripe_object) (m : list (string * string)) (plan : string)
  (w : world) :
  metadata session = present m ->
  property "planId" m = Some plan ->
  too_long 255 (customer session) = false ->
  too_long 255 (subscription session) = false ->
  too_long 50 (Some plan) = true ->
  (50 < characters plan)%nat /\
  handleSuccessfulPayment None now session w
  = (inr tt,
     {| db := db w;
        console := console w
          ++ [console_error "Error saving user subscription:"
                (DatabaseError "value too long for type character varying(50)")] |}).
Proof.
  intros Hm Hplan F1 F2 F3. split; [now apply too_long_characters|].
  unfold handleSuccessfulPayment, try_catch, bind, throw, ret, print, pool_query, upsert_user.
  now rewrite Hm, Hplan, F1, F2, F3.
Qed.

Lemma checkout_long_plan_id_not_saved_witness :
  let plan := "a-plan-identifier-that-is-longer-than-fifty-characters"%string in
  let session := sample_session "cus_1" "sub_7" plan in
  let w := {| db := subscribers_database; console := [] |} in
  (50 < characters plan)%nat /\
  handleSuccessfulPayment None 5 session w
  = (inr tt,
     {| db := db w;
        console := console w
          ++ [console_error "Error saving user subscription:"
                (DatabaseError "value too long for type character varying(50)")] |}).
Proof.
  intros plan session w.
  apply (checkout_long_plan_id_not_saved 5 session [("planId"%string, plan)] plan w);
    reflexivity.
Defined.

(** X10: [handleSuccessfulPayment] on a session without metadata throws
    when it reads the plan id, before any statement is sent: the database
    is as it was, also with the pool up, and a TypeError goes to the
    console, which names [null] or [undefined] as the metadata are. *)
Theorem checkout_without_metadata_not_saved
  (fault : option string) (now : Z) (session : stripe_object) (w : world) :
  (forall m, metadata session <> present m) ->
  exists message,
    handleSuccessfulPayment fault now session w
    = (inr tt,
       {| db := db w;
          console := console w
            ++ [console_error "Error saving user subscription:" (TypeError message)] |}) /\
    (metadata session = null ->
     message = "Cannot read properties of null (reading 'planId')"%string) /\
    (metadata session = absent ->
     message = "Cannot read properties of undefined (reading 'planId')"%string).
Proof.
  intros Hm.
  unfold handleSuccessfulPayment, try_catch, bind, throw, ret, print.
  destruct (metadata session) as [| |m]; [| |now destruct (Hm m)];
    eexists; (split; [reflexivity|split; [intros E|intros E]; congruence]).
Qed.

Lemma checkout_without_metadata_not_saved_witness :
  let session := {| object_id := None; customer := Some "cus_1"%string;
                    subscription := Some "sub_5"%string; metadata := null |} in
  let w := {| db := subscribers_database; console := [] |} in
  exists message,
    handleSuccessfulPayment None 5 session w
    = (inr tt,
       {| db := db w;
          console := console w
            ++ [console_error "Error saving user subscription:" (TypeError message)] |}) /\
    (metadata session = null ->
     message = "Cannot read properties of null (reading 'planId')"%string) /\
    (metadata session = absent ->
     message = "Cannot read properties of undefined (reading 'planId')"%string).
Proof.
  intros session w.
  apply (checkout_without_metadata_not_saved None 5 session w).
  intros m. discriminate.
Defined.

(** X11: after [handleSuccessfulPayment] for a session with subscription
    [sid], [handleSubscriptionCancellation] sets the row of the customer
    to 'cancelled' when its subscription is [sid], and leaves it 'active'
    when it is another one; the row keeps its subscription and plan either
    way. *)
Theorem deletion_after_checkout
  (now : Z) (session sub : stripe_object) (w : world)
  (c sid sid' : string) (m : list (string * string)) :
  customer session = Some c ->
  subscription session = Some sid ->
  metadata session = present m ->
  fits_columns session ->
  object_id sub = Some sid' ->
  users_consistent (db w) ->
  let w1 := snd (handleSuccessfulPayment None now session w) in
  let w2 := snd (handleSubscriptionCancellation None sub w1) in
  exists u,
    rows_of_customer c (users (db w2)) = [u] /\
    status u = Some (if String.eqb sid sid' then "cancelled" else "active")%string /\
    subscription_id u = Some sid /\
    plan_id u = property "planId" m.
Proof.
  intros Hc Hs Hm Hfits Hid Hcons w1 w2.
  destruct (upsert_row_row now c (subscription session) (property "planId" m)
              (Some "active"%string) (db w) Hcons)
    as [d1 [u1 [Hq [Hrows [Hsub [Hplan [Hst _]]]]]]].
  rewrite <- Hc in Hq.
  assert (Hw1 : db w1 = d1).
  { unfold w1. now rewrite (handleSuccessfulPayment_fits now session m d1 w Hm Hfits Hq). }
  unfold w2.
  rewrite handleSubscriptionCancellation_saves, Hid, Hw1. simpl.
  unfold rows_of_customer. rewrite filter_map_same.
  - fold (rows_of_customer c (users d1)). rewrite Hrows. simpl.
    eexists. split; [reflexivity|].
    rewrite Hsub, Hs. simpl.
    destruct (String.eqb sid sid'); simpl; rewrite ?Hsub, ?Hplan, ?Hst; auto.
  - intros u. now destruct (sql_eq String.eqb (subscription_id u) (Some sid')).
Qed.

Lemma deletion_after_checkout_witness :
  let session := sample_session "cus_1" "sub_7" "pro" in
  let sub := deleted_subscription (Some "sub_1"%string) in
  let w := {| db := set_users [sample_user 1 "cus_1" "sub_1" "active"] 2 empty_database;
              console := [] |} in
  let w1 := snd (handleSuccessfulPayment None 5 session w) in
  let w2 := snd (handleSubscriptionCancellation None sub w1) in
  exists u,
    rows_of_customer "cus_1" (users (db w2)) = [u] /\
    status u = Some (if String.eqb "sub_7" "sub_1" then "cancelled" else "active")%string /\
    subscription_id u = Some "sub_7"%string /\
    plan_id u = property "planId" [("planId"%string, "pro"%string)].
Proof.
  intros session sub w.
  apply (deletion_after_checkout 5 session sub w
           "cus_1" "sub_7" "sub_1" [("planId"%string, "pro"%string)]); try reflexivity.
  - repeat split; simpl; lia.
  - split.
    + intros u [<-|[]]. simpl. lia.
    + intros c. unfold rows_of_customer. simpl.
      destruct (has_customer c (sample_user 1 "cus_1" "sub_1" "active")); simpl; lia.
Defined.

(* ====================================================================== *)
(** * More on the comparison insight generator *)
(* ====================================================================== *)

(** X12: on a non-empty array whose growth rates convert to finite
    numbers, the second string is about the first of the rows with the
    highest growth rate, [null] counted as zero and a string by the
    number it reads as.  It shows "undefined" when that row has no rate,
    and the rate to one decimal place when it is a number below 10^21;
    when the rate is a string nothing is returned: the generator throws. *)
Theorem second_insight_highest_growth
  (StringToNumber : string -> number) (NumberToString : number -> string)
  (cs : list company_row) :
  cs <> [] ->
  finite_keys (growth StringToNumber) cs ->
  exists g,
    first_highest (fun x => exact (growth StringToNumber x)) g cs /\
    match row_growth_rate g with
    | js_null =>
        exists s1 s3,
          generateComparisonInsights StringToNumber NumberToString cs =
          inr [s1; (row_name g ++ " shows highest growth rate at undefined%")%string; s3]
    | js_number x =>
        Qabs (exact x) < inject_Z (10 ^ 21) ->
        exists rate s1 s3,
          one_decimal_place (exact x) rate /\
          generateComparisonInsights StringToNumber NumberToString cs =
          inr [s1; (row_name g ++ " shows highest growth rate at " ++ rate ++ "%")%string;
               s3]
    | js_string _ =>
        generateComparisonInsights StringToNumber NumberToString cs = inl not_a_function
    end.
Proof.
  intros Hne Hfin.
  destruct (first_highest_exists (fun x => exact (growth StringToNumber x)) cs Hne)
    as [g Hhigh].
  pose proof (first_by_growth StringToNumber cs g Hfin Hhigh) as Hg.
  destruct (Array_sort_first_some (by_market_cap StringToNumber) cs Hne) as [c Hc].
  pose proof (insights_of_first_rows StringToNumber NumberToString cs c g Hc Hg) as Hout.
  assert (Hin : In g cs).
  { destruct Hhigh as [before [after [-> _]]]. apply in_elt. }
  exists g. split; [exact Hhigh|].
  destruct (row_growth_rate g) as [|x|s] eqn:E.
  - do 2 eexists. exact Hout.
  - intros Hx. exists (toFixed NumberToString 1 x). do 2 eexists.
    split; [|exact Hout].
    apply toFixed_one_decimal_place. split; [|exact Hx].
    specialize (Hfin g Hin). unfold growth in Hfin. now rewrite E in Hfin.
  - exact Hout.
Qed.

Lemma second_insight_highest_growth_witness :
  let alpha := sample_row "Alpha" (integer 5000000000) (hundredths 1234) (hundredths 50) in
  let beta := sample_row "Beta" (integer 2000000000) js_null (hundredths 90) in
  exists g,
    first_highest (fun x => exact (growth read_numeral x)) g [beta; alpha] /\
    match row_growth_rate g with
    | js_null =>
        exists s1 s3,
          generateComparisonInsights read_numeral plain_digits [beta; alpha] =
          inr [s1; (row_name g ++ " shows highest growth rate at undefined%")%string; s3]
    | js_number x =>
        Qabs (exact x) < inject_Z (10 ^ 21) ->
        exists rate s1 s3,
          one_decimal_place (exact x) rate /\
          generateComparisonInsights read_numeral plain_digits [beta; alpha] =
          inr [s1; (row_name g ++ " shows highest growth rate at " ++ rate ++ "%")%string;
               s3]
    | js_string _ =>
        generateComparisonInsights read_numeral plain_digits [beta; alpha]
        = inl not_a_function
    end.
Proof.
  intros alpha beta.
  apply (second_insight_highest_growth read_numeral plain_digits [beta; alpha]).
  - discriminate.
  - intros x [<-|[<-|[]]]; reflexivity.
Defined.

(** Zero minus a number below zero is above zero, and such a number
    minus zero is not. *)
Lemma zero_minus_below_zero (x : number) :
  num_lt x zero = true -> num_lt zero (num_sub zero x) = true.
Proof. destruct x as [[]|[]| |[] m e]; try discriminate; reflexivity. Qed.

Lemma below_zero_minus_zero (x : number) :
  num_lt x zero = true -> num_lt zero (num_sub x zero) = false.
Proof. destruct x as [[]|[]| |[] m e]; try discriminate; reflexivity. Qed.

(** The row sorted first by growth rate has no rate, when some row has
    none and the rates of the others read as numbers below zero. *)
Lemma null_growth_sorts_first
  (StringToNumber : string -> number) (cs : list company_row) (g : company_row) :
  (forall x, In x cs -> row_growth_rate x <> js_null ->
             num_lt (growth StringToNumber x) zero = true) ->
  nth_error (Array_sort (by_growth StringToNumber) cs) 0 = Some g ->
  row_growth_rate g = js_null \/ forall x, In x cs -> row_growth_rate x <> js_null.
Proof.
  revert g. induction cs as [|x cs IH]; intros g Hneg Hg; [discriminate|].
  rewrite Array_sort_first in Hg.
  assert (Hneg' : forall y, In y cs -> row_growth_rate y <> js_null ->
                            num_lt (growth StringToNumber y) zero = true)
    by (intros y Hy; apply Hneg; now right).
  destruct (nth_error (Array_sort (by_growth StringToNumber) cs) 0) as [m|] eqn:Hm.
  - assert (Hin : In m cs).
    { apply (Array_sort_In (by_growth StringToNumber)). eapply nth_error_In. exact Hm. }
    destruct (IH m Hneg' eq_refl) as [Hnull|Hnone].
    + destruct (num_lt zero (by_growth StringToNumber x m)) eqn:Hlt.
      * injection Hg as <-. now left.
      * injection Hg as <-.
        destruct (row_growth_rate x) as [|v|s] eqn:E; [now left| |]; exfalso.
        -- assert (Hx : num_lt (growth StringToNumber x) zero = true)
             by (apply Hneg; [now left|congruence]).
           unfold by_growth in Hlt. rewrite Hnull in Hlt. cbn [ToNumber] in Hlt.
           fold (growth StringToNumber x) in Hlt.
           rewrite (zero_minus_below_zero _ Hx) in Hlt. discriminate.
        -- assert (Hx : num_lt (growth StringToNumber x) zero = true)
             by (apply Hneg; [now left|congruence]).
           unfold by_growth in Hlt. rewrite Hnull in Hlt. cbn [ToNumber] in Hlt.
           fold (growth StringToNumber x) in Hlt.
           rewrite (zero_minus_below_zero _ Hx) in Hlt. discriminate.
    + destruct (row_growth_rate x) as [|v|s] eqn:E.
      * assert (Hx : num_lt (growth StringToNumber m) zero = true)
          by (apply Hneg'; [exact Hin|now apply Hnone]).
        replace (num_lt zero (by_growth StringToNumber x m)) with false in Hg.
        -- injection Hg as <-. now left.
        -- symmetry. unfold by_growth. rewrite E. cbn [ToNumber].
           now apply below_zero_minus_zero.
      * right. intros y [<-|Hy]; [congruence|now apply Hnone].
      * right. intros y [<-|Hy]; [congruence|now apply Hnone].
  - injection Hg as <-.
    assert (cs = []) as ->.
    { destruct cs as [|y cs]; [reflexivity|].
      destruct (Array_sort_first_some (by_growth StringToNumber) (y :: cs)) as [m E];
        [discriminate|congruence]. }
    destruct (row_growth_rate x) eqn:E; [now left| |];
      right; intros y [<-|[]]; congruence.
Qed.

(** X13: when some row has no growth rate and every rate present reads
    as a number below zero, the second string reports a row without
    growth rate, as "undefined%": a missing rate sorts as zero, ahead of
    the negative ones. *)
Theorem missing_growth_outranks_negative
  (StringToNumber : string -> number) (NumberToString : number -> string)
  (cs : list company_row) :
  (exists x, In x cs /\ row_growth_rate x = js_null) ->
  (forall x, In x cs -> row_growth_rate x <> js_null ->
             num_lt (growth StringToNumber x) zero = true) ->
  exists g s1 s3,
    In g cs /\ row_growth_rate g = js_null /\
    generateComparisonInsights StringToNumber NumberToString cs =
    inr [s1; (row_name g ++ " shows highest growth rate at undefined%")%string; s3].
Proof.
  intros [x [Hx Hnone]] Hneg.
  assert (Hne : cs <> []) by (destruct cs; [destruct Hx|discriminate]).
  destruct (Array_sort_first_some (by_market_cap StringToNumber) cs Hne) as [c Hc].
  destruct (Array_sort_first_some (by_growth StringToNumber) cs Hne) as [g Hg].
  assert (Hin : In g cs).
  { apply (Array_sort_In (by_growth StringToNumber)). eapply nth_error_In. exact Hg. }
  assert (Hg0 : row_growth_rate g = js_null).
  { destruct (null_growth_sorts_first StringToNumber cs g Hneg Hg) as [H|H];
      [exact H|now destruct (H x Hx)]. }
  exists g. do 2 eexists. split; [exact Hin|]. split; [exact Hg0|].
  rewrite (insights_of_first_rows StringToNumber NumberToString cs c g Hc Hg), Hg0.
  reflexivity.
Qed.

Lemma missing_growth_outranks_negative_witness :
  let alpha := sample_row "Alpha" (js_string "5000000000.00") (js_string "-3.00")
                          (js_string "0.50") in
  let beta := sample_row "Beta" (js_string "2000000000.00") js_null (js_string "0.90") in
  exists g s1 s3,
    In g [alpha; beta] /\ row_growth_rate g = js_null /\
    generateComparisonInsights read_numeral plain_digits [alpha; beta] =
    inr [s1; (row_name g ++ " shows highest growth rate at undefined%")%string; s3].
Proof.
  intros alpha beta.
  apply (missing_growth_outranks_negative read_numeral plain_digits [alpha; beta]).
  - exists beta. split; [right; now left|reflexivity].
  - intros x [<-|[<-|[]]]; simpl; intros H; [reflexivity|congruence].
Defined.

(* ====================================================================== *)
(** * More on the comparison and analysis endpoints *)
(* ====================================================================== *)

(** X14: a comparison request without [companyIds], or with fewer than
    two, is answered 400 before the database is asked: the answer does not
    depend on the state of the pool, and nothing is written or logged. *)
Theorem compare_requires_two_ids
  (numeric_out : Q -> string) (StringToNumber : string -> number)
  (NumberToString : number -> string) (fault : option string) (now : Z)
  (req : compare_request) (w : world) :
  (forall ids, companyIds req = Some ids -> (List.length ids < 2)%nat) ->
  compare numeric_out StringToNumber NumberToString fault now req w =
  (inr {| status_code := 400;
          body := json_error "At least 2 companies required for comparison" |}, w).
Proof.
  intros H. unfold compare, try_catch.
  destruct (companyIds req) as [ids|]; [|reflexivity].
  specialize (H ids eq_refl). apply Nat.ltb_lt in H. now rewrite H.
Qed.

Lemma compare_requires_two_ids_witness :
  compare two_decimals read_numeral plain_digits (Some "down"%string) 0
          {| companyIds := Some [1%Z]; metrics := None |}
          {| db := market_database; console := [] |} =
  (inr {| status_code := 400;
          body := json_error "At least 2 companies required for comparison" |},
   {| db := market_database; console := [] |}).
Proof.
  apply (compare_requires_two_ids two_decimals read_numeral plain_digits
           (Some "down"%string) 0
           {| companyIds := Some [1%Z]; metrics := None |}
           {| db := market_database; console := [] |}).
  intros ids [= <-]. simpl. lia.
Defined.

Lemma filter_by_key {A : Type} (f : A -> Z) (l : list A) (c : A) :
  NoDup (map f l) -> In c l -> filter (fun x => (f x =? f c)%Z) l = [c].
Proof.
  induction l as [|x l IH]; intros Hnd Hin; [destruct Hin|].
  apply NoDup_cons_iff in Hnd. destruct Hnd as [Hfresh Hnd]. simpl.
  destruct Hin as [->|Hin].
  - rewrite Z.eqb_refl. f_equal. apply filter_none. intros y Hy.
    apply Z.eqb_neq. intros E. apply Hfresh. rewrite <- E. now apply in_map.
  - replace (f x =? f c)%Z with false; [now apply IH|].
    symmetry. apply Z.eqb_neq. intros E. apply Hfresh. rewrite E. now apply in_map.
Qed.

(** X15: the check on the number of ids counts repetitions: a request
    that names one existing company several times passes it.  The
    statement returns the single row of that company; the answer is 200
    with that row when the company has no value of 'revenue_growth', and
    500 when it has one, as the growth rate is then a string. *)
Theorem compare_repeated_id
  (numeric_out : Q -> string) (StringToNumber : string -> number)
  (NumberToString : number -> string) (now : Z) (req : compare_request)
  (ids : list Z) (c : company) (w : world) :
  NoDup (map company_id (companies (db w))) ->
  companyIds req = Some ids ->
  (2 <= List.length ids)%nat ->
  Forall (eq (company_id c)) ids ->
  In c (companies (db w)) ->
  compareQuery now ids (db w) = (inr [summary now (db w) c], db w) /\
  (metric_values "revenue_growth" c (db w) = [] ->
   exists insights,
     compare numeric_out StringToNumber NumberToString None now req w =
     (inr {| status_code := 200;
             body := json_comparison [row_of numeric_out (summary now (db w) c)]
                                     insights |}, w)) /\
  (metric_values "revenue_growth" c (db w) <> [] ->
   compare numeric_out StringToNumber NumberToString None now req w =
   (inr {| status_code := 500; body := json_error "Failed to compare companies" |},
    {| db := db w;
       console := console w
         ++ [console_error "Error comparing companies:" not_a_function] |})).
Proof.
  intros Hkey Hids Hlen Hall Hin.
  assert (Hsel : selected ids (db w) = [c]).
  { unfold selected. rewrite <- (filter_by_key company_id _ c Hkey Hin).
    apply filter_ext. intros x.
    destruct ids as [|i ids]; [simpl in Hlen; lia|].
    rewrite Forall_forall in Hall.
    destruct (Z.eqb_spec (company_id x) (company_id c)) as [E|E].
    - apply existsb_exists. exists i. split; [now left|].
      rewrite <- (Hall i (or_introl eq_refl)). now apply Z.eqb_eq.
    - apply not_true_is_false. intros X. apply existsb_exists in X.
      destruct X as [j [Hj X]]. apply Z.eqb_eq in X.
      rewrite <- (Hall j Hj) in X. contradiction. }
  split; [rewrite (compare_rows now ids (db w) Hkey); now rewrite Hsel|].
  rewrite (compare_runs numeric_out StringToNumber NumberToString now req ids w
             Hkey Hids Hlen).
  rewrite Hsel. cbn [map].
  set (row := row_of numeric_out (summary now (db w) c)).
  assert (Hc : nth_error (Array_sort (by_market_cap StringToNumber) [row]) 0 = Some row)
    by reflexivity.
  assert (Hg : nth_error (Array_sort (by_growth StringToNumber) [row]) 0 = Some row)
    by reflexivity.
  rewrite (insights_of_first_rows StringToNumber NumberToString [row] row row Hc Hg).
  assert (Hrate : row_growth_rate row
                  = numeric numeric_out (average (metric_values "revenue_growth" c (db w))))
    by reflexivity.
  rewrite Hrate. clear Hrate.
  split; intros Hvalues.
  - rewrite Hvalues. cbn [average numeric growth_text]. eauto.
  - destruct (metric_values "revenue_growth" c (db w)); [congruence|].
    cbn [average numeric growth_text]. reflexivity.
Qed.

Lemma compare_repeated_id_witness :
  let req := {| companyIds := Some [2%Z; 2%Z]; metrics := None |} in
  let w := {| db := market_database; console := [] |} in
  let beta := sample_company 2 "Beta" None (Some 2000000000) in
  exists insights,
    compare two_decimals read_numeral plain_digits None 100 req w =
    (inr {| status_code := 200;
            body := json_comparison [row_of two_decimals (summary 100 (db w) beta)]
                                    insights |}, w).
Proof.
  intros req w beta.
  refine (proj1 (proj2 (compare_repeated_id two_decimals read_numeral plain_digits 100 req
                          [2%Z; 2%Z] beta w _ eq_refl _ _ _)) _).
  - simpl. repeat constructor; simpl; intuition discriminate.
  - simpl. lia.
  - repeat constructor.
  - right. now left.
  - reflexivity.
Defined.

(** X16: in a 200 answer of the comparison, the first insight is about
    the companies asked for: when the market caps of their rows read as
    finite numbers, it names the first of the selected companies with the
    highest market cap, and shows that market cap divided by 10^9, to one
    decimal place when the quotient is below 10^21. *)
Theorem compare_first_insight_of_selected
  (numeric_out : Q -> string) (StringToNumber : string -> number)
  (NumberToString : number -> string) (now : Z) (req : compare_request)
  (ids : list Z) (w : world) (answer : response) (w' : world) :
  NoDup (map company_id (companies (db w))) ->
  companyIds req = Some ids ->
  (2 <= List.length ids)%nat ->
  let rows := map (row_of numeric_out) (map (summary now (db w)) (selected ids (db w))) in
  finite_keys (cap StringToNumber) rows ->
  compare numeric_out StringToNumber NumberToString None now req w = (inr answer, w') ->
  status_code answer = 200%Z ->
  exists c text rest,
    In c (selected ids (db w)) /\
    first_highest (fun r => exact (cap StringToNumber r))
                  (row_of numeric_out (summary now (db w) c)) rows /\
    let billions := num_div (cap StringToNumber (row_of numeric_out (summary now (db w) c)))
                            (of_Z 1000000000) in
    (plain billions -> one_decimal_place (exact billions) text) /\
    body answer = json_comparison rows
                    ((name c ++ " leads in market capitalization with $"
                      ++ text ++ "B")%string :: rest).
Proof.
  intros Hkey Hids Hlen rows Hfin Hrun Hok.
  rewrite (compare_runs numeric_out StringToNumber NumberToString now req ids w
             Hkey Hids Hlen) in Hrun.
  fold rows in Hrun.
  destruct (generateComparisonInsights StringToNumber NumberToString rows)
    as [error|insights] eqn:Hgen.
  { injection Hrun as <- _. discriminate. }
  injection Hrun as <- _. clear Hok.
  assert (Hne : rows <> []) by (intros E; rewrite E in Hgen; discriminate).
  destruct (first_highest_exists (fun r => exact (cap StringToNumber r)) rows Hne)
    as [r Hhigh].
  pose proof (first_by_market_cap StringToNumber rows r Hfin Hhigh) as Hr.
  destruct (Array_sort_first_some (by_growth StringToNumber) rows Hne) as [g Hg].
  rewrite (insights_of_first_rows StringToNumber NumberToString rows r g Hr Hg) in Hgen.
  assert (Hin : In r rows).
  { destruct Hhigh as [before [after [E _]]]. rewrite E. apply in_elt. }
  unfold rows in Hin. apply in_map_iff in Hin. destruct Hin as [s [Hs Hin]].
  apply in_map_iff in Hin. destruct Hin as [c [<- Hc]]. subst r.
  destruct (growth_text NumberToString (row_growth_rate g)) as [error|rate];
    [discriminate|].
  injection Hgen as <-.
  exists c. do 2 eexists. split; [exact Hc|]. split; [exact Hhigh|].
  cbv zeta. split; [|reflexivity].
  apply toFixed_one_decimal_place.
Qed.

Lemma compare_first_insight_of_selected_witness :
  let req := {| companyIds := Some [1%Z; 2%Z]; metrics := None |} in
  let w := {| db := listed_database; console := [] |} in
  let rows := map (row_of two_decimals) (map (summary 100 (db w)) (selected [1%Z; 2%Z] (db w))) in
  let answer :=
    {| status_code := 200;
       body := json_comparison rows
                 ["Globex leads in market capitalization with $5.0B";
                  "Acme Corp shows highest growth rate at undefined%";
                  "Overall market sentiment is negative"]%string |} in
  compare two_decimals read_numeral plain_digits None 100 req w = (inr answer, w) /\
  exists c text rest,
    In c (selected [1%Z; 2%Z] (db w)) /\
    first_highest (fun r => exact (cap read_numeral r))
                  (row_of two_decimals (summary 100 (db w) c)) rows /\
    let billions := num_div (cap read_numeral (row_of two_decimals (summary 100 (db w) c)))
                            (of_Z 1000000000) in
    (plain billions -> one_decimal_place (exact billions) text) /\
    body answer = json_comparison rows
                    ((name c ++ " leads in market capitalization with $"
                      ++ text ++ "B")%string :: rest).
Proof.
  intros req w rows answer.
  assert (Hrun : compare two_decimals read_numeral plain_digits None 100 req w
                 = (inr answer, w)) by (vm_compute; reflexivity).
  split; [exact Hrun|].
  apply (compare_first_insight_of_selected two_decimals read_numeral plain_digits 100 req
           [1%Z; 2%Z] w answer w).
  - simpl. repeat constructor; simpl; intuition discriminate.
  - reflexivity.
  - simpl. lia.
  - intros x [<-|[<-|[]]]; vm_compute; reflexivity.
  - exact Hrun.
  - reflexivity.
Defined.

(** ** The rows of the analysis *)

Lemma industry_rows_fan_out (code : string) (d : database) :
  industry_rows code d = flat_map (industry_fan_out d) (industries_with code d).
Proof.
  unfold industry_rows, left_join, industries_with.
  rewrite flat_map_flat_map.
  rewrite (filter_flat_map _
             (fun i => sql_eq String.eqb (industry_naics_code i) (Some code))).
  - apply flat_map_ext. intros i. now rewrite flat_map_map.
  - intros i r Hr. rewrite flat_map_map in Hr.
    apply in_flat_map in Hr. destruct Hr as [oc [_ Hr]].
    apply in_map_iff in Hr. destruct Hr as [f [<- _]]. reflexivity.
Qed.

Lemma industry_fan_out_not_empty (d : database) (i : industry) :
  industry_fan_out d i <> [].
Proof.
  unfold industry_fan_out.
  destruct (matches (fun i c => sql_eq String.eqb (industry_naics_code i) (naics_code c))
                    i (companies d)) as [|oc ocs] eqn:E.
  - now apply matches_not_empty in E.
  - simpl.
    destruct (matches (fun (ic : industry * option company) fm =>
                sql_eq Z.eqb (opt (fun c => Some (company_id c)) (snd ic))
                       (metric_company_id fm)
                && sql_eq String.eqb (metric_type fm) (Some "revenue_growth"%string))
              (i, oc) (financial_metrics d)) as [|f fs] eqn:F.
    + now apply matches_not_empty in F.
    + discriminate.
Qed.

Lemma industry_fan_out_title (d : database) (i : industry)
  (r : industry * option company * option financial_metric) :
  In r (industry_fan_out d i) -> industry_title (fst (fst r)) = industry_title i.
Proof.
  intros Hr. apply in_flat_map in Hr. destruct Hr as [oc [_ Hr]].
  apply in_map_iff in Hr. destruct Hr as [f [<- _]]. reflexivity.
Qed.

Lemma same_refl (k : option string) : same String.eqb k k = true.
Proof. destruct k; simpl; [apply String.eqb_refl|reflexivity]. Qed.

(** With one industry row for the code, the statement returns one row,
    aggregated over the joined rows of that industry. *)
Lemma industryQuery_single (code : string) (d : database) (i : industry) :
  industries_with code d = [i] ->
  industryQuery code d =
  (inr [{| analysis_industry_title := industry_title i;
           company_count :=
             sql_count (map (fun r => opt (fun c => Some (company_id c)) (snd (fst r)))
                            (industry_fan_out d i));
           avg_market_cap :=
             sql_avg (map (fun r => opt market_cap (snd (fst r))) (industry_fan_out d i));
           avg_growth_rate :=
             sql_avg (map (fun r => opt metric_value (snd r)) (industry_fan_out d i)) |}],
   d).
Proof.
  intros Hone. unfold industryQuery.
  rewrite industry_rows_fan_out, Hone.
  rewrite (group_by_sources _ (same String.eqb) (industry_fan_out d) industry_title).
  - reflexivity.
  - apply same_refl.
  - apply industry_fan_out_not_empty.
  - apply industry_fan_out_title.
  - repeat constructor.
Qed.

Lemma matches_length {L R : Type} (on : L -> R -> bool) (l : L) (rs : list R) :
  List.length (matches on l rs) = Nat.max 1 (List.length (filter (on l) rs)).
Proof.
  unfold matches. destruct (filter (on l) rs) as [|r ms]; [reflexivity|].
  simpl. now rewrite length_map.
Qed.

Lemma industry_code_of (code : string) (d : database) (i : industry) :
  industries_with code d = [i] -> industry_naics_code i = Some code.
Proof.
  intros H. assert (Hin : In i (industries_with code d)) by (rewrite H; now left).
  apply filter_In in Hin. destruct Hin as [_ E].
  unfold sql_eq in E. destruct (industry_naics_code i) as [x|]; [|discriminate].
  apply String.eqb_eq in E. now subst.
Qed.

(** The companies an industry row joins with. *)
Lemma industry_matches (code : string) (d : database) (i : industry) :
  industry_naics_code i = Some code ->
  matches (fun i c => sql_eq String.eqb (industry_naics_code i) (naics_code c))
          i (companies d)
  = match industry_companies code d with
    | [] => [None]
    | cs => map Some cs
    end.
Proof. intros E. unfold matches, industry_companies. now rewrite E. Qed.

Lemma count_fan_out (d : database) (i : industry) (ocs : list (option company)) :
  sql_count
    (map (fun r : industry * option company * option financial_metric =>
            opt (fun c => Some (company_id c)) (snd (fst r)))
         (flat_map
            (fun oc : option company =>
               map (pair (i, oc))
                   (matches (fun (ic : industry * option company) fm =>
                               sql_eq Z.eqb (opt (fun c => Some (company_id c)) (snd ic))
                                      (metric_company_id fm)
                               && sql_eq String.eqb (metric_type fm)
                                         (Some "revenue_growth"%string))
                            (i, oc) (financial_metrics d)))
            ocs))
  = Z.of_nat (list_sum (map (fun oc => match oc with
                                       | Some c => analysis_fan_out d c
                                       | None => 0%nat
                                       end) ocs)).
Proof.
  unfold sql_count. f_equal.
  induction ocs as [|oc ocs IH]; [reflexivity|].
  cbn [flat_map map]. rewrite map_app. unfold non_null in *.
  rewrite flat_map_app, length_app, IH.
  unfold list_sum at 2. cbn [fold_right]. fold (list_sum
    (map (fun oc => match oc with Some c => analysis_fan_out d c | None => 0%nat end) ocs)).
  f_equal.
  rewrite map_map. cbn [fst snd].
  destruct oc as [c|].
  - transitivity (List.length
      (matches (fun (ic : industry * option company) fm =>
         sql_eq Z.eqb (opt (fun c => Some (company_id c)) (snd ic)) (metric_company_id fm)
         && sql_eq String.eqb (metric_type fm) (Some "revenue_growth"%string))
      (i, Some c) (financial_metrics d))); [|now rewrite matches_length].
    generalize (matches (fun (ic : industry * option company) fm =>
         sql_eq Z.eqb (opt (fun c => Some (company_id c)) (snd ic)) (metric_company_id fm)
         && sql_eq String.eqb (metric_type fm) (Some "revenue_growth"%string))
      (i, Some c) (financial_metrics d)) as ms.
    induction ms as [|m ms IHm]; [reflexivity|].
    cbn [map flat_map opt fst snd app List.length] in *. now rewrite IHm.
  - generalize (matches (fun (ic : industry * option company) fm =>
         sql_eq Z.eqb (opt (fun c => Some (company_id c)) (snd ic)) (metric_company_id fm)
         && sql_eq String.eqb (metric_type fm) (Some "revenue_growth"%string))
      (i, None) (financial_metrics d)) as ms.
    induction ms as [|m ms IHm]; [reflexivity|].
    cbn [map flat_map opt fst snd app List.length] in *. now rewrite IHm.
Qed.

Lemma growth_fan_out (d : database) (i : industry) (ocs : list (option company)) :
  non_null
    (map (fun r : industry * option company * option financial_metric =>
            opt metric_value (snd r))
         (flat_map
            (fun oc : option company =>
               map (pair (i, oc))
                   (matches (fun (ic : industry * option company) fm =>
                               sql_eq Z.eqb (opt (fun c => Some (company_id c)) (snd ic))
                                      (metric_company_id fm)
                               && sql_eq String.eqb (metric_type fm)
                                         (Some "revenue_growth"%string))
                            (i, oc) (financial_metrics d)))
            ocs))
  = flat_map (fun oc => match oc with
                        | Some c => metric_values "revenue_growth" c d
                        | None => []
                        end) ocs.
Proof.
  induction ocs as [|oc ocs IH]; [reflexivity|].
  cbn [flat_map]. rewrite map_app. unfold non_null in *.
  rewrite flat_map_app, IH. f_equal.
  rewrite map_map.
  change (non_null (map (opt metric_value)
            (matches (fun (ic : industry * option company) fm =>
               sql_eq Z.eqb (opt (fun c => Some (company_id c)) (snd ic)) (metric_company_id fm)
               && sql_eq String.eqb (metric_type fm) (Some "revenue_growth"%string))
             (i, oc) (financial_metrics d)))
          = match oc with
            | Some c => metric_values "revenue_growth" c d
            | None => []
            end).
  rewrite matches_values. destruct oc as [c|]; [reflexivity|].
  simpl. now rewrite filter_none.
Qed.

Lemma list_sum_somes {A : Type} (f : A -> nat) (l : list A) :
  list_sum (map (fun o => match o with Some x => f x | None => 0%nat end) (map Some l))
  = list_sum (map f l).
Proof. now rewrite map_map. Qed.

Lemma flat_map_somes {A B : Type} (f : A -> list B) (l : list A) :
  flat_map (fun o => match o with Some x => f x | None => [] end) (map Some l)
  = flat_map f l.
Proof. now rewrite flat_map_map. Qed.

(** X17: with one industry row for the code, the analysis is answered
    200 with one row: its title is that of the industry, its
    [company_count] is the number of joined rows (for each company of the
    industry, the number of its 'revenue_growth' metrics, or one when it
    has none), and its [avg_growth_rate] is the mean of the
    'revenue_growth' values of all the companies of the industry taken
    together. *)
Theorem industry_analysis_counts_joined_rows (code : string) (w : world) (i : industry) :
  industries_with code (db w) = [i] ->
  exists row,
    industry_analysis None code w =
    (inr {| status_code := 200; body := json_analysis (Some row) |}, w) /\
    analysis_industry_title row = industry_title i /\
    company_count row =
      Z.of_nat (list_sum (map (analysis_fan_out (db w)) (industry_companies code (db w)))) /\
    avg_growth_rate row =
      average (flat_map (fun c => metric_values "revenue_growth" c (db w))
                        (industry_companies code (db w))).
Proof.
  intros Hone. pose proof (industry_code_of code (db w) i Hone) as Hcode.
  eexists. split; [|split; [|split]].
  - unfold industry_analysis, try_catch, bind, pool_query.
    rewrite (industryQuery_single code (db w) i Hone). simpl.
    rewrite world_eta. reflexivity.
  - reflexivity.
  - cbn [company_count]. unfold industry_fan_out.
    rewrite count_fan_out, (industry_matches code (db w) i Hcode).
    destruct (industry_companies code (db w)) as [|c cs]; [reflexivity|].
    now rewrite list_sum_somes.
  - cbn [avg_growth_rate]. unfold sql_avg, industry_fan_out.
    rewrite growth_fan_out, (industry_matches code (db w) i Hcode).
    destruct (industry_companies code (db w)) as [|c cs]; [reflexivity|].
    now rewrite flat_map_somes.
Qed.

Lemma industry_analysis_counts_joined_rows_witness :
  let w := {| db := software_database; console := [] |} in
  let i := {| industry_naics_code := Some "5112"%string;
              industry_title := Some "Software"%string |} in
  exists row,
    industry_analysis None "5112" w =
    (inr {| status_code := 200; body := json_analysis (Some row) |}, w) /\
    analysis_industry_title row = industry_title i /\
    company_count row =
      Z.of_nat (list_sum (map (analysis_fan_out (db w)) (industry_companies "5112" (db w)))) /\
    avg_growth_rate row =
      average (flat_map (fun c => metric_values "revenue_growth" c (db w))
                        (industry_companies "5112" (db w))).
Proof.
  intros w i. apply (industry_analysis_counts_joined_rows "5112" w i). reflexivity.
Defined.

Lemma cap_fan_out (d : database) (i : industry) (ocs : list (option company)) :
  (forall c, In (Some c) ocs -> (List.length (growth_metrics d c) <= 1)%nat) ->
  map (fun r : industry * option company * option financial_metric =>
         opt market_cap (snd (fst r)))
      (flat_map
         (fun oc : option company =>
            map (pair (i, oc))
                (matches (fun (ic : industry * option company) fm =>
                            sql_eq Z.eqb (opt (fun c => Some (company_id c)) (snd ic))
                                   (metric_company_id fm)
                            && sql_eq String.eqb (metric_type fm)
                                      (Some "revenue_growth"%string))
                         (i, oc) (financial_metrics d)))
         ocs)
  = map (opt market_cap) ocs.
Proof.
  intros Hone. induction ocs as [|oc ocs IH]; [reflexivity|].
  cbn [flat_map map]. rewrite map_app, IH by (intros c Hc; apply Hone; now right).
  rewrite map_map. cbn [fst snd].
  assert (Hlen : List.length
            (matches (fun (ic : industry * option company) fm =>
               sql_eq Z.eqb (opt (fun c => Some (company_id c)) (snd ic)) (metric_company_id fm)
               && sql_eq String.eqb (metric_type fm) (Some "revenue_growth"%string))
             (i, oc) (financial_metrics d)) = 1%nat).
  { rewrite matches_length. destruct oc as [c|].
    - pose proof (Hone c (or_introl eq_refl)) as H. unfold growth_metrics in H.
      cbn [snd opt]. lia.
    - cbn [snd opt]. rewrite filter_none; [reflexivity|]. reflexivity. }
  destruct (matches _ (i, oc) (financial_metrics d)) as [|m [|m' ms]]; try discriminate.
  reflexivity.
Qed.

(** X18: with one industry row for the code and no company of the
    industry holding more than one 'revenue_growth' metric, the row of
    the analysis has the number of companies of the industry as
    [company_count], the mean of their market caps as [avg_market_cap]
    and the mean of their growth values as [avg_growth_rate]; for an
    industry without company these are 0, NULL and NULL. *)
Theorem industry_analysis_of_companies (code : string) (w : world) (i : industry) :
  industries_with code (db w) = [i] ->
  (forall c, In c (industry_companies code (db w)) ->
             (List.length (growth_metrics (db w) c) <= 1)%nat) ->
  industry_analysis None code w =
  (inr {| status_code := 200;
          body := json_analysis (Some
            {| analysis_industry_title := industry_title i;
               company_count := Z.of_nat (List.length (industry_companies code (db w)));
               avg_market_cap :=
                 average (non_null (map market_cap (industry_companies code (db w))));
               avg_growth_rate :=
                 average (flat_map (fun c => metric_values "revenue_growth" c (db w))
                                   (industry_companies code (db w))) |}) |}, w).
Proof.
  intros Hone Hmost. pose proof (industry_code_of code (db w) i Hone) as Hcode.
  unfold industry_analysis, try_catch, bind, pool_query.
  rewrite (industryQuery_single code (db w) i Hone). simpl.
  rewrite world_eta. unfold industry_fan_out, sql_avg.
  rewrite count_fan_out, growth_fan_out, cap_fan_out, (industry_matches code (db w) i Hcode).
  - assert (Hcount : list_sum (map (analysis_fan_out (db w)) (industry_companies code (db w)))
                     = List.length (industry_companies code (db w))).
    { induction (industry_companies code (db w)) as [|x xs IH]; [reflexivity|].
      cbn [map List.length]. unfold list_sum. cbn [fold_right].
      fold (list_sum (map (analysis_fan_out (db w)) xs)).
      rewrite IH by (intros y Hy; apply Hmost; now right).
      pose proof (Hmost x (or_introl eq_refl)). unfold analysis_fan_out. lia. }
    destruct (industry_companies code (db w)) as [|c cs]; [reflexivity|].
    now rewrite list_sum_somes, flat_map_somes, map_map, Hcount.
  - intros c Hc. apply Hmost. rewrite (industry_matches code (db w) i Hcode) in Hc.
    destruct (industry_companies code (db w)) as [|c0 cs]; [destruct Hc; [discriminate|contradiction]|].
    apply in_map_iff in Hc. destruct Hc as [y [[= ->] Hy]]. exact Hy.
Qed.

Lemma industry_analysis_of_companies_witness :
  let d := {| users := []; users_id_seq := 1;
              companies := [sample_company 1 "Alpha" (Some "5112"%string) (Some 5000000000);
                            sample_company 2 "Beta" (Some "5112"%string) (Some 2000000000)];
              financial_metrics := [sample_metric 1 1 "revenue_growth" 10;
                                    sample_metric 2 1 "revenue" 100];
              news_sentiment := [];
              industries := [{| industry_naics_code := Some "5112"%string;
                                industry_title := Some "Software"%string |}] |} in
  let w := {| db := d; console := [] |} in
  let i := {| industry_naics_code := Some "5112"%string;
              industry_title := Some "Software"%string |} in
  industry_analysis None "5112" w =
  (inr {| status_code := 200;
          body := json_analysis (Some
            {| analysis_industry_title := industry_title i;
               company_count := Z.of_nat (List.length (industry_companies "5112" (db w)));
               avg_market_cap :=
                 average (non_null (map market_cap (industry_companies "5112" (db w))));
               avg_growth_rate :=
                 average (flat_map (fun c => metric_values "revenue_growth" c (db w))
                                   (industry_companies "5112" (db w))) |}) |}, w).
Proof.
  intros d w i. apply (industry_analysis_of_companies "5112" w i).
  - reflexivity.
  - intros c [<-|[<-|[]]]; simpl; lia.
Defined.

(* ====================================================================== *)
(** * Ordering and patterns *)
(* ====================================================================== *)

Section SortedFacts.
Context {A : Type}.
Variable cmp : A -> A -> Q.
Variable R : A -> A -> Prop.
Hypothesis cmp_le : forall a b, Qle_bool (cmp a b) 0 = true -> R a b.
Hypothesis cmp_gt : forall a b, Qle_bool (cmp a b) 0 = false -> R b a.
Hypothesis R_trans : forall a b c, R a b -> R b c -> R a c.

Lemma insert_permutation (x : A) (l : list A) : Permutation (insert cmp x l) (x :: l).
Proof.
  induction l as [|y l IH]; simpl; [reflexivity|].
  destruct (Qle_bool (cmp x y) 0); [reflexivity|].
  rewrite IH. apply perm_swap.
Qed.

Lemma sort_permutation (l : list A) : Permutation (sort cmp l) l.
Proof.
  induction l as [|x l IH]; simpl; [reflexivity|].
  rewrite insert_permutation. now constructor.
Qed.

Lemma insert_sorted (x : A) (l : list A) :
  StronglySorted R l -> StronglySorted R (insert cmp x l).
Proof.
  induction 1 as [|y l Hs IH Hy]; simpl.
  - repeat constructor.
  - destruct (Qle_bool (cmp x y) 0) eqn:E.
    + constructor; [now constructor|].
      constructor; [now apply cmp_le|].
      apply Forall_forall. intros z Hz. rewrite Forall_forall in Hy.
      apply R_trans with y; [now apply cmp_le|now apply Hy].
    + constructor; [exact IH|].
      apply Forall_forall. intros z Hz. apply insert_In in Hz.
      destruct Hz as [->|Hz]; [now apply cmp_gt|].
      rewrite Forall_forall in Hy. now apply Hy.
Qed.

Lemma sort_sorted (l : list A) : StronglySorted R (sort cmp l).
Proof.
  induction l as [|x l IH]; simpl; [constructor|now apply insert_sorted].
Qed.
End SortedFacts.

Section DescendingOrder.
Context {A : Type}.
Variable key : A -> option Q.

Lemma desc_le (a b : A) :
  Qle_bool (desc_nulls_first key a b) 0 = true -> before_desc key a b.
Proof.
  unfold desc_nulls_first, before_desc.
  destruct (key a) as [x|], (key b) as [y|]; try easy.
  intros H. apply Qle_bool_iff in H. lra.
Qed.

Lemma desc_gt (a b : A) :
  Qle_bool (desc_nulls_first key a b) 0 = false -> before_desc key b a.
Proof.
  unfold desc_nulls_first, before_desc.
  destruct (key a) as [x|], (key b) as [y|]; try easy.
  intros H. assert (N : ~ y - x <= 0) by (rewrite <- Qle_bool_iff; congruence). lra.
Qed.

Lemma before_desc_trans (a b c : A) :
  before_desc key a b -> before_desc key b c -> before_desc key a c.
Proof.
  unfold before_desc.
  destruct (key a) as [x|], (key b) as [y|], (key c) as [z|]; try easy.
  intros. lra.
Qed.

Lemma order_by_desc_sorted (l : list A) :
  StronglySorted (before_desc key) (sort (desc_nulls_first key) l).
Proof.
  apply (sort_sorted _ _ desc_le desc_gt before_desc_trans).
Qed.
End DescendingOrder.

(** ** LIKE *)

Lemma star_true (ts : list like_token) (s : list ascii) :
  like_match (any_string :: ts) s = true <->
  exists before after, s = before ++ after /\ like_match ts after = true.
Proof.
  induction s as [|x s IH].
  - simpl. rewrite orb_false_r. split.
    + intros H. now exists [], [].
    + intros [b [a [E H]]]. symmetry in E. apply app_eq_nil in E.
      destruct E as [-> ->]. exact H.
  - change (like_match (any_string :: ts) (x :: s))
      with (like_match ts (x :: s) || like_match (any_string :: ts) s).
    rewrite orb_true_iff, IH. split.
    + intros [H|[b [a [E H]]]].
      * now exists [], (x :: s).
      * exists (x :: b), a. split; [simpl; congruence|exact H].
    + intros [b [a [E H]]]. destruct b as [|y b].
      * left. simpl in E. now subst.
      * right. injection E as -> ->. eauto.
Qed.

Lemma literals_true (s t : list ascii) (ts : list like_token) :
  like_match (map literal s ++ ts) t = true <->
  exists after, t = s ++ after /\ like_match ts after = true.
Proof.
  revert t. induction s as [|c s IH]; intros t; simpl.
  - split; [eauto|]. now intros [a [-> H]].
  - destruct t as [|x t].
    + split; [discriminate|]. intros [a [E _]]. discriminate.
    + rewrite andb_true_iff, IH, Ascii.eqb_eq. split.
      * intros [-> [a [-> H]]]. eauto.
      * intros [a [[= -> ->] H]]. eauto.
Qed.

Lemma anything_true (s : list ascii) : like_match [any_string] s = true.
Proof.
  apply star_true. exists s, []. split; [now rewrite app_nil_r|reflexivity].
Qed.

(** The pattern [%s%], for a string [s] of plain characters, matches the
    texts in which [s] occurs. *)
Lemma contains_true (s t : list ascii) :
  like_match (any_string :: map literal s ++ [any_string]) t = true <-> occurs_in s t.
Proof.
  rewrite star_true. unfold occurs_in. split.
  - intros [b [a [-> H]]]. apply literals_true in H.
    destruct H as [a' [-> _]]. eauto.
  - intros [b [a ->]]. exists b, (s ++ a). split; [reflexivity|].
    apply literals_true. exists a. split; [reflexivity|apply anything_true].
Qed.

Lemma to_lower_plain (c : ascii) : plain_char c -> plain_char (to_lower c).
Proof.
  intros [H1 [H2 H3]]. unfold to_lower.
  destruct ((65 <=? N_of_ascii c)%N && (N_of_ascii c <=? 90)%N) eqn:E;
    [|repeat split; assumption].
  apply andb_true_iff in E. destruct E as [Lo Hi].
  apply N.leb_le in Lo, Hi.
  assert (Hn : forall d : ascii, (N_of_ascii d < 97)%N ->
                 ascii_of_N (N_of_ascii c + 32) <> d).
  { intros d Hd E. apply (f_equal N_of_ascii) in E.
    rewrite N_ascii_embedding in E by lia. lia. }
  repeat split; apply Hn; vm_compute; reflexivity.
Qed.

Lemma tokens_plain (s : list ascii) (rest : list ascii) :
  Forall plain_char s ->
  like_tokens (s ++ rest) = option_map (app (map literal s)) (like_tokens rest).
Proof.
  induction 1 as [|c s [H1 [H2 H3]] Hs IH]; simpl.
  - now destruct (like_tokens rest).
  - apply Ascii.eqb_neq in H1, H2, H3. rewrite H1, H2, H3, IH.
    now destruct (like_tokens rest).
Qed.

Lemma lower_append (a b : string) : lower (a ++ b) = (lower a ++ lower b)%list.
Proof.
  unfold lower. rewrite <- map_app. f_equal.
  induction a as [|c a IH]; simpl; congruence.
Qed.

Lemma search_tokens_plain (s : string) :
  Forall plain_char (list_ascii_of_string s) ->
  search_tokens s = Some (any_string :: map literal (lower s) ++ [any_string]).
Proof.
  intros H. unfold search_tokens. rewrite !lower_append.
  change (lower "%") with ["%"%char]. cbn [app like_tokens].
  change (Ascii.eqb "%" "\") with false. change (Ascii.eqb "%" "%") with true.
  cbn iota. rewrite tokens_plain; [reflexivity|].
  unfold lower. apply Forall_forall. intros c Hc. apply in_map_iff in Hc.
  destruct Hc as [c0 [<- Hc0]]. apply to_lower_plain.
  rewrite Forall_forall in H. now apply H.
Qed.

(** A pattern that ends with [%] has tokens. *)
Lemma tokens_before_percent (p : list ascii) :
  like_tokens (p ++ ["%"%char]) <> None /\
  forall c, like_tokens (c :: p ++ ["%"%char]) <> None.
Proof.
  induction p as [|a p [IH1 IH2]].
  - split; [discriminate|]. intros c. simpl.
    destruct (Ascii.eqb c "\"); [discriminate|].
    destruct (Ascii.eqb c "%"); [discriminate|].
    destruct (Ascii.eqb c "_"); discriminate.
  - split; [apply IH2|]. intros c.
    change (like_tokens (c :: (a :: p) ++ ["%"%char]))
      with (if Ascii.eqb c "\"
            then option_map (cons (literal a)) (like_tokens (p ++ ["%"%char]))
            else if Ascii.eqb c "%"
                 then option_map (cons any_string) (like_tokens (a :: p ++ ["%"%char]))
                 else if Ascii.eqb c "_"
                      then option_map (cons any_char) (like_tokens (a :: p ++ ["%"%char]))
                      else option_map (cons (literal c))
                                      (like_tokens (a :: p ++ ["%"%char]))).
    specialize (IH2 a).
    destruct (Ascii.eqb c "\");
      [destruct (like_tokens (p ++ ["%"%char])); [discriminate|congruence]|].
    destruct (like_tokens (a :: p ++ ["%"%char])); [|congruence].
    destruct (Ascii.eqb c "%"); [discriminate|].
    destruct (Ascii.eqb c "_"); discriminate.
Qed.

Lemma search_tokens_some (s : string) : exists ts, search_tokens s = Some ts.
Proof.
  unfold search_tokens. rewrite !lower_append.
  change (lower "%") with ["%"%char].
  destruct (tokens_before_percent (lower s)) as [_ H]. specialize (H "%"%char).
  change (["%"%char] ++ lower s ++ ["%"%char])%list with ("%"%char :: lower s ++ ["%"%char]).
  destruct (like_tokens ("%"%char :: lower s ++ ["%"%char])); [eauto|congruence].
Qed.

(* ====================================================================== *)
(** * The list of companies *)
(* ====================================================================== *)

Lemma companies_query_shape (req : companies_request) :
  companies_query req =
  (companies_text (given (q_industry req)) (given (q_search req)),
   match given (q_industry req) with Some i => [text_param i] | None => [] end
   ++ match given (q_search req) with
      | Some s => [text_param ("%" ++ s ++ "%"); text_param ("%" ++ s ++ "%")]
      | None => []
      end
   ++ [limit_param req; offset_param req]).
Proof.
  unfold companies_query, limit_param, offset_param.
  destruct (given (q_industry req)), (given (q_search req)); reflexivity.
Qed.

Lemma texts_differ :
  String.eqb text_10 text_00 = false /\ String.eqb text_01 text_00 = false /\
  String.eqb text_01 text_10 = false /\ String.eqb text_11 text_00 = false /\
  String.eqb text_11 text_10 = false /\ String.eqb text_11 text_01 = false.
Proof. repeat split; reflexivity. Qed.

Section CompaniesFacts.
Variable int8in : string -> option Z.

Lemma companies_statement_runs (i s : option string) (limit offset : param) (d : database) :
  companies_statement int8in (companies_text i s)
    (match i with Some x => [text_param x] | None => [] end
     ++ match s with
        | Some x => [text_param ("%" ++ x ++ "%"); text_param ("%" ++ x ++ "%")]
        | None => []
        end
     ++ [limit; offset]) d
  = (match both (to_bigint int8in (Some limit)) (to_bigint int8in (Some offset)) with
     | inl e => inl e
     | inr (l, o) =>
         select_companies i
           (option_map (fun x => (("%" ++ x ++ "%")%string, ("%" ++ x ++ "%")%string)) s)
           l o d
     end, d).
Proof.
  destruct texts_differ as [E1 [E2 [E3 [E4 [E5 E6]]]]].
  unfold companies_statement, companies_text.
  destruct i as [i|], s as [s|]; cbn [app List.length Nat.eqb negb nth_error Nat.sub].
  - rewrite E4, E5, E6, String.eqb_refl. cbn [to_text both option_map].
    destruct (to_bigint int8in (Some limit)), (to_bigint int8in (Some offset)); reflexivity.
  - rewrite E1, String.eqb_refl. cbn [to_text both option_map].
    destruct (to_bigint int8in (Some limit)), (to_bigint int8in (Some offset)); reflexivity.
  - rewrite E2, E3, String.eqb_refl. cbn [to_text both option_map].
    destruct (to_bigint int8in (Some limit)), (to_bigint int8in (Some offset)); reflexivity.
  - rewrite String.eqb_refl. cbn [to_text both option_map].
    destruct (to_bigint int8in (Some limit)), (to_bigint int8in (Some offset)); reflexivity.
Qed.

Lemma select_companies_matches (i s : option string) (l o : Z) (d : database) :
  (0 <= l)%Z -> (0 <= o)%Z ->
  select_companies i
    (option_map (fun x => (("%" ++ x ++ "%")%string, ("%" ++ x ++ "%")%string)) s) l o d
  = inr (limit_offset l o
           (sort (desc_nulls_first market_cap)
                 (filter (company_matches i s) (companies d)))).
Proof.
  intros Hl Ho. unfold select_companies.
  replace (l <? 0)%Z with false by (symmetry; apply Z.ltb_ge; lia).
  replace (o <? 0)%Z with false by (symmetry; apply Z.ltb_ge; lia).
  assert (Hi : match i with
               | Some x => filter (fun c => sql_eq String.eqb (industry_code c) (Some x))
                                  (companies d)
               | None => companies d
               end
               = filter (fun c => match i with
                                  | Some x => sql_eq String.eqb (industry_code c) (Some x)
                                  | None => true
                                  end) (companies d)).
  { destruct i; [reflexivity|]. symmetry. now apply filter_all. }
  rewrite Hi. destruct s as [s|]; cbn [option_map].
  - fold (search_tokens s). destruct (search_tokens_some s) as [ts Hts]. rewrite Hts.
    rewrite filter_twice. do 3 f_equal. apply filter_ext. intros c.
    unfold company_matches. now rewrite Hts.
  - do 3 f_equal. apply filter_ext. intros c. unfold company_matches.
    now rewrite andb_true_r.
Qed.

(** The answer to a request whose limit and offset are read as numbers
    that are not negative. *)
Lemma list_companies_rows (req : companies_request) (l o : Z) (w : world) :
  read_as int8in (limit_param req) l -> read_as int8in (offset_param req) o ->
  (0 <= l)%Z -> (0 <= o)%Z ->
  list_companies int8in None req w =
  (inr {| answer_status := 200;
          answer_body_of :=
            json_rows
              (limit_offset l o
                 (sort (desc_nulls_first market_cap)
                       (filter (company_matches (given (q_industry req))
                                                (given (q_search req)))
                               (companies (db w))))) |}, w).
Proof.
  intros Hl Ho Hl0 Ho0. unfold list_companies, try_catch.
  rewrite companies_query_shape. unfold bind, pool_query.
  rewrite companies_statement_runs. unfold read_as in Hl, Ho. rewrite Hl, Ho.
  cbn [both]. rewrite select_companies_matches by assumption.
  unfold reply, ret. now rewrite world_eta.
Qed.
End CompaniesFacts.

(** X19: the text and the parameters the handler builds fit together.
    The text is one of four constant texts, fixed by which of the two
    filters are given (a filter that is absent or the empty string is not
    given), so no value of the request is part of it; and the
    placeholders are numbered so that the statement is the selection on
    the industry given, on the pattern [%search%] for both name and
    ticker symbol, with the limit and the offset of the request. *)
Theorem companies_query_well_formed
  (int8in : string -> option Z) (req : companies_request) (d : database) :
  In (fst (companies_query req)) [text_00; text_10; text_01; text_11] /\
  companies_statement int8in (fst (companies_query req)) (snd (companies_query req)) d
  = (match both (to_bigint int8in (Some (limit_param req)))
                (to_bigint int8in (Some (offset_param req))) with
     | inl e => inl e
     | inr (l, o) =>
         select_companies (given (q_industry req))
           (option_map (fun x => (("%" ++ x ++ "%")%string, ("%" ++ x ++ "%")%string))
                       (given (q_search req)))
           l o d
     end, d).
Proof.
  rewrite companies_query_shape. cbn [fst snd]. split.
  - unfold companies_text.
    destruct (given (q_industry req)), (given (q_search req)); simpl; tauto.
  - apply companies_statement_runs.
Qed.

(** X20: with the pool up and a limit [l] and an offset [o] that are not
    negative, the answer is 200 with at most [l] rows: the companies that
    pass the filters, ordered by market cap from the highest (the ones
    without market cap first), without the first [o] of them. *)
Theorem list_companies_page
  (int8in : string -> option Z) (req : companies_request) (l o : Z) (w : world) :
  read_as int8in (limit_param req) l -> read_as int8in (offset_param req) o ->
  (0 <= l)%Z -> (0 <= o)%Z ->
  exists ranked rows,
    list_companies int8in None req w =
    (inr {| answer_status := 200; answer_body_of := json_rows rows |}, w) /\
    Permutation ranked
      (filter (company_matches (given (q_industry req)) (given (q_search req)))
              (companies (db w))) /\
    StronglySorted (before_desc market_cap) ranked /\
    rows = firstn (Z.to_nat l) (skipn (Z.to_nat o) ranked) /\
    (List.length rows <= Z.to_nat l)%nat.
Proof.
  intros Hl Ho Hl0 Ho0. do 2 eexists.
  split; [apply (list_companies_rows int8in req l o w Hl Ho Hl0 Ho0)|].
  split; [apply sort_permutation|].
  split; [apply order_by_desc_sorted|].
  split; [reflexivity|]. unfold limit_offset. apply firstn_le_length.
Qed.

Lemma list_companies_page_witness :
  let req := {| q_industry := Some "TECH"%string; q_search := None;
                q_limit := Some "1"%string; q_offset := None |} in
  let w := {| db := listed_database; console := [] |} in
  exists ranked rows,
    list_companies read_number None req w =
    (inr {| answer_status := 200; answer_body_of := json_rows rows |}, w) /\
    Permutation ranked
      (filter (company_matches (given (q_industry req)) (given (q_search req)))
              (companies (db w))) /\
    StronglySorted (before_desc market_cap) ranked /\
    rows = firstn (Z.to_nat 1) (skipn (Z.to_nat 0) ranked) /\
    (List.length rows <= Z.to_nat 1)%nat.
Proof.
  intros req w. apply (list_companies_page read_number req 1 0 w).
  - reflexivity.
  - reflexivity.
  - lia.
  - lia.
Defined.

Lemma company_matches_plain (i : option string) (s : string) (c : company) :
  Forall plain_char (list_ascii_of_string s) ->
  company_matches i (Some s) c = true <->
  (forall x, i = Some x -> industry_code c = Some x) /\
  (occurs_in (lower s) (lower (name c)) \/
   exists t, ticker_symbol c = Some t /\ occurs_in (lower s) (lower t)).
Proof.
  intros Hs. unfold company_matches. rewrite (search_tokens_plain s Hs).
  rewrite andb_true_iff, orb_true_iff, contains_true.
  assert (Hi : match i with
               | Some x => sql_eq String.eqb (industry_code c) (Some x)
               | None => true
               end = true <-> (forall x, i = Some x -> industry_code c = Some x)).
  { destruct i as [x|]; [|split; [discriminate|reflexivity]].
    unfold sql_eq. destruct (industry_code c) as [y|].
    - rewrite String.eqb_eq. split; [intros -> z [= ->]; reflexivity|].
      intros H. specialize (H x eq_refl). congruence.
    - split; [discriminate|]. intros H. specialize (H x eq_refl). discriminate. }
  rewrite Hi. apply and_iff_compat_l. apply or_iff_compat_l.
  destruct (ticker_symbol c) as [t|].
  - rewrite contains_true. split; [eauto|]. now intros [t' [[= <-] H]].
  - split; [discriminate|]. now intros [t [E _]].
Qed.

(** X21: for a search string without [%], [_] and backslash, the search
    filter is a substring test that ignores the case of ASCII letters:
    the ranked rows are the companies of the table (of the industry, when
    one is given) whose name or ticker symbol contains the string. *)
Theorem list_companies_search_is_substring
  (int8in : string -> option Z) (req : companies_request) (s : string) (l o : Z)
  (w : world) :
  given (q_search req) = Some s ->
  Forall plain_char (list_ascii_of_string s) ->
  read_as int8in (limit_param req) l -> read_as int8in (offset_param req) o ->
  (0 <= l)%Z -> (0 <= o)%Z ->
  exists ranked,
    list_companies int8in None req w =
    (inr {| answer_status := 200;
            answer_body_of := json_rows (firstn (Z.to_nat l) (skipn (Z.to_nat o) ranked)) |},
     w) /\
    StronglySorted (before_desc market_cap) ranked /\
    forall c,
      In c ranked <->
      In c (companies (db w)) /\
      (forall i, given (q_industry req) = Some i -> industry_code c = Some i) /\
      (occurs_in (lower s) (lower (name c)) \/
       exists t, ticker_symbol c = Some t /\ occurs_in (lower s) (lower t)).
Proof.
  intros Hs Hplain Hl Ho Hl0 Ho0. eexists.
  split; [apply (list_companies_rows int8in req l o w Hl Ho Hl0 Ho0)|].
  split; [apply order_by_desc_sorted|].
  intros c. rewrite sort_In, filter_In, Hs.
  now rewrite (company_matches_plain _ s c Hplain).
Qed.

Lemma list_companies_search_is_substring_witness :
  let req := {| q_industry := None; q_search := Some "ac"%string;
                q_limit := None; q_offset := None |} in
  let w := {| db := listed_database; console := [] |} in
  exists ranked,
    list_companies read_number None req w =
    (inr {| answer_status := 200;
            answer_body_of := json_rows (firstn (Z.to_nat 50) (skipn (Z.to_nat 0) ranked)) |},
     w) /\
    StronglySorted (before_desc market_cap) ranked /\
    forall c,
      In c ranked <->
      In c (companies (db w)) /\
      (forall i, given (q_industry req) = Some i -> industry_code c = Some i) /\
      (occurs_in (lower "ac") (lower (name c)) \/
       exists t, ticker_symbol c = Some t /\ occurs_in (lower "ac") (lower t)).
Proof.
  intros req w.
  apply (list_companies_search_is_substring read_number req "ac" 50 0 w).
  - reflexivity.
  - repeat constructor; discriminate.
  - reflexivity.
  - reflexivity.
  - lia.
  - lia.
Defined.

(** X22: a limit or an offset that the database does not read as a
    number, or reads as a negative one, makes the query fail: the answer
    is 500 with the fixed message, whatever the filters. *)
Theorem list_companies_bad_page
  (int8in : string -> option Z) (fault : option string) (req : companies_request)
  (w : world) :
  (forall l o, read_as int8in (limit_param req) l -> read_as int8in (offset_param req) o ->
               (l < 0)%Z \/ (o < 0)%Z) ->
  exists error,
    list_companies int8in fault req w =
    (inr {| answer_status := 500;
            answer_body_of := json_failure "Failed to fetch companies" |},
     {| db := db w;
        console := console w ++ [console_error "Error fetching companies:" error] |}).
Proof.
  intros Hbad. unfold list_companies, try_catch.
  rewrite companies_query_shape. unfold bind, pool_query.
  destruct fault as [e|]; [eexists; reflexivity|].
  rewrite companies_statement_runs. unfold read_as in Hbad.
  destruct (to_bigint int8in (Some (limit_param req))) as [e|l];
    [destruct (to_bigint int8in (Some (offset_param req))); eexists; reflexivity|].
  destruct (to_bigint int8in (Some (offset_param req))) as [e|o];
    [eexists; reflexivity|].
  cbn [both]. unfold select_companies.
  destruct (Hbad l o eq_refl eq_refl) as [H|H].
  - apply Z.ltb_lt in H. rewrite H. eexists. reflexivity.
  - destruct (l <? 0)%Z; [eexists; reflexivity|].
    apply Z.ltb_lt in H. rewrite H. eexists. reflexivity.
Qed.

Lemma list_companies_bad_page_witness :
  let req := {| q_industry := None; q_search := None;
                q_limit := Some "ten"%string; q_offset := None |} in
  let w := {| db := listed_database; console := [] |} in
  exists error,
    list_companies read_number None req w =
    (inr {| answer_status := 500;
            answer_body_of := json_failure "Failed to fetch companies" |},
     {| db := db w;
        console := console w ++ [console_error "Error fetching companies:" error] |}).
Proof.
  intros req w. apply (list_companies_bad_page read_number None req w).
  intros l o Hl. discriminate Hl.
Defined.

Lemma percent_tokens (n : nat) :
  like_tokens (repeat "%"%char n) = Some (repeat any_string n).
Proof.
  induction n as [|n IH]; [reflexivity|].
  cbn [repeat like_tokens].
  change (Ascii.eqb "%" "\") with false. change (Ascii.eqb "%" "%") with true.
  cbn iota. now rewrite IH.
Qed.

Lemma percents_match (n : nat) (t : list ascii) :
  like_match (repeat any_string (S n)) t = true.
Proof.
  induction n as [|n IH]; [apply anything_true|].
  change (repeat any_string (S (S n))) with (any_string :: repeat any_string (S n)).
  apply star_true. exists [], t. split; [reflexivity|exact IH].
Qed.

Lemma company_matches_percents (i : option string) (s : string) (c : company) :
  Forall (eq "%"%char) (list_ascii_of_string s) ->
  company_matches i (Some s) c = company_matches i None c.
Proof.
  intros Hs. unfold company_matches, search_tokens. f_equal.
  rewrite !lower_append. change (lower "%") with ["%"%char].
  assert (E : lower s = repeat "%"%char (List.length (lower s))).
  { unfold lower. induction Hs as [|x xs <- Hxs IH]; [reflexivity|].
    cbn [map List.length repeat]. now rewrite <- IH. }
  rewrite E.
  change (["%"%char] ++ repeat "%"%char (List.length (lower s)) ++ ["%"%char])%list
    with (repeat "%"%char 1 ++ repeat "%"%char (List.length (lower s))
          ++ repeat "%"%char 1)%list.
  rewrite <- !repeat_app, percent_tokens.
  replace (1 + (List.length (lower s) + 1))%nat with (S (S (List.length (lower s)))) by lia.
  now rewrite percents_match.
Qed.

(** X23: the characters of the search string are pattern characters: a
    search made of percent signs only passes every company, so the answer
    is the one of the same request without search. *)
Theorem list_companies_percent_search
  (int8in : string -> option Z) (fault : option string) (req : companies_request)
  (s : string) (w : world) :
  given (q_search req) = Some s ->
  Forall (eq "%"%char) (list_ascii_of_string s) ->
  list_companies int8in fault req w
  = list_companies int8in fault
      {| q_industry := q_industry req; q_search := None;
         q_limit := q_limit req; q_offset := q_offset req |} w.
Proof.
  intros Hs Hall. unfold list_companies, try_catch.
  rewrite !companies_query_shape. cbn [q_industry q_search given].
  rewrite Hs. unfold limit_param, offset_param. cbn [q_limit q_offset].
  unfold bind, pool_query. destruct fault as [e|]; [reflexivity|].
  rewrite !companies_statement_runs.
  destruct (both _ _) as [e|[l o]]; [reflexivity|].
  unfold select_companies.
  destruct (l <? 0)%Z; [reflexivity|]. destruct (o <? 0)%Z; [reflexivity|].
  cbn [option_map]. fold (search_tokens s).
  destruct (search_tokens_some s) as [ts Hts]. rewrite Hts.
  replace (filter _ _) with
    (match given (q_industry req) with
     | Some i => filter (fun c => sql_eq String.eqb (industry_code c) (Some i))
                        (companies (db w))
     | None => companies (db w)
     end); [reflexivity|].
  symmetry. apply filter_all. intros c _.
  pose proof (company_matches_percents None s c Hall) as H.
  unfold company_matches in H. rewrite Hts in H. exact H.
Qed.

Lemma list_companies_percent_search_witness :
  let req := {| q_industry := Some "TECH"%string; q_search := Some "%"%string;
                q_limit := None; q_offset := None |} in
  let w := {| db := listed_database; console := [] |} in
  list_companies read_number None req w
  = list_companies read_number None
      {| q_industry := q_industry req; q_search := None;
         q_limit := q_limit req; q_offset := q_offset req |} w.
Proof.
  intros req w. apply (list_companies_percent_search read_number None req "%" w).
  - reflexivity.
  - repeat constructor.
Defined.

(* ====================================================================== *)
(** * The detail of a company *)
(* ====================================================================== *)

(** X24: with the pool up and an id the database reads as a number that
    no company has, the answer is 404 with 'Company not found', and
    carries no metrics or market data. *)
Theorem company_detail_not_found
  (int8in : string -> option Z) (market_data : list market_data_row)
  (id : string) (z : Z) (w : world) :
  int8in id = Some z ->
  (forall c, In c (companies (db w)) -> company_id c <> z) ->
  company_detail int8in (None, None, None) market_data id w =
  (inr {| answer_status := 404; answer_body_of := json_failure "Company not found" |}, w).
Proof.
  intros Hid Hnone.
  unfold company_detail, try_catch, bind, pool_query, companyQuery, metricsQuery,
    marketQuery, to_bigint.
  rewrite Hid. cbn [db console].
  rewrite filter_none; [simpl; now rewrite world_eta|].
  intros c Hc. apply Z.eqb_neq. now apply Hnone.
Qed.

Lemma company_detail_not_found_witness :
  company_detail read_number (None, None, None) [sample_market 1 10] "999999"
                 {| db := listed_database; console := [] |} =
  (inr {| answer_status := 404; answer_body_of := json_failure "Company not found" |},
   {| db := listed_database; console := [] |}).
Proof.
  apply (company_detail_not_found read_number [sample_market 1 10] "999999" 999999
           {| db := listed_database; console := [] |}).
  - reflexivity.
  - intros c [<-|[<-|[<-|[]]]]; discriminate.
Defined.

(** X25: with the pool up and the id of a company, the answer is 200
    with that company, at most 20 of its financial metrics and at most 20
    of its market data rows: the first 20 of the rows of the company
    ordered from the latest date (rows without date first). *)
Theorem company_detail_found
  (int8in : string -> option Z) (market_data : list market_data_row)
  (id : string) (c : company) (w : world) :
  int8in id = Some (company_id c) ->
  NoDup (map company_id (companies (db w))) ->
  In c (companies (db w)) ->
  exists ranked_metrics ranked_market,
    company_detail int8in (None, None, None) market_data id w =
    (inr {| answer_status := 200;
            answer_body_of := json_detail c (firstn 20 ranked_metrics)
                                          (firstn 20 ranked_market) |}, w) /\
    Permutation ranked_metrics
      (filter (fun fm => sql_eq Z.eqb (metric_company_id fm) (Some (company_id c)))
              (financial_metrics (db w))) /\
    StronglySorted (before_desc (date_key period_date)) ranked_metrics /\
    Permutation ranked_market
      (filter (fun md => sql_eq Z.eqb (market_company_id md) (Some (company_id c)))
              market_data) /\
    StronglySorted (before_desc (date_key measurement_date)) ranked_market.
Proof.
  intros Hid Hkey Hin. do 2 eexists. split; [|split; [|split; [|split]]].
  - unfold company_detail, try_catch, bind, pool_query, companyQuery, metricsQuery,
      marketQuery, to_bigint.
    rewrite Hid. cbn [db console].
    rewrite (filter_by_key company_id _ c Hkey Hin). cbn [nth_error].
    unfold reply, ret, limit_offset. cbn [Z.to_nat skipn].
    rewrite world_eta. reflexivity.
  - apply sort_permutation.
  - apply order_by_desc_sorted.
  - apply sort_permutation.
  - apply order_by_desc_sorted.
Qed.

Lemma company_detail_found_witness :
  let w := {| db := listed_database; console := [] |} in
  let acme := nth 0 (companies listed_database) (sample_company 0 "" None None) in
  exists ranked_metrics ranked_market,
    company_detail read_number (None, None, None) [sample_market 1 10; sample_market 1 20]
                   "1" w =
    (inr {| answer_status := 200;
            answer_body_of := json_detail acme (firstn 20 ranked_metrics)
                                          (firstn 20 ranked_market) |}, w) /\
    Permutation ranked_metrics
      (filter (fun fm => sql_eq Z.eqb (metric_company_id fm) (Some (company_id acme)))
              (financial_metrics (db w))) /\
    StronglySorted (before_desc (date_key period_date)) ranked_metrics /\
    Permutation ranked_market
      (filter (fun md => sql_eq Z.eqb (market_company_id md) (Some (company_id acme)))
              [sample_market 1 10; sample_market 1 20]) /\
    StronglySorted (before_desc (date_key measurement_date)) ranked_market.
Proof.
  intros w acme.
  apply (company_detail_found read_number [sample_market 1 10; sample_market 1 20] "1" acme w).
  - reflexivity.
  - simpl. repeat constructor; simpl; intuition discriminate.
  - now left.
Defined.

(** X26: an id that the database does not read as a number is answered
    500, not 404; and when one of the three queries is rejected the
    answer is 500 as well, whatever the other two found. *)
Theorem company_detail_fails
  (int8in : string -> option Z) (faults : option string * option string * option string)
  (market_data : list market_data_row) (id : string) (w : world) :
  int8in id = None \/ faults <> (None, None, None) ->
  exists error,
    company_detail int8in faults market_data id w =
    (inr {| answer_status := 500;
            answer_body_of := json_failure "Failed to fetch company details" |},
     {| db := db w;
        console := console w
                   ++ [console_error "Error fetching company details:" error] |}).
Proof.
  intros H. destruct faults as [[f1 f2] f3].
  unfold company_detail, try_catch, bind, pool_query, companyQuery, metricsQuery,
    marketQuery, to_bigint.
  destruct f1 as [e1|]; [eexists; reflexivity|].
  destruct (int8in id) as [z|] eqn:Hid; [|eexists; reflexivity].
  cbn [db console].
  destruct f2 as [e2|]; [eexists; reflexivity|]. cbn [db console].
  destruct f3 as [e3|]; [eexists; reflexivity|].
  destruct H as [H|H]; [discriminate|congruence].
Qed.

Lemma company_detail_fails_witness :
  let w := {| db := listed_database; console := [] |} in
  exists error,
    company_detail read_number (None, None, None) [] "acme" w =
    (inr {| answer_status := 500;
            answer_body_of := json_failure "Failed to fetch company details" |},
     {| db := db w;
        console := console w
                   ++ [console_error "Error fetching company details:" error] |}).
Proof.
  intros w. apply (company_detail_fails read_number (None, None, None) [] "acme" w).
  left. reflexivity.
Defined.

(* ====================================================================== *)
(** * The full-text search *)
(* ====================================================================== *)

Section SearchFacts.
Variables tsvector tsquery : Type.
Variable to_tsvector : string -> tsvector.
Variable plainto_tsquery : string -> tsquery.
Variable ts_match : tsvector -> tsquery -> bool.
Variable ts_rank : tsvector -> tsquery -> Q.

Lemma by_relevance_le (a b : search_row) :
  Qle_bool (by_relevance a b) 0 = true -> relevance b <= relevance a.
Proof.
  unfold by_relevance.
  destruct (Qeq_bool (relevance b - relevance a) 0) eqn:E.
  - intros _. apply Qeq_bool_eq in E. lra.
  - intros H. apply Qle_bool_iff in H. lra.
Qed.

Lemma by_relevance_gt (a b : search_row) :
  Qle_bool (by_relevance a b) 0 = false -> relevance a <= relevance b.
Proof.
  unfold by_relevance.
  destruct (Qeq_bool (relevance b - relevance a) 0) eqn:E.
  - intros _. apply Qeq_bool_eq in E. lra.
  - intros H.
    assert (N : ~ relevance b - relevance a <= 0) by (rewrite <- Qle_bool_iff; congruence).
    lra.
Qed.

Lemma found_rows (q : string) (d : database) (r : search_row) :
  In r (flat_map (fun c =>
          match document c, Some q with
          | Some doc, Some q =>
              if ts_match (to_tsvector doc) (plainto_tsquery q) then
                [{| found_id := company_id c; found_name := name c;
                    found_ticker_symbol := ticker_symbol c;
                    found_industry_code := industry_code c;
                    found_market_cap := market_cap c;
                    relevance := ts_rank (to_tsvector doc) (plainto_tsquery q) |}]
              else []
          | _, _ => []
          end) (companies d)) <->
  exists c about,
    In c (companies d) /\ description c = Some about /\
    ts_match (to_tsvector (name c ++ " " ++ about)%string) (plainto_tsquery q) = true /\
    r = found_row to_tsvector plainto_tsquery ts_rank q c about.
Proof.
  rewrite in_flat_map. unfold document, found_row. split.
  - intros [c [Hc Hr]]. destruct (description c) as [about|] eqn:E; [|destruct Hr].
    destruct (ts_match _ _) eqn:M; [|destruct Hr].
    destruct Hr as [<-|[]]. exists c, about. auto.
  - intros [c [about [Hc [E [M ->]]]]]. exists c. split; [exact Hc|].
    rewrite E, M. now left.
Qed.
End SearchFacts.

(** X27: with the pool up and a query, the search is answered 200 with
    at most 20 rows, the first 20 of the found rows ordered from the
    highest rank.  A row is found for a company exactly when the company
    has a description and its name and description match the query: a
    company without description is never found, whatever its name. *)
Theorem search_finds_described_companies
  (tsvector tsquery : Type) (to_tsvector : string -> tsvector)
  (plainto_tsquery : string -> tsquery) (ts_match : tsvector -> tsquery -> bool)
  (ts_rank : tsvector -> tsquery -> Q)
  (req : search_request) (q : string) (w : world) :
  search_query req = Some q ->
  exists ranked,
    search tsvector tsquery to_tsvector plainto_tsquery ts_match ts_rank None req w =
    (inr {| answer_status := 200; answer_body_of := json_found (firstn 20 ranked) |}, w) /\
    StronglySorted (fun a b => relevance b <= relevance a) ranked /\
    forall r,
      In r ranked <->
      exists c about,
        In c (companies (db w)) /\ description c = Some about /\
        ts_match (to_tsvector (name c ++ " " ++ about)%string) (plainto_tsquery q) = true /\
        r = found_row to_tsvector plainto_tsquery ts_rank q c about.
Proof.
  intros Hq. eexists. split; [|split].
  - unfold search, try_catch, bind, pool_query, searchQuery. rewrite Hq.
    unfold reply, ret, limit_offset. cbn [db console Z.to_nat skipn].
    rewrite world_eta. reflexivity.
  - apply (sort_sorted by_relevance (fun a b => relevance b <= relevance a)
             by_relevance_le by_relevance_gt).
    intros a b c H1 H2. lra.
  - intros r. rewrite sort_In. apply found_rows.
Qed.

Lemma search_finds_described_companies_witness :
  let req := {| search_query := Some "Acme"%string; search_filters := None |} in
  let w := {| db := listed_database; console := [] |} in
  exists ranked,
    search string string (fun s => s) (fun s => s) prefix_match length_rank None req w =
    (inr {| answer_status := 200; answer_body_of := json_found (firstn 20 ranked) |}, w) /\
    StronglySorted (fun a b => relevance b <= relevance a) ranked /\
    forall r,
      In r ranked <->
      exists c about,
        In c (companies (db w)) /\ description c = Some about /\
        prefix_match (name c ++ " " ++ about)%string "Acme" = true /\
        r = found_row (fun s => s) (fun s => s) length_rank "Acme" c about.
Proof.
  intros req w.
  apply (search_finds_described_companies string string (fun s => s) (fun s => s)
           prefix_match length_rank req "Acme" w).
  reflexivity.
Defined.

(** X28: a search request without query finds nothing: the query is
    NULL for the database, which matches no document, and the answer is
    200 with no row. *)
Theorem search_without_query
  (tsvector tsquery : Type) (to_tsvector : string -> tsvector)
  (plainto_tsquery : string -> tsquery) (ts_match : tsvector -> tsquery -> bool)
  (ts_rank : tsvector -> tsquery -> Q)
  (req : search_request) (w : world) :
  search_query req = None ->
  search tsvector tsquery to_tsvector plainto_tsquery ts_match ts_rank None req w =
  (inr {| answer_status := 200; answer_body_of := json_found [] |}, w).
Proof.
  intros Hq. unfold search, try_catch, bind, pool_query, searchQuery. rewrite Hq.
  replace (flat_map _ (companies (db w))) with (@nil search_row).
  - unfold reply, ret. cbn. now rewrite world_eta.
  - induction (companies (db w)) as [|c cs IH]; [reflexivity|].
    cbn [flat_map]. rewrite <- IH. now destruct (document c).
Qed.

Lemma search_without_query_witness :
  let req := {| search_query := None; search_filters := None |} in
  let w := {| db := listed_database; console := [] |} in
  search string string (fun s => s) (fun s => s) prefix_match length_rank None req w =
  (inr {| answer_status := 200; answer_body_of := json_found [] |}, w).
Proof.
  intros req w.
  apply (search_without_query string string (fun s => s) (fun s => s)
           prefix_match length_rank req w).
  reflexivity.
Defined.

(* ====================================================================== *)
(** * The checkout session, and all endpoints together *)
(* ====================================================================== *)
(** X29: the plan chosen at checkout is the plan stored: when the
    checkout request names a plan of at most 50 characters and Stripe
    accepts the session, the endpoint answers with the id of the session;
    and [handleSuccessfulPayment], called with the pool up for a session
    that carries the metadata it was created with, leaves the customer
    one row, 'active', whose plan is that plan. *)
Theorem checkout_plan_round_trip
  (createSession : session_params -> string + string) (FRONTEND_URL : option string)
  (checkout : checkout_request) (plan session_id : string)
  (now : Z) (session : stripe_object) (c : string) (w0 w : world) :
  planId checkout = Some plan ->
  (characters plan <= 50)%nat ->
  createSession (checkout_params FRONTEND_URL checkout) = inr session_id ->
  metadata session = present (params_metadata (checkout_params FRONTEND_URL checkout)) ->
  customer session = Some c ->
  fits 255 (Some c) ->
  fits 255 (subscription session) ->
  users_consistent (db w) ->
  create_checkout_session createSession FRONTEND_URL checkout w0 =
  (inr {| answer_status := 200; answer_body_of := json_session session_id |}, w0) /\
  exists w' u,
    handleSuccessfulPayment None now session w = (inr tt, w') /\
    rows_of_customer c (users (db w')) = [u] /\
    status u = Some "active"%string /\
    plan_id u = Some plan.
Proof.
  intros Hplan Hlen Hcreate Hm Hc F1 F2 Hcons. split.
  - unfold create_checkout_session, try_catch, bind, lift. now rewrite Hcreate.
  - unfold checkout_params in Hm. cbn [params_metadata] in Hm. rewrite Hplan in Hm.
    assert (Hfits : fits_columns session).
    { unfold fits_columns. rewrite Hc, Hm. repeat split; assumption. }
    destruct (upsert_row_row now c (subscription session)
                (property "planId" [("planId"%string, plan)])
                (Some "active"%string) (db w) Hcons)
      as [d' [u [Hq [Hrows [_ [Hp [Hst _]]]]]]].
    rewrite <- Hc in Hq.
    rewrite (handleSuccessfulPayment_fits now session _ d' w Hm Hfits Hq).
    exists {| db := d';
              console := console w
                ++ [console_log ["User subscription saved successfully"%string]] |}, u.
    split; [reflexivity|]. simpl. repeat split; assumption.
Qed.

Lemma checkout_plan_round_trip_witness :
  let checkout := {| priceId := Some "price_1"%string; planId := Some "pro"%string |} in
  let url := Some "https://app.example"%string in
  let session := {| object_id := Some "cs_1"%string; customer := Some "cus_1"%string;
                    subscription := Some "sub_7"%string;
                    metadata := present (params_metadata (checkout_params url checkout)) |} in
  let w := {| db := subscribers_database; console := [] |} in
  create_checkout_session (fun _ => inr "cs_1"%string) url checkout w =
  (inr {| answer_status := 200; answer_body_of := json_session "cs_1" |}, w) /\
  exists w' u,
    handleSuccessfulPayment None 5 session w = (inr tt, w') /\
    rows_of_customer "cus_1" (users (db w')) = [u] /\
    status u = Some "active"%string /\
    plan_id u = Some "pro"%string.
Proof.
  intros checkout url session w.
  apply (checkout_plan_round_trip (fun _ => inr "cs_1"%string) url
           checkout "pro" "cs_1" 5 session "cus_1" w w);
    try reflexivity; try (simpl; lia).
  apply subscribers_consistent.
Defined.

Lemma companies_statement_reads (int8in : string -> option Z) (query : string)
  (params : list param) (d : database) :
  snd (companies_statement int8in query params d) = d.
Proof. reflexivity. Qed.

(** X30: the endpoints that read (the list and the detail of companies,
    the analysis, the comparison, the search) and the checkout leave the
    database as it was, whatever the request and whatever fails. *)
Theorem reading_endpoints_keep_database
  (int8in : string -> option Z)
  (tsvector tsquery : Type) (to_tsvector : string -> tsvector)
  (plainto_tsquery : string -> tsquery) (ts_match : tsvector -> tsquery -> bool)
  (ts_rank : tsvector -> tsquery -> Q)
  (numeric_out : Q -> string) (StringToNumber : string -> number)
  (NumberToString : number -> string)
  (createSession : session_params -> string + string) (FRONTEND_URL : option string)
  (fault : option string) (faults : option string * option string * option string)
  (now : Z) (w : world)
  (listing : companies_request) (market_data : list market_data_row) (id code : string)
  (comparison : compare_request) (searching : search_request)
  (checkout : checkout_request) :
  db (snd (list_companies int8in fault listing w)) = db w /\
  db (snd (company_detail int8in faults market_data id w)) = db w /\
  db (snd (industry_analysis fault code w)) = db w /\
  db (snd (compare numeric_out StringToNumber NumberToString fault now comparison w))
  = db w /\
  db (snd (search tsvector tsquery to_tsvector plainto_tsquery ts_match ts_rank
                  fault searching w)) = db w /\
  db (snd (create_checkout_session createSession FRONTEND_URL checkout w)) = db w.
Proof.
  repeat split.
  - unfold list_companies, try_catch.
    destruct (companies_query listing) as [query params].
    unfold bind, pool_query. destruct fault; [reflexivity|].
    pose proof (companies_statement_reads int8in query params (db w)) as Hread.
    destruct (companies_statement int8in query params (db w)) as [[e|r] d];
      simpl in Hread; now subst d.
  - destruct faults as [[f1 f2] f3].
    unfold company_detail, try_catch, bind, pool_query, companyQuery, metricsQuery,
      marketQuery.
    destruct f1; [reflexivity|].
    destruct (to_bigint int8in (Some (text_param id))); [reflexivity|]. cbn [db console].
    destruct f2; [reflexivity|]. cbn [db console].
    destruct f3; [reflexivity|]. cbn [db console].
    destruct (nth_error _ 0); reflexivity.
  - unfold industry_analysis, try_catch, bind, pool_query.
    destruct fault; reflexivity.
  - unfold compare, try_catch.
    destruct (companyIds comparison) as [ids|]; [|reflexivity].
    destruct (List.length ids <? 2)%nat; [reflexivity|].
    unfold bind, pool_query. destruct fault; [reflexivity|]. simpl.
    destruct (generateComparisonInsights StringToNumber NumberToString _); reflexivity.
  - unfold search, try_catch, bind, pool_query. destruct fault; reflexivity.
  - unfold create_checkout_session, try_catch, bind, lift.
    destruct (createSession _); reflexivity.
Qed.
